(** * JMeter report analyzer: extraction, normalisation and comparison

    A shallow embedding of [src/utils/table_parsing.py] and of the three
    comparison modules under [src/comparison/], together with the properties
    the specification states about them.

    Conventions of the embedding.

    - Python exceptions are values of [exn]; a function that may raise
      returns a [result].
    - A Python [int] is a [Z].  A Python [float] is represented by the exact
      rational it denotes (a [Q], kept in lowest terms); arithmetic on floats
      is exact rational arithmetic, so the rounding error of binary64 and
      its overflow and underflow are outside the model.  [float('inf')] only
      occurs as the initial value of a running minimum and is represented
      there by [None].
    - A [dict] is an association list in insertion order; JSON objects have
      distinct keys.
    - A pandas [DataFrame] is an ordered list of column names with rows of
      cells aligned on them; [NaN] is the blank cell.
    - The file system and the working directory are an explicit [World];
      what the regular expressions and [json.loads] recover from a
      [dashboard.js] is part of it. *)

From Stdlib Require Import ZArith QArith Qabs Qround String Ascii List Bool Lia.
From Stdlib Require Import DecimalString Permutation Sorted.
Import ListNotations.

Open Scope string_scope.
Open Scope list_scope.
Open Scope Z_scope.

(** ** Exceptions *)

Inductive exn : Type :=
| KeyError (key : string)
| IndexError
| TypeError
| ValueError
| AttributeError
| ZeroDivisionError
| OSError
| JSONDecodeError.

Inductive result (A : Type) : Type :=
| Ok (a : A)
| Raise (e : exn).

Arguments Ok {A} a.
Arguments Raise {A} e.

Definition bind {A B : Type} (m : result A) (k : A -> result B) : result B :=
  match m with
  | Ok a => k a
  | Raise e => Raise e
  end.

Definition raises {A : Type} (m : result A) : Prop :=
  exists e, m = Raise e.

(** [[f(x) for x in xs]], stopping at the first exception. *)
Fixpoint map_result {A B : Type} (f : A -> result B) (xs : list A) : result (list B) :=
  match xs with
  | [] => Ok []
  | x :: xs' =>
      match f x with
      | Raise e => Raise e
      | Ok y =>
          match map_result f xs' with
          | Raise e => Raise e
          | Ok ys => Ok (y :: ys)
          end
      end
  end.

(** ** Numbers *)

(** A JSON number, as [json.load] returns it. *)
Inductive num : Type :=
| NInt (z : Z)
| NFloat (q : Q).

(** [float(n)] *)
Definition py_float (n : num) : Q :=
  match n with
  | NInt z => inject_Z z
  | NFloat q => Qred q
  end.

(** [int(n)]: truncation towards zero. *)
Definition py_int (n : num) : Z :=
  match n with
  | NInt z => z
  | NFloat q => Z.quot (Qnum q) (Zpos (Qden q))
  end.

(** Nearest integer, ties to the even one. *)
Definition round_half_even (q : Q) : Z :=
  let n := Qnum q in
  let d := Zpos (Qden q) in
  let f := n / d in
  match (2 * (n mod d)) ?= d with
  | Lt => f
  | Gt => f + 1
  | Eq => if Z.even f then f else f + 1
  end.

(** [round(x, 2)] on a float. *)
Definition round2 (q : Q) : Q :=
  Qred (round_half_even (q * 100) # 100).

(** [round(n, 2)]: an [int] is returned unchanged, a [float] is rounded. *)
Definition round2_num (n : num) : num :=
  match n with
  | NInt z => NInt z
  | NFloat q => NFloat (round2 q)
  end.

(** [a / b] on floats. *)
Definition truediv (a b : Q) : result Q :=
  if Qeq_bool b 0 then Raise ZeroDivisionError else Ok (Qred (a / b)).

Definition fadd (a b : Q) : Q := Qred (a + b).
Definition fsub (a b : Q) : Q := Qred (a - b).
Definition fmul (a b : Q) : Q := Qred (a * b).

Definition Qltb (a b : Q) : bool := negb (Qle_bool b a).

(** [min(a, b)] and [max(a, b)]: the first argument wins a tie. *)
Definition min2 (a b : Q) : Q := if Qltb b a then b else a.
Definition max2 (a b : Q) : Q := if Qltb a b then b else a.

(** ** Strings *)

Definition string_of_nat_Z (z : Z) : string :=
  NilZero.string_of_uint (N.to_uint (Z.to_N z)).

(** [f"{z}"] for an [int]. *)
Definition str_of_int (z : Z) : string :=
  if z <? 0 then ("-" ++ string_of_nat_Z (- z))%string else string_of_nat_Z z.

Definition two_digits (z : Z) : string :=
  if z <? 10 then ("0" ++ string_of_nat_Z z)%string else string_of_nat_Z z.

(** [f"{x:.2f}"] *)
Definition format_2f (q : Q) : string :=
  let h := Z.abs (round_half_even (q * 100)) in
  let sign := if Qnum q <? 0 then "-" else "" in
  (sign ++ string_of_nat_Z (h / 100) ++ "." ++ two_digits (h mod 100))%string.

Definition lower_ascii (c : ascii) : ascii :=
  let n := nat_of_ascii c in
  if andb (Nat.leb 65 n) (Nat.leb n 90) then ascii_of_nat (n + 32) else c.

(** [s.lower()] *)
Fixpoint str_lower (s : string) : string :=
  match s with
  | EmptyString => EmptyString
  | String c s' => String (lower_ascii c) (str_lower s')
  end.

(** [s.startswith(p)] *)
Definition startswith (s p : string) : bool := String.prefix p s.

Definition rev_string (s : string) : string :=
  string_of_list_ascii (rev (list_ascii_of_string s)).

(** [s.endswith(p)] *)
Definition endswith (s p : string) : bool :=
  String.prefix (rev_string p) (rev_string s).

(** ** Dictionaries *)

Section Dict.
Context {V : Type}.

Fixpoint dict_get (k : string) (d : list (string * V)) : option V :=
  match d with
  | [] => None
  | (k', v) :: d' => if String.eqb k k' then Some v else dict_get k d'
  end.

(** [k in d] *)
Definition dict_contains (k : string) (d : list (string * V)) : bool :=
  match dict_get k d with Some _ => true | None => false end.

(** [d[k] = v]: an existing key keeps its position. *)
Fixpoint dict_set (k : string) (v : V) (d : list (string * V)) : list (string * V) :=
  match d with
  | [] => [(k, v)]
  | (k', v') :: d' =>
      if String.eqb k k' then (k, v) :: d' else (k', v') :: dict_set k v d'
  end.

Definition dict_keys (d : list (string * V)) : list string := map fst d.

End Dict.

Notation "x <- m ;; k" := (bind m (fun x => k))
  (at level 61, m at next level, right associativity).

(** Arithmetic on numbers of either kind: two [int]s stay [int], anything
    else is computed on floats. *)
Definition num_sub (a b : num) : num :=
  match a, b with
  | NInt x, NInt y => NInt (x - y)
  | _, _ => NFloat (fsub (py_float a) (py_float b))
  end.

Definition num_gtb (a b : num) : bool := Qltb (py_float b) (py_float a).

(** ** Data frames *)

Inductive cell : Type :=
| CInt (z : Z)
| CFloat (q : Q)
| CStr (s : string)
| CNone
| CNaN.

Definition cell_of_num (n : num) : cell :=
  match n with
  | NInt z => CInt z
  | NFloat q => CFloat q
  end.

(** The number held by a cell, for arithmetic.  A cell that holds no number
    raises [TypeError]; arithmetic on a blank cell, which pandas would carry
    on as NaN, is not modelled and is reported the same way. *)
Definition num_of_cell (c : cell) : result num :=
  match c with
  | CInt z => Ok (NInt z)
  | CFloat q => Ok (NFloat q)
  | _ => Raise TypeError
  end.

(** Elementwise [==]; missing values equal nothing. *)
Definition cell_eqb (a b : cell) : bool :=
  match a, b with
  | CInt x, CInt y => x =? y
  | CInt x, CFloat q => Qeq_bool (inject_Z x) q
  | CFloat q, CInt x => Qeq_bool q (inject_Z x)
  | CFloat p, CFloat q => Qeq_bool p q
  | CStr s, CStr t => String.eqb s t
  | _, _ => false
  end.

(** A record is one row given as a dict, the way the code builds rows
    before it hands them to [pd.DataFrame]. *)
Definition record : Type := list (string * cell).

Record DataFrame : Type := mkDataFrame {
  df_columns : list string;
  df_rows : list (list cell)
}.

(** [pd.DataFrame()] *)
Definition empty_frame : DataFrame := mkDataFrame [] [].

(** [df.empty]: no column or no row. *)
Definition df_empty (df : DataFrame) : bool :=
  match df_columns df, df_rows df with
  | [], _ => true
  | _, [] => true
  | _, _ => false
  end.

(** [df is None or df.empty] *)
Definition none_or_empty (df : option DataFrame) : bool :=
  match df with
  | None => true
  | Some d => df_empty d
  end.

Definition mem_string (s : string) (l : list string) : bool :=
  existsb (String.eqb s) l.

Fixpoint index_of (c : string) (cols : list string) : option nat :=
  match cols with
  | [] => None
  | c' :: cols' =>
      if String.eqb c c' then Some O
      else match index_of c cols' with
           | Some i => Some (S i)
           | None => None
           end
  end.

Definition cell_at (i : nat) (row : list cell) : cell := nth i row CNaN.

(** Column names of a list of records, in order of first appearance. *)
Definition add_keys (seen : list string) (r : record) : list string :=
  fold_left (fun acc kv => if mem_string (fst kv) acc then acc else acc ++ [fst kv])
            r seen.

Definition union_keys (recs : list record) : list string :=
  fold_left add_keys recs [].

Definition align (cols : list string) (r : record) : list cell :=
  map (fun c => match dict_get c r with Some v => v | None => CNaN end) cols.

(** [pd.DataFrame(records)] on a list of dicts: the columns are the keys in
    order of first appearance, and a key that a record lacks gives a blank
    cell.  (The unification of the types of a column, which turns the ints
    of a column with blanks into floats, is not represented.) *)
Definition from_records (recs : list record) : DataFrame :=
  let cols := union_keys recs in
  mkDataFrame cols (map (align cols) recs).

Definition indices (cols have : list string) : result (list nat) :=
  map_result (fun c => match index_of c have with
                       | None => Raise (KeyError c)
                       | Some i => Ok i
                       end)
             cols.

(** [df[cols]] with a list of column names: every name must be a column.
    The [KeyError] carries the first missing name (pandas lists them all). *)
Definition select (cols : list string) (df : DataFrame) : result DataFrame :=
  ix <- indices cols (df_columns df) ;;
  Ok (mkDataFrame cols (map (fun r => map (fun i => cell_at i r) ix) (df_rows df))).

(** [df[c]] *)
Definition column (c : string) (df : DataFrame) : result (list cell) :=
  match index_of c (df_columns df) with
  | None => Raise (KeyError c)
  | Some i => Ok (map (cell_at i) (df_rows df))
  end.

(** [df[df[c] == v]] *)
Definition where_eq (c : string) (v : cell) (df : DataFrame) : result DataFrame :=
  match index_of c (df_columns df) with
  | None => Raise (KeyError c)
  | Some i =>
      Ok (mkDataFrame (df_columns df)
            (filter (fun r => cell_eqb (cell_at i r) v) (df_rows df)))
  end.

(** [v in series.values] *)
Definition in_values (v : cell) (vs : list cell) : bool :=
  existsb (cell_eqb v) vs.

(** [series.iloc[0]] *)
Definition iloc0 (vs : list cell) : result cell :=
  match vs with
  | [] => Raise IndexError
  | v :: _ => Ok v
  end.

(** Strings of a key column.  The key columns ([Label], [Endpoint], [Error],
    [Metric]) hold strings in every frame this program builds; a key cell of
    another type raises [e], the exception of the string operation that the
    caller applies to the keys. *)
Fixpoint strings_of (e : exn) (vs : list cell) : result (list string) :=
  match vs with
  | [] => Ok []
  | CStr s :: vs' => ss <- strings_of e vs' ;; Ok (s :: ss)
  | _ :: _ => Raise e
  end.

(** ** Sorting strings *)

Fixpoint insert_sorted {A : Type} (leb : A -> A -> bool) (x : A) (l : list A) : list A :=
  match l with
  | [] => [x]
  | y :: l' => if leb x y then x :: l else y :: insert_sorted leb x l'
  end.

Definition sort_by {A : Type} (leb : A -> A -> bool) (l : list A) : list A :=
  fold_right (insert_sorted leb) [] l.

Fixpoint dedup (l : list string) : list string :=
  match l with
  | [] => []
  | x :: l' => x :: filter (fun y => negb (String.eqb x y)) (dedup l')
  end.

(** [sorted(set(l))] for strings: code-point order, which on UTF-8 bytes is
    the bytewise lexicographic order. *)
Definition sorted_set (l : list string) : list string :=
  sort_by String.leb (dedup l).

(** ** Paths ([posixpath]) *)

Definition is_slash (c : ascii) : bool := Ascii.eqb c "/"%char.

Fixpoint drop_to_slash (l : list ascii) : list ascii :=
  match l with
  | [] => []
  | c :: l' => if is_slash c then l else drop_to_slash l'
  end.

Fixpoint drop_slashes (l : list ascii) : list ascii :=
  match l with
  | [] => []
  | c :: l' => if is_slash c then drop_slashes l' else l
  end.

(** [os.path.dirname(p)]: everything up to the last slash; trailing slashes
    of the result are stripped unless it consists of slashes only. *)
Definition dirname (p : string) : string :=
  let head := drop_to_slash (rev (list_ascii_of_string p)) in
  let head' := if forallb is_slash head then head else drop_slashes head in
  string_of_list_ascii (rev head').

(** [os.path.join(a, b)] *)
Definition join2 (a b : string) : string :=
  if startswith b "/" then b
  else if orb (String.eqb a "") (endswith a "/") then (a ++ b)%string
  else (a ++ "/" ++ b)%string.

(** [os.path.join(a, *parts)] *)
Definition join (a : string) (parts : list string) : string :=
  fold_left join2 parts a.

(** ** The world outside the program *)

(** A value of the secondary table's positional field lists. *)
Inductive jvalue : Type :=
| JNum (n : num)
| JStr (s : string)
| JNull.

(** One record of the [top5ErrorsBySamplerTable]: its ['data'] when that is
    a list, [None] otherwise. *)
Definition top5_item : Type := option (list jvalue).

(** What the regular expression and [json.loads] recover from a
    [dashboard.js]: no match, a match that does not load, or the ['items']
    of the loaded object (an object without ['items'] gives none). *)
Inductive dashboard : Type :=
| NoTable
| Unloadable
| Table (items : list top5_item).

(** One per-label record of the statistics payload.  Its attributes are JSON
    numbers (spec, data model: all numeric except label); ['rawResponses'],
    when the record has it, is a list of numbers.  An attribute that the
    program never reads, such as the ['transaction'] string that JMeter
    writes next to the numbers, is left out. *)
Record RawStatEntry : Type := mkEntry {
  attrs : list (string * num);
  rawResponses : option (list num)
}.

Definition StatsData : Type := list (string * RawStatEntry).

Record World : Type := mkWorld {
  (** [None]: no file at the path; [Some None]: a file that [json.load]
      rejects; [Some (Some d)]: a statistics payload. *)
  statistics_json : string -> option (option StatsData);
  getcwd : string;
  (** [None]: no file at the path. *)
  dashboard_js : string -> option dashboard
}.

(** ** utils/table_parsing.py *)

Module table_parsing.

Definition REPORT_TABLES : list (string * string) :=
  [ ("endpoint_stats", "Endpoint-wise Stats");
    ("aggregate_summary", "Aggregate Metrics Summary");
    ("errors", "Errors") ].

Definition COLUMN_MAPPING : list (string * string) :=
  [ ("Label", "Label");
    ("sampleCount", "#Samples");
    ("errorCount", "FAIL");
    ("errorPct", "Error %");
    ("meanResTime", "Average");
    ("minResTime", "Min");
    ("maxResTime", "Max");
    ("medianResTime", "Median");
    ("pct1ResTime", "90th pct");
    ("pct2ResTime", "95th pct");
    ("pct3ResTime", "99th pct");
    ("throughput", "Transactions/s");
    ("receivedKBytesPerSec", "Received");
    ("sentKBytesPerSec", "Sent") ].

Definition COLUMN_ORDER : list string :=
  [ "Label"; "#Samples"; "FAIL"; "Error %"; "Average"; "Min"; "Max"; "Median";
    "90th pct"; "95th pct"; "99th pct"; "Transactions/s"; "Received"; "Sent" ].

(** The three tables of one report; [None] is the absent value. *)
Record ReportTableSet : Type := mkTables {
  endpoint_stats : option DataFrame;
  aggregate_summary : option DataFrame;
  errors : option DataFrame
}.

(** [data.get(k, default)] *)
Definition attr (k : string) (default : num) (data : RawStatEntry) : num :=
  match dict_get k (attrs data) with
  | Some v => v
  | None => default
  end.

(** Truth value of a record: a dict is true when it is not empty. *)
Definition truthy (data : RawStatEntry) : bool :=
  match attrs data, rawResponses data with
  | [], None => false
  | _, _ => true
  end.

(** *** calculate_total_statistics *)

Record totals : Type := mkTotals {
  total_samples : Z;
  total_errors : Z;
  total_response_time : Q;
  min_response_time : option Q;
  max_response_time : Q;
  total_bytes : Q;
  total_sent_bytes : Q;
  all_response_times : list num
}.

Definition totals_init : totals :=
  mkTotals 0 0 0 None 0 0 0 [].

(** [min(m, float(data.get('minResTime', float('inf'))))] *)
Definition min_step (m : option Q) (data : RawStatEntry) : option Q :=
  match dict_get "minResTime" (attrs data) with
  | None => m
  | Some v =>
      match m with
      | None => Some (py_float v)
      | Some q => Some (min2 q (py_float v))
      end
  end.

(** The body of the loop over [stats_data.items()]. *)
Definition accumulate (t : totals) (item : string * RawStatEntry) : totals :=
  let (label, data) := item in
  if negb (String.eqb (str_lower label) "total") then
    let samples := py_int (attr "sampleCount" (NInt 0) data) in
    let mean_time := py_float (attr "meanResTime" (NInt 0) data) in
    mkTotals
      (total_samples t + samples)
      (total_errors t + py_int (attr "errorCount" (NInt 0) data))
      (fadd (total_response_time t) (fmul mean_time (inject_Z samples)))
      (min_step (min_response_time t) data)
      (max2 (max_response_time t) (py_float (attr "maxResTime" (NInt 0) data)))
      (fadd (total_bytes t) (py_float (attr "receivedBytes" (NInt 0) data)))
      (fadd (total_sent_bytes t) (py_float (attr "sentBytes" (NInt 0) data)))
      (match rawResponses data with
       | Some l => all_response_times t ++ l
       | None => all_response_times t
       end)
  else t.

Definition num_leb (a b : num) : bool := Qle_bool (py_float a) (py_float b).

(** [int(len(l) * p)] for the fractions 0.9, 0.95 and 0.99, taken as the
    decimal fractions they are written as. *)
Definition percentile_index (len : nat) (p : Q) : nat :=
  Z.to_nat (py_int (NFloat (fmul (inject_Z (Z.of_nat len)) p))).

(** [round(all_response_times[int(len(all_response_times) * p)], 2)] *)
Definition raw_percentile (sorted : list num) (p : Q) : result num :=
  match nth_error sorted (percentile_index (length sorted) p) with
  | Some v => Ok (round2_num v)
  | None => Raise IndexError
  end.

(** [max(float(data.get(k, 0)) for data in stats_data.values())] *)
Definition max_reported (k : string) (stats_data : StatsData) : result Q :=
  match stats_data with
  | [] => Raise ValueError
  | (_, d) :: rest =>
      Ok (fold_left (fun m item => max2 m (py_float (attr k (NInt 0) (snd item))))
                    rest (py_float (attr k (NInt 0) d)))
  end.

Definition percentile (t : totals) (stats_data : StatsData) (p : Q) (k : string)
  : result num :=
  match all_response_times t with
  | [] => m <- max_reported k stats_data ;; Ok (NFloat (round2 m))
  | _ :: _ => raw_percentile (sort_by num_leb (all_response_times t)) p
  end.

Definition calculate_total_statistics (stats_data : StatsData)
  : result (option RawStatEntry) :=
  let t := fold_left accumulate stats_data totals_init in
  if total_samples t >? 0 then
    avg <- truediv (total_response_time t) (inject_Z (total_samples t)) ;;
    let avg_response_time := round2 avg in
    ratio <- truediv (inject_Z (total_errors t)) (inject_Z (total_samples t)) ;;
    let error_percent := round2 (fmul ratio 100) in
    seconds <- truediv (max_response_time t) 1000 ;;
    rate <- truediv (inject_Z (total_samples t)) seconds ;;
    let throughput := round2 rate in
    pct_90 <- percentile t stats_data (9 # 10) "pct1ResTime" ;;
    pct_95 <- percentile t stats_data (95 # 100) "pct2ResTime" ;;
    pct_99 <- percentile t stats_data (99 # 100) "pct3ResTime" ;;
    Ok (Some (mkEntry
      [ ("sampleCount", NInt (total_samples t));
        ("errorCount", NInt (total_errors t));
        ("errorPct", NFloat error_percent);
        ("meanResTime", NFloat avg_response_time);
        ("minResTime", match min_response_time t with
                       | Some m => NFloat (round2 m)
                       | None => NInt 0
                       end);
        ("maxResTime", NFloat (round2 (max_response_time t)));
        ("pct1ResTime", pct_90);
        ("pct2ResTime", pct_95);
        ("pct3ResTime", pct_99);
        ("throughput", NFloat throughput);
        ("receivedBytes", NFloat (round2 (total_bytes t)));
        ("sentBytes", NFloat (round2 (total_sent_bytes t))) ]
      None))
  else Ok None.

(** *** is_http_endpoint, sort_endpoints *)

Definition is_http_endpoint (label : string) : bool :=
  existsb (startswith label) ["GET "; "POST "; "PUT "; "DELETE "; "PATCH "].

Definition get_sort_key (label : string) : Z * string :=
  if String.eqb label "Total" then (0, label)
  else if is_http_endpoint label then (2, label)
  else (1, label).

(** Order of the key tuples: first component, then the label. *)
Definition key_leb (a b : Z * string) : bool :=
  orb (fst a <? fst b) (andb (fst a =? fst b) (String.leb (snd a) (snd b))).

(** [df.sort_values('sort_key')] on the rows paired with their keys.  The
    keys of distinct labels differ, so the sorted order does not depend on
    the sorting algorithm. *)
Definition sort_rows (labels : list string) (rows : list (list cell)) : list (list cell) :=
  map snd (sort_by (fun a b => key_leb (fst a) (fst b))
                   (combine (map get_sort_key labels) rows)).

Definition sort_endpoints (df : DataFrame) : result DataFrame :=
  match index_of "Label" (df_columns df) with
  | None => Ok df
  | Some i =>
      labels <- strings_of AttributeError (map (cell_at i) (df_rows df)) ;;
      Ok (mkDataFrame (df_columns df) (sort_rows labels (df_rows df)))
  end.

(** *** create_errors_table *)

Definition digit_of (c : ascii) : option Z :=
  let n := nat_of_ascii c in
  if andb (Nat.leb 48 n) (Nat.leb n 57) then Some (Z.of_nat (n - 48)) else None.

Fixpoint digits_value (acc : Z) (s : string) : option Z :=
  match s with
  | EmptyString => Some acc
  | String c s' =>
      match digit_of c with
      | Some d => digits_value (10 * acc + d) s'
      | None => None
      end
  end.

(** [int(s)] for a string: an optional sign and decimal digits (the blanks
    and underscores that [int] also tolerates are taken as malformed). *)
Definition int_of_string (s : string) : option Z :=
  match s with
  | EmptyString => None
  | String "-"%char (String c s') => option_map Z.opp (digits_value 0 (String c s'))
  | String "+"%char (String c s') => digits_value 0 (String c s')
  | _ => digits_value 0 s
  end.

(** [int(v)] *)
Definition int_of_jvalue (v : jvalue) : result Z :=
  match v with
  | JNum n => Ok (py_int n)
  | JStr s => match int_of_string s with Some z => Ok z | None => Raise ValueError end
  | JNull => Raise TypeError
  end.

Definition cell_of_jvalue (v : jvalue) : cell :=
  match v with
  | JNum n => cell_of_num n
  | JStr s => CStr s
  | JNull => CNone
  end.

(** The dict [error_info], label to first error description.  A key that is
    not a string can never be found by a label, so it is not recorded. *)
Definition error_info_t : Type := list (string * jvalue).

(** The body of the loop over the items of the secondary table. *)
Definition record_error (error_info : error_info_t) (item : top5_item)
  : result error_info_t :=
  match item with
  | Some data =>
      if (5 <=? length data)%nat then
        match data with
        | label :: _ :: count :: error_text :: _ =>
            errors_count <- int_of_jvalue count ;;
            if errors_count >? 0 then
              match label with
              | JStr l => Ok (dict_set l error_text error_info)
              | _ => Ok error_info
              end
            else Ok error_info
        | _ => Ok error_info
        end
      else Ok error_info
  | None => Ok error_info
  end.

(** The loop keeps what it recorded before an exception: the assignments to
    [error_info] are not undone by the [except] clause. *)
Fixpoint read_top5 (items : list top5_item) (error_info : error_info_t) : error_info_t :=
  match items with
  | [] => error_info
  | item :: items' =>
      match record_error error_info item with
      | Ok error_info' => read_top5 items' error_info'
      | Raise _ => error_info
      end
  end.

(** The first of the conventional locations at which a [dashboard.js] exists. *)
Definition find_dashboard (w : World) : option string :=
  let possible_paths :=
    [ join (dirname (dirname (getcwd w))) ["content"; "js"; "dashboard.js"];
      join (getcwd w) ["temp_jmeter_reports"; "persistent"; "content"; "js"; "dashboard.js"] ] in
  find (fun p => match dashboard_js w p with Some _ => true | None => false end)
       possible_paths.

Definition load_error_info (w : World) : error_info_t :=
  match find_dashboard w with
  | None => []
  | Some p =>
      match dashboard_js w p with
      | Some (Table items) => read_top5 items []
      | _ => []
      end
  end.

Definition error_row (error_info : error_info_t) (label : string) (data : RawStatEntry)
  (error_count : Z) : record :=
  let error_text :=
    match dict_get label error_info with
    | Some (JStr "") => CStr "Unknown Error"
    | Some v => cell_of_jvalue v
    | None => CStr "Unknown Error"
    end in
  [ ("Endpoint", CStr label);
    ("Request #", CInt (py_int (attr "sampleCount" (NInt 0) data)));
    ("Error #", CInt error_count);
    ("Error", error_text);
    ("Error %", CFloat (round2 (py_float (attr "errorPct" (NInt 0) data)))) ].

(** The body of the loop over [stats_data.items()] that fills [error_rows]. *)
Definition add_error_row (error_info : error_info_t) (error_rows : list record)
  (item : string * RawStatEntry) : list record :=
  let (label, data) := item in
  if andb (negb (String.eqb (str_lower label) "total")) (is_http_endpoint label) then
    let error_count := py_int (attr "errorCount" (NInt 0) data) in
    if error_count >? 0 then error_rows ++ [error_row error_info label data error_count]
    else error_rows
  else error_rows.

(** [stats_data['__file__']], were it present, is a record and not a path:
    [os.path.dirname] rejects it, outside any [try]. *)
Definition create_errors_table (w : World) (stats_data : StatsData)
  : result (option DataFrame) :=
  if dict_contains "__file__" stats_data then Raise TypeError
  else
    let error_info := load_error_info w in
    let error_rows := fold_left (add_error_row error_info) stats_data [] in
    match error_rows with
    | [] => Ok None
    | _ :: _ => Ok (Some (from_records error_rows))
    end.

(** *** parse_jmeter_tables *)

(** The located statistics payload: the path itself when it ends in the
    file name, else that name in the directory of the path. *)
Definition statistics_path (report_path : string) : string :=
  if endswith report_path "statistics.json" then report_path
  else join (dirname report_path) ["statistics.json"].

(** One step of the loop over [COLUMN_MAPPING.items()] that fills [row]. *)
Definition map_column (label : string) (data : RawStatEntry) (row : record)
  (m : string * string) : record :=
  let (old_col, new_col) := m in
  if String.eqb old_col "Label" then dict_set new_col (CStr label) row
  else
    match dict_get old_col (attrs data) with
    | Some value =>
        if mem_string old_col ["sampleCount"; "errorCount"]
        then dict_set new_col (CInt (py_int value)) row
        else dict_set new_col (CFloat (round2 (py_float value))) row
    | None => row
    end.

Definition stats_row (item : string * RawStatEntry) : record :=
  fold_left (map_column (fst item) (snd item)) COLUMN_MAPPING [].

Definition metric_value (total_stats : RawStatEntry) (k : string) : cell :=
  CFloat (round2 (py_float (attr k (NInt 0) total_stats))).

(** The aggregate table built from the ['Total'] record. *)
Definition aggregate_metrics (total_stats : RawStatEntry) : DataFrame :=
  mkDataFrame ["Metric"; "Value"]
    [ [CStr "Average Response Time (ms)"; metric_value total_stats "meanResTime"];
      [CStr "Median Response Time (ms)";
       CFloat (round2 (py_float (attr "medianResTime"
                                      (attr "Median" (NInt 0) total_stats)
                                      total_stats)))];
      [CStr "Min Response Time (ms)"; metric_value total_stats "minResTime"];
      [CStr "Max Response Time (ms)"; metric_value total_stats "maxResTime"];
      [CStr "Throughput (req/sec)"; metric_value total_stats "throughput"];
      [CStr "Error %"; metric_value total_stats "errorPct"];
      [CStr "90th Percentile (ms)"; metric_value total_stats "pct1ResTime"];
      [CStr "95th Percentile (ms)"; metric_value total_stats "pct2ResTime"];
      [CStr "99th Percentile (ms)"; metric_value total_stats "pct3ResTime"] ].

(** [tables = {key: None for key in REPORT_TABLES.keys()}] *)
Definition no_tables : ReportTableSet := mkTables None None None.

(** Lines 470-474: the ['Total'] record is computed when the payload has no
    such key. *)
Definition with_total (loaded : StatsData) : result StatsData :=
  if dict_contains "Total" loaded then Ok loaded
  else
    total_stats <- calculate_total_statistics loaded ;;
    match total_stats with
    | Some t => Ok (dict_set "Total" t loaded)
    | None => Ok loaded
    end.

(** The tables of a loaded payload (lines 470-543). *)
Definition tables_of (w : World) (loaded : StatsData) : result ReportTableSet :=
  stats_data <- with_total loaded ;;
  match map stats_row stats_data with
  | [] => Ok no_tables
  | stats_rows =>
      stats_df <- select COLUMN_ORDER (from_records stats_rows) ;;
      sorted_df <- sort_endpoints stats_df ;;
      let aggregate :=
        match dict_get "Total" stats_data with
        | Some total_stats =>
            if truthy total_stats then Some (aggregate_metrics total_stats) else None
        | None => None
        end in
      errors_df <- create_errors_table w stats_data ;;
      Ok (mkTables (Some sorted_df) aggregate errors_df)
  end.

(** The [except] clause re-raises, so the exceptions of the body are those
    of the call. *)
Definition parse_jmeter_tables (w : World) (report_path : string)
  : result ReportTableSet :=
  match statistics_json w (statistics_path report_path) with
  | None => Ok no_tables
  | Some None => Raise JSONDecodeError
  | Some (Some loaded) => tables_of w loaded
  end.

End table_parsing.

(** ** Formatting cells *)

(** [f"{float(v):.2f}" if v is not None else ""].  A string cell is not
    converted: the value columns hold numbers in every frame the parser
    builds, and [float] of a string is reported as [ValueError]. *)
Definition format_float_cell (v : cell) : result string :=
  match v with
  | CNone => Ok ""
  | CInt z => Ok (format_2f (inject_Z z))
  | CFloat q => Ok (format_2f q)
  | CNaN => Ok "nan"
  | CStr _ => Raise ValueError
  end.

(** [f"{int(v)}" if v is not None else ""]: the blank cell has no integer
    value. *)
Definition format_int_cell (v : cell) : result string :=
  match v with
  | CNone => Ok ""
  | CInt z => Ok (str_of_int z)
  | CFloat q => Ok (str_of_int (py_int (NFloat q)))
  | CNaN => Raise ValueError
  | CStr s =>
      match table_parsing.int_of_string s with
      | Some z => Ok (str_of_int z)
      | None => Raise ValueError
      end
  end.

(** [series.apply(f)] on one column of a frame. *)
Definition apply_column (c : string) (f : cell -> cell) (df : DataFrame) : DataFrame :=
  match index_of c (df_columns df) with
  | None => df
  | Some i =>
      mkDataFrame (df_columns df)
        (map (fun r => firstn i r ++ match skipn i r with
                                     | [] => []
                                     | v :: r' => f v :: r'
                                     end)
             (df_rows df))
  end.

(** The frames of a list that has no [None] in it. *)
Definition frames (dfs : list (option DataFrame)) : list DataFrame :=
  flat_map (fun df => match df with Some d => [d] | None => [] end) dfs.

(** [not l] *)
Definition is_nil {A : Type} (l : list A) : bool :=
  match l with [] => true | _ :: _ => false end.

(** ** comparison/error_comparison.py *)

Module error_comparison.

(** [df[df['Endpoint'] == endpoint] if endpoint in df['Endpoint'].values
    else pd.DataFrame()] *)
Definition errors_for (endpoint : string) (df : DataFrame) : result DataFrame :=
  vs <- column "Endpoint" df ;;
  if in_values (CStr endpoint) vs then where_eq "Endpoint" (CStr endpoint) df
  else Ok empty_frame.

(** [errors[errors['Error'] == error]['Count'].iloc[0]
     if not errors.empty and error in errors['Error'].values else 0] *)
Definition count_of (errors : DataFrame) (error : string) : result num :=
  if df_empty errors then Ok (NInt 0)
  else
    vs <- column "Error" errors ;;
    if in_values (CStr error) vs then
      matching <- where_eq "Error" (CStr error) errors ;;
      counts <- column "Count" matching ;;
      c <- iloc0 counts ;;
      num_of_cell c
    else Ok (NInt 0).

(** [errors['Total'].iloc[0]
     if not errors.empty and 'Total' in errors.columns else 0] *)
Definition total_of (errors : DataFrame) : result num :=
  if andb (negb (df_empty errors)) (mem_string "Total" (df_columns errors)) then
    totals <- column "Total" errors ;;
    c <- iloc0 totals ;;
    num_of_cell c
  else Ok (NInt 0).

(** [(count / total * 100) if total > 0 else 0] *)
Definition percentage (count total : num) : result num :=
  if num_gtb total (NInt 0) then
    ratio <- truediv (py_float count) (py_float total) ;;
    Ok (NFloat (fmul ratio 100))
  else Ok (NInt 0).

(** The body of the inner [try]. *)
Definition comparison_row (errors1 errors2 : DataFrame) (endpoint error : string)
  : result record :=
  count1 <- count_of errors1 error ;;
  count2 <- count_of errors2 error ;;
  total1 <- total_of errors1 ;;
  total2 <- total_of errors2 ;;
  pct1 <- percentage count1 total1 ;;
  pct2 <- percentage count2 total2 ;;
  let count_diff := num_sub count2 count1 in
  let pct_diff := num_sub pct2 pct1 in
  Ok [ ("Endpoint", CStr endpoint);
       ("Error Description", CStr error);
       ("Report 1 Count", cell_of_num count1);
       ("Report 1 %", cell_of_num pct1);
       ("Report 2 Count", cell_of_num count2);
       ("Report 2 %", cell_of_num pct2);
       ("Count Difference", cell_of_num count_diff);
       ("% Difference", cell_of_num pct_diff) ].

(** The rows one endpoint contributes: an exception in the inner [try]
    skips the pair, one in the outer [try] skips the endpoint. *)
Definition endpoint_rows (df1 df2 : DataFrame) (endpoint : string) : list record :=
  let attempt :=
    errors1 <- errors_for endpoint df1 ;;
    errors2 <- errors_for endpoint df2 ;;
    d1 <- column "Error" errors1 ;;
    d2 <- column "Error" errors2 ;;
    error_descriptions <- strings_of TypeError (d1 ++ d2) ;;
    Ok (flat_map
          (fun error =>
             match comparison_row errors1 errors2 endpoint error with
             | Ok row => [row]
             | Raise _ => []
             end)
          (sorted_set error_descriptions)) in
  match attempt with
  | Ok rows => rows
  | Raise _ => []
  end.

(** [f"{x:.2f}%" if isinstance(x, (int, float)) else x] *)
Definition percent_string (x : cell) : cell :=
  match x with
  | CInt z => CStr (format_2f (inject_Z z) ++ "%")
  | CFloat q => CStr (format_2f q ++ "%")
  | CNaN => CStr "nan%"
  | _ => x
  end.

Definition compare_errors (df1 df2 : option DataFrame) : result DataFrame :=
  match df1, df2 with
  | Some d1, Some d2 =>
      if orb (df_empty d1) (df_empty d2) then Ok empty_frame
      else
        e1 <- column "Endpoint" d1 ;;
        e2 <- column "Endpoint" d2 ;;
        endpoints <- strings_of TypeError (e1 ++ e2) ;;
        match flat_map (endpoint_rows d1 d2) (sorted_set endpoints) with
        | [] => Ok empty_frame
        | comparison_data =>
            Ok (fold_left (fun df c => apply_column c percent_string df)
                          ["Report 1 %"; "Report 2 %"; "% Difference"]
                          (from_records comparison_data))
        end
  | _, _ => Ok empty_frame
  end.

End error_comparison.

(** ** comparison/aggregate_comparison.py *)

Module aggregate_comparison.

Definition metric_order : list string :=
  [ "Average Response Time (ms)";
    "Error %";
    "Throughput (req/sec)";
    "Min Response Time (ms)";
    "Max Response Time (ms)";
    "Median Response Time (ms)";
    "90th Percentile (ms)";
    "95th Percentile (ms)";
    "99th Percentile (ms)" ].

(** [{row['Metric']: row['Value'] for _, row in df.iterrows()}]; a key that
    is not a string can never be found by a metric name and is left out. *)
Definition metric_map (df : DataFrame) : result (list (string * cell)) :=
  ms <- column "Metric" df ;;
  vs <- column "Value" df ;;
  Ok (fold_left (fun m kv => match fst kv with
                             | CStr k => dict_set k (snd kv) m
                             | _ => m
                             end)
                (combine ms vs) []).

(** The inner loop over [zip(metric_maps, report_names)] for one metric. *)
Fixpoint fill_row (metric : string) (row : record)
  (pairs : list (list (string * cell) * string)) : result record :=
  match pairs with
  | [] => Ok row
  | (m, name) :: pairs' =>
      text <- match dict_get metric m with
              | Some val => format_float_cell val
              | None => Ok ""
              end ;;
      fill_row metric (dict_set name (CStr text) row) pairs'
  end.

Definition compare_aggregate_stats (dfs : list (option DataFrame))
  (report_names : list string) : result DataFrame :=
  if orb (Nat.eqb (length dfs) 0)
         (orb (is_nil report_names)
              (negb (Nat.eqb (length dfs) (length report_names))))
  then Ok empty_frame
  else if existsb none_or_empty dfs then Ok empty_frame
  else
    maps <- map_result metric_map (frames dfs) ;;
    rows <- map_result
              (fun metric =>
                 fill_row metric [("Metric", CStr metric)] (combine maps report_names))
              metric_order ;;
    Ok (from_records rows).

End aggregate_comparison.

(** ** comparison/endpoint_comparison.py *)

Module endpoint_comparison.

Definition metrics : list (string * string) :=
  [ ("#Samples", "#Samples");
    ("Average", "Average Response Time (ms)");
    ("Error %", "Error %");
    ("Transactions/s", "Throughput (req/sec)");
    ("Median", "Median Response Time (ms)");
    ("90th pct", "90th Percentile (ms)");
    ("95th pct", "95th Percentile (ms)");
    ("99th pct", "99th Percentile (ms)") ].

(** Equality of labels as [unique] and [in] on a list see it. *)
Definition cell_same (a b : cell) : bool :=
  match a, b with
  | CNone, CNone => true
  | CNaN, CNaN => true
  | _, _ => cell_eqb a b
  end.

(** [series.unique()]: first occurrences, in order. *)
Fixpoint unique (vs : list cell) : list cell :=
  match vs with
  | [] => []
  | v :: vs' => v :: filter (fun x => negb (cell_same v x)) (unique vs')
  end.

(** [labels += [l for l in df['Label'].unique() if l not in labels]] *)
Definition add_labels (labels : list cell) (df : DataFrame) : result (list cell) :=
  vs <- column "Label" df ;;
  Ok (labels ++ filter (fun l => negb (existsb (cell_same l) labels)) (unique vs)).

Fixpoint all_labels (labels : list cell) (dfs : list DataFrame) : result (list cell) :=
  match dfs with
  | [] => Ok labels
  | df :: dfs' =>
      labels' <- add_labels labels df ;;
      all_labels labels' dfs'
  end.

(** The text of one cell of the comparison. *)
Definition metric_text (label : cell) (metric_key : string) (df : DataFrame)
  : result string :=
  vs <- column "Label" df ;;
  if in_values label vs then
    v <- (if mem_string metric_key (df_columns df) then
            matching <- where_eq "Label" label df ;;
            values <- column metric_key matching ;;
            iloc0 values
          else Ok CNone) ;;
    if String.eqb metric_key "#Samples" then format_int_cell v
    else format_float_cell v
  else Ok "".

(** The loop over [zip(dfs, report_names)] for one label and one metric. *)
Fixpoint fill_metric (label : cell) (metric : string * string) (row : record)
  (pairs : list (DataFrame * string)) : result record :=
  match pairs with
  | [] => Ok row
  | (df, name) :: pairs' =>
      let col := (snd metric ++ " (" ++ name ++ ")")%string in
      val <- metric_text label (fst metric) df ;;
      fill_metric label metric (dict_set col (CStr val) row) pairs'
  end.

Fixpoint fill_metrics (label : cell) (ms : list (string * string)) (row : record)
  (pairs : list (DataFrame * string)) : result record :=
  match ms with
  | [] => Ok row
  | metric :: ms' =>
      row' <- fill_metric label metric row pairs ;;
      fill_metrics label ms' row' pairs
  end.

Definition compare_endpoint_stats (dfs : list (option DataFrame))
  (report_names : list string) : result DataFrame :=
  if orb (is_nil dfs)
         (orb (is_nil report_names)
              (negb (Nat.eqb (length dfs) (length report_names))))
  then Ok empty_frame
  else if existsb none_or_empty dfs then Ok empty_frame
  else
    labels <- all_labels [] (frames dfs) ;;
    rows <- map_result
              (fun label =>
                 fill_metrics label metrics [("Endpoint", label)]
                              (combine (frames dfs) report_names))
              labels ;;
    Ok (from_records rows).

End endpoint_comparison.

Import table_parsing error_comparison aggregate_comparison endpoint_comparison.

(** ** Sample reports *)

(** A record with every attribute JMeter writes. *)
Definition jmeter_entry (samples errors : Z) (error_pct mean median lo hi : Q)
  : RawStatEntry :=
  mkEntry
    [ ("sampleCount", NInt samples);
      ("errorCount", NInt errors);
      ("errorPct", NFloat error_pct);
      ("meanResTime", NFloat mean);
      ("medianResTime", NFloat median);
      ("minResTime", NFloat lo);
      ("maxResTime", NFloat hi);
      ("pct1ResTime", NFloat hi);
      ("pct2ResTime", NFloat hi);
      ("pct3ResTime", NFloat hi);
      ("throughput", NFloat 2);
      ("receivedKBytesPerSec", NFloat 1);
      ("sentKBytesPerSec", NFloat 1) ]
    None.

(** A world with one payload per listed path, the working directory
    [/srv/app] and one [dashboard.js] below it. *)
Definition world_of (payloads : list (string * StatsData)) (top5 : list top5_item)
  : World :=
  mkWorld
    (fun p => option_map Some (dict_get p payloads))
    "/srv/app"
    (fun p =>
       if String.eqb p "/srv/app/temp_jmeter_reports/persistent/content/js/dashboard.js"
       then Some (Table top5) else None).

Definition top5_sample : list top5_item :=
  [ Some [JStr "GET /a"; JNum (NInt 100); JNum (NInt 5); JStr "Timeout"; JNum (NInt 5);
          JStr ""; JStr ""];
    Some [JStr "GET /b"; JNum (NInt 50); JNum (NInt 2); JStr ""; JNum (NInt 2)];
    Some [JStr "GET /c"; JNum (NInt 50); JNum (NInt 0); JStr ""; JStr ""] ].

(** Report 1 has errors on [GET /a] only, report 2 on [GET /b] only. *)
Definition report1 : StatsData :=
  [ ("Total", jmeter_entry 100 5 5 20 18 10 400);
    ("GET /a", jmeter_entry 100 5 5 20 18 10 400) ].

Definition report2 : StatsData :=
  [ ("Total", jmeter_entry 50 2 4 30 25 10 500);
    ("GET /b", jmeter_entry 50 2 4 30 25 10 500) ].

(** A payload whose records carry the two counts and nothing else. *)
Definition counts_only : StatsData :=
  [ ("Total", mkEntry [("sampleCount", NInt 10); ("errorCount", NInt 0)] None);
    ("GET /a", mkEntry [("sampleCount", NInt 10); ("errorCount", NInt 0)] None) ].

(** A payload without a ['Total'] record, its labels in no particular order. *)
Definition unsorted_report : StatsData :=
  [ ("POST /x", jmeter_entry 10 0 0 20 18 10 400);
    ("login", jmeter_entry 10 0 0 20 18 10 400);
    ("GET /a", jmeter_entry 10 1 10 20 18 10 400);
    ("Checkout", jmeter_entry 10 0 0 20 18 10 400) ].

(** An endpoint that was never sampled. *)
Definition idle_report : StatsData :=
  [ ("GET /a", jmeter_entry 0 0 0 0 0 0 0) ].

(** Ten samples, every response time reported as 0. *)
Definition instant_report : StatsData :=
  [ ("GET /a", jmeter_entry 10 0 0 0 0 0 0) ].

(** [report1] without its ['Total'] record. *)
Definition report1_endpoints : StatsData :=
  [ ("GET /a", jmeter_entry 100 5 5 20 18 10 400) ].

Definition sample_world : World :=
  world_of [ ("/reports/r1/statistics.json", report1);
             ("/reports/r2/statistics.json", report2);
             ("/reports/r3/statistics.json", counts_only);
             ("/reports/r5/statistics.json", unsorted_report);
             ("/reports/r6/statistics.json", idle_report);
             ("/reports/r7/statistics.json", instant_report);
             ("/reports/r8/statistics.json", report1_endpoints) ]
           top5_sample.

(** The tables the parser builds for a report of [sample_world]. *)
Definition tables_at (report_path : string) : ReportTableSet :=
  match parse_jmeter_tables sample_world report_path with
  | Ok t => t
  | Raise _ => no_tables
  end.

Definition endpoints_of (report_path : string) : DataFrame :=
  match endpoint_stats (tables_at report_path) with
  | Some df => df
  | None => empty_frame
  end.

Definition errors_of (report_path : string) : option DataFrame :=
  errors (tables_at report_path).

(** ** Vocabulary of the properties *)

(** The aggregate metric names in the order the specification lists them. *)
Definition canonical_metric_names : list string :=
  [ "Average Response Time (ms)";
    "Median Response Time (ms)";
    "Min Response Time (ms)";
    "Max Response Time (ms)";
    "Throughput (req/sec)";
    "Error %";
    "90th Percentile (ms)";
    "95th Percentile (ms)";
    "99th Percentile (ms)" ].

(** An aggregate table: the two columns of [aggregate_metrics], at least one
    row, a metric name and a float in every row. *)
Definition aggregate_table (df : DataFrame) : Prop :=
  df_columns df = ["Metric"; "Value"] /\
  df_rows df <> [] /\
  Forall (fun r => exists m q, r = [CStr m; CFloat q]) (df_rows df).

(** The text of one report's cell for a metric: the value with two decimals,
    blank when the report has no such metric. *)
Definition expected_text (metric : string) (m : list (string * cell)) : result string :=
  match dict_get metric m with
  | Some val => format_float_cell val
  | None => Ok ""
  end.

Definition float_valued (m : list (string * cell)) : Prop :=
  Forall (fun kv => exists q, snd kv = CFloat q) m.

Definition aggregate_of (report_path : string) : option DataFrame :=
  aggregate_summary (tables_at report_path).

(** [leb a b] as a proposition. *)
Definition holds {A : Type} (leb : A -> A -> bool) (a b : A) : Prop := leb a b = true.

(** The three groups of labels of the endpoint table. *)
Definition is_aggregate_label (label : string) : bool := String.eqb label "Total".




(** The order of the sort keys, on the labels. *)
Definition key_order (a b : string) : Prop :=
  holds key_leb (get_sort_key a) (get_sort_key b).

Definition pair_leb (a b : (Z * string) * list cell) : bool := key_leb (fst a) (fst b).

Definition label_of (kr : (Z * string) * list cell) : string := snd (fst kr).

(** A row paired with the key of its own label. *)
Definition keyed (i : nat) (kr : (Z * string) * list cell) : Prop :=
  cell_at i (snd kr) = CStr (label_of kr) /\ fst kr = get_sort_key (label_of kr).


(** ** Vocabulary of the aggregate synthesis *)

(** A label that the synthesis takes for the aggregate: ['total'] in any
    letter case. *)
Definition is_aggregate_key (label : string) : bool :=
  String.eqb (str_lower label) "total".

(** The records the synthesis runs over. *)
Definition non_aggregate (stats_data : StatsData) : list RawStatEntry :=
  map snd (filter (fun item => negb (is_aggregate_key (fst item))) stats_data).

Definition samples_of (data : RawStatEntry) : Z := py_int (attr "sampleCount" (NInt 0) data).
Definition failures_of (data : RawStatEntry) : Z := py_int (attr "errorCount" (NInt 0) data).
Definition mean_of (data : RawStatEntry) : Q := py_float (attr "meanResTime" (NInt 0) data).
Definition max_of (data : RawStatEntry) : Q := py_float (attr "maxResTime" (NInt 0) data).

Definition sum_Z (l : list Z) : Z := fold_right Z.add 0 l.

Definition sum_samples (entries : list RawStatEntry) : Z := sum_Z (map samples_of entries).
Definition sum_failures (entries : list RawStatEntry) : Z := sum_Z (map failures_of entries).

Definition weighted_time (entries : list RawStatEntry) : Q :=
  fold_left (fun acc d => fadd acc (fmul (mean_of d) (inject_Z (samples_of d)))) entries 0%Q.

Definition largest_time (entries : list RawStatEntry) : Q :=
  fold_left (fun m d => max2 m (max_of d)) entries 0%Q.

Definition smallest_time (entries : list RawStatEntry) : option Q :=
  fold_left min_step entries None.
Definition received_of (data : RawStatEntry) : Q := py_float (attr "receivedBytes" (NInt 0) data).
Definition sent_of (data : RawStatEntry) : Q := py_float (attr "sentBytes" (NInt 0) data).

(** The state of the loop of [calculate_total_statistics] after the
    records [entries], started in state [t]. *)
Definition gather (entries : list RawStatEntry) (t : totals) : totals :=
  mkTotals
    (total_samples t + sum_samples entries)
    (total_errors t + sum_failures entries)
    (fold_left (fun acc d => fadd acc (fmul (mean_of d) (inject_Z (samples_of d))))
               entries (total_response_time t))
    (fold_left min_step entries (min_response_time t))
    (fold_left (fun m d => max2 m (max_of d)) entries (max_response_time t))
    (fold_left (fun acc d => fadd acc (received_of d)) entries (total_bytes t))
    (fold_left (fun acc d => fadd acc (sent_of d)) entries (total_sent_bytes t))
    (fold_left (fun l d => match rawResponses d with Some r => l ++ r | None => l end)
               entries (all_response_times t)).
Definition total_received (entries : list RawStatEntry) : Q :=
  fold_left (fun acc d => fadd acc (received_of d)) entries 0%Q.

Definition total_sent (entries : list RawStatEntry) : Q :=
  fold_left (fun acc d => fadd acc (sent_of d)) entries 0%Q.

(** The aggregate record of a list of per-endpoint records, given the three
    percentiles: counts are sums, the mean is weighted by sample count, the
    throughput is the number of samples over the largest response time in
    seconds. *)
Definition synthesized (entries : list RawStatEntry) (pct_90 pct_95 pct_99 : num)
  : RawStatEntry :=
  let n := inject_Z (sum_samples entries) in
  mkEntry
    [ ("sampleCount", NInt (sum_samples entries));
      ("errorCount", NInt (sum_failures entries));
      ("errorPct", NFloat (round2 (fmul (Qred (inject_Z (sum_failures entries) / n)) 100)));
      ("meanResTime", NFloat (round2 (Qred (weighted_time entries / n))));
      ("minResTime", match smallest_time entries with
                     | Some m => NFloat (round2 m)
                     | None => NInt 0
                     end);
      ("maxResTime", NFloat (round2 (largest_time entries)));
      ("pct1ResTime", pct_90);
      ("pct2ResTime", pct_95);
      ("pct3ResTime", pct_99);
      ("throughput", NFloat (round2 (Qred (n / Qred (largest_time entries / 1000)))));
      ("receivedBytes", NFloat (round2 (total_received entries)));
      ("sentBytes", NFloat (round2 (total_sent entries))) ]
    None.





(** ** Vocabulary of the error table *)

(** A record that belongs in the error table: an HTTP-verb-prefixed label
    with a positive error count. *)
Definition has_errors (item : string * RawStatEntry) : bool :=
  andb (is_http_endpoint (fst item)) (failures_of (snd item) >? 0).

(** The description joined onto a label: the one recorded for it, or the
    sentinel when none is recorded or the recorded one is the empty string. *)
Definition description (error_info : error_info_t) (label : string) : cell :=
  match dict_get label error_info with
  | None => CStr "Unknown Error"
  | Some (JStr "") => CStr "Unknown Error"
  | Some v => cell_of_jvalue v
  end.

Definition ERROR_COLUMNS : list string :=
  ["Endpoint"; "Request #"; "Error #"; "Error"; "Error %"].

Definition expected_error_row (error_info : error_info_t) (item : string * RawStatEntry)
  : list cell :=
  [ CStr (fst item);
    CInt (samples_of (snd item));
    CInt (failures_of (snd item));
    description error_info (fst item);
    CFloat (round2 (py_float (attr "errorPct" (NInt 0) (snd item)))) ].

Definition expected_errors (error_info : error_info_t) (stats_data : StatsData)
  : option DataFrame :=
  match filter has_errors stats_data with
  | [] => None
  | items => Some (mkDataFrame ERROR_COLUMNS (map (expected_error_row error_info) items))
  end.

(** What one record of the secondary table contributes: its label and its
    first error description, when it lists at least five fields, a string
    label and a positive error count. *)
Definition described (item : top5_item) : option (string * jvalue) :=
  match item with
  | Some (JStr label :: _ :: count :: error_text :: _ :: _) =>
      match int_of_jvalue count with
      | Ok c => if c >? 0 then Some (label, error_text) else None
      | Raise _ => None
      end
  | _ => None
  end.

(** A record whose error count, if it is read, converts to an integer. *)
Definition readable (item : top5_item) : Prop :=
  match item with
  | Some (_ :: _ :: count :: _ :: _ :: _) => exists c, int_of_jvalue count = Ok c
  | _ => True
  end.

(** The join table of a list of records: a later record of a label
    replaces an earlier one. *)
Definition joined (items : list top5_item) (error_info : error_info_t) : error_info_t :=
  fold_left (fun acc item => match described item with
                             | Some (label, text) => dict_set label text acc
                             | None => acc
                             end)
            items error_info.

(** ** Vocabulary of the round trip *)






(** The value of a metric in an aggregate table. *)
Definition metric_cell (metric : string) (df : DataFrame) : option cell :=
  match find (fun r => cell_eqb (cell_at 0 r) (CStr metric)) (df_rows df) with
  | Some r => Some (cell_at 1 r)
  | None => None
  end.




(** An error table with the columns that [compare_errors] reads. *)
Definition counted_table (endpoint error : string) (count total : Z) : DataFrame :=
  mkDataFrame ["Endpoint"; "Error"; "Count"; "Total"]
    [[CStr endpoint; CStr error; CInt count; CInt total]].

(** ** Vocabulary of the endpoint table *)

(** What one attribute of a record contributes to a row: the label itself
    for ['Label'], a count as an integer, any other attribute rounded to
    two decimals, nothing when the record lacks the attribute. *)
Definition source_cell (label : string) (data : RawStatEntry) (old_col : string)
  : option cell :=
  if String.eqb old_col "Label" then Some (CStr label)
  else
    match dict_get old_col (attrs data) with
    | Some value =>
        Some (if mem_string old_col ["sampleCount"; "errorCount"]
              then CInt (py_int value)
              else CFloat (round2 (py_float value)))
    | None => None
    end.

Definition count_cell (k : string) (data : RawStatEntry) : cell :=
  match dict_get k (attrs data) with
  | Some value => CInt (py_int value)
  | None => CNaN
  end.

Definition rounded_cell (k : string) (data : RawStatEntry) : cell :=
  match dict_get k (attrs data) with
  | Some value => CFloat (round2 (py_float value))
  | None => CNaN
  end.

(** The row of the endpoint table for one record of the payload, cell by
    cell in the order of [COLUMN_ORDER]. *)
Definition expected_endpoint_row (item : string * RawStatEntry) : list cell :=
  let data := snd item in
  [ CStr (fst item);
    count_cell "sampleCount" data;
    count_cell "errorCount" data;
    rounded_cell "errorPct" data;
    rounded_cell "meanResTime" data;
    rounded_cell "minResTime" data;
    rounded_cell "maxResTime" data;
    rounded_cell "medianResTime" data;
    rounded_cell "pct1ResTime" data;
    rounded_cell "pct2ResTime" data;
    rounded_cell "pct3ResTime" data;
    rounded_cell "throughput" data;
    rounded_cell "receivedKBytesPerSec" data;
    rounded_cell "sentKBytesPerSec" data ].


(** The aggregate table of a payload that has its ['Total'] record. *)
Definition aggregate_of_payload (stats_data : StatsData) : option DataFrame :=
  match dict_get "Total" stats_data with
  | Some total_stats =>
      if truthy total_stats then Some (aggregate_metrics total_stats) else None
  | None => None
  end.

(** The metrics of the aggregate table, each with the column of the
    endpoint table that holds the same attribute. *)
Definition metric_columns : list (string * string) :=
  [ ("Average Response Time (ms)", "Average");
    ("Median Response Time (ms)", "Median");
    ("Min Response Time (ms)", "Min");
    ("Max Response Time (ms)", "Max");
    ("Throughput (req/sec)", "Transactions/s");
    ("Error %", "Error %");
    ("90th Percentile (ms)", "90th pct");
    ("95th Percentile (ms)", "95th pct");
    ("99th Percentile (ms)", "99th pct") ].

(** The cell of a row under a column of the endpoint table. *)
Definition endpoint_cell (column_name : string) (row : list cell) : cell :=
  match index_of column_name COLUMN_ORDER with
  | Some i => cell_at i row
  | None => CNaN
  end.

(** The cell of a row under a column of the error table. *)
Definition error_cell (column_name : string) (row : list cell) : cell :=
  match index_of column_name ERROR_COLUMNS with
  | Some i => cell_at i row
  | None => CNaN
  end.

(** ** Vocabulary of the secondary table *)

(** A value that [int] rejects whatever it holds: [None], or a string of
    ASCII characters none of which is a digit. *)
Definition never_an_integer (v : jvalue) : Prop :=
  v = JNull \/
  exists s, v = JStr s /\
            forallb (fun c => match digit_of c with
                              | Some _ => false
                              | None => Nat.ltb (nat_of_ascii c) 128
                              end)
                    (list_ascii_of_string s) = true.

(** ** Vocabulary of the sorting *)

(** The label of a row whose cell in column [i] is a string. *)
Definition label_at (i : nat) (row : list cell) : string :=
  match cell_at i row with
  | CStr s => s
  | _ => ""
  end.


(** ** Vocabulary of the estimated percentiles *)

(** The value a record of the payload reports under an attribute, 0 when it
    has none. *)
Definition reported (k : string) (item : string * RawStatEntry) : Q :=
  py_float (attr k (NInt 0) (snd item)).

(** [m] is the largest value that the records of the payload report under
    [k], the records labelled as aggregate included. *)
Definition is_largest_reported (k : string) (stats_data : StatsData) (m : Q) : Prop :=
  (forall item, In item stats_data -> (reported k item <= m)%Q) /\
  (exists item, In item stats_data /\ m = reported k item).

(** ** Vocabulary of the error comparison *)


(** The columns of a non-empty error comparison. *)
Definition ERROR_COMPARISON_COLUMNS : list string :=
  [ "Endpoint"; "Error Description"; "Report 1 Count"; "Report 1 %";
    "Report 2 Count"; "Report 2 %"; "Count Difference"; "% Difference" ].

(** ** Vocabulary of the endpoint comparison *)

(** The name of the column of one metric for one report. *)
Definition comparison_column (metric_display name : string) : string :=
  (metric_display ++ " (" ++ name ++ ")")%string.

(** The columns after [Endpoint]: for each metric in turn, one per report. *)
Definition comparison_columns (report_names : list string) : list string :=
  flat_map (fun metric => map (comparison_column (snd metric)) report_names) metrics.

(** The texts of the row of one label: for each metric in turn, one per
    report; the first text that cannot be written raises. *)
Definition comparison_texts (label : cell) (tables : list DataFrame)
  : result (list string) :=
  map_result (fun mt => metric_text label (fst (fst mt)) (snd mt))
             (list_prod metrics tables).

(** The comparison of the tables for the labels, row by row. *)
Definition expected_endpoint_comparison (tables : list DataFrame)
  (report_names : list string) (labels : list cell) : result DataFrame :=
  rows <- map_result
            (fun label =>
               texts <- comparison_texts label tables ;;
               Ok (label :: map CStr texts))
            labels ;;
  Ok (mkDataFrame ("Endpoint" :: comparison_columns report_names) rows).

(** The text of a cell under a metric: an integer for [#Samples], two
    decimals otherwise. *)
Definition format_metric (metric_key : string) (v : cell) : result string :=
  if String.eqb metric_key "#Samples" then format_int_cell v else format_float_cell v.

(** The first row of a frame that carries [label] in column [i]. *)
Definition first_row_of (label : cell) (i : nat) (df : DataFrame) : option (list cell) :=
  find (fun r => cell_eqb (cell_at i r) label) (df_rows df).

(** An endpoint table as the parser builds it: the canonical columns and
    at least one row, each row that of a record. *)
Definition endpoint_table (df : DataFrame) : Prop :=
  df_columns df = COLUMN_ORDER /\
  df_rows df <> [] /\
  Forall (fun row => exists item, row = expected_endpoint_row item) (df_rows df).

(** A report whose explicit ['Total'] carries a mean and nothing else. *)
Definition partial_total_report : StatsData :=
  [ ("Total", mkEntry [("meanResTime", NFloat 20)] None);
    ("GET /a", jmeter_entry 100 5 5 20 18 10 400) ].

Definition partial_world : World :=
  world_of [("/reports/r9/statistics.json", partial_total_report)] [].

(** The endpoint table of the report of [partial_world]. *)
Definition partial_endpoints : DataFrame :=
  match parse_jmeter_tables partial_world "/reports/r9/index.html" with
  | Ok t => match endpoint_stats t with Some df => df | None => empty_frame end
  | Raise _ => empty_frame
  end.

(** ** app.py: the coloured column groups of the comparison sheets *)

Module app.

(** The loop of [create_comparison_excel] and of
    [create_excel_with_multiple_comparison_sheets]:
    [i = 1; while i < len(columns): metric_group_indices.append(
       list(range(i, min(i + n_reports, len(columns))))); i += n_reports].
    The loop need not end, so it runs on fuel: [None] is a loop that is
    still running when the fuel is spent. *)
Fixpoint metric_group_loop (fuel n_columns n_reports i : nat)
  (metric_group_indices : list (list nat)) : option (list (list nat)) :=
  match fuel with
  | O => None
  | S fuel' =>
      if (i <? n_columns)%nat then
        metric_group_loop fuel' n_columns n_reports (i + n_reports)
          (metric_group_indices
             ++ [seq i (Nat.min (i + n_reports) n_columns - i)])
      else Some metric_group_indices
  end.

Definition metric_group_indices (fuel n_columns n_reports : nat)
  : option (list (list nat)) :=
  metric_group_loop fuel n_columns n_reports 1 [].

(** [for idx, group in enumerate(metric_group_indices): for col in group:]
    the cells of column [col] are filled with the colour number
    [idx % n_colours] of the palette (two colours in
    [create_excel_with_multiple_comparison_sheets]).  The result lists the
    filled columns with their colour numbers, in the order of the loop. *)
Definition group_fills (n_colours : nat) (groups : list (list nat)) : list (nat * nat) :=
  flat_map (fun ig => map (fun col => (col, (fst ig mod n_colours)%nat)) (snd ig))
           (combine (seq 0 (length groups)) groups).

(** [main], line 147:
    [any(df is not None and not df.empty for df in tables.values())]; when
    it is false the application warns that the report holds no data and
    offers no download. *)
Definition has_valid_tables (tables : ReportTableSet) : bool :=
  existsb (fun df => negb (none_or_empty df))
          [endpoint_stats tables; aggregate_summary tables; errors tables].

End app.


(** * Properties *)


(** ** The embedding on small inputs *)

Example statistics_path_of_index :
  statistics_path "/reports/r1/index.html" = "/reports/r1/statistics.json".
Proof. reflexivity. Qed.

Example statistics_path_of_payload :
  statistics_path "/reports/r1/statistics.json" = "/reports/r1/statistics.json".
Proof. reflexivity. Qed.

Example dirname_examples :
  dirname "/a/b/index.html" = "/a/b" /\ dirname "index.html" = "" /\
  dirname "/index.html" = "/" /\ dirname "a//b" = "a".
Proof. repeat split; reflexivity. Qed.

Example round2_examples :
  round2 (1 # 3) = (33 # 100)%Q /\ round2 (1 # 8) = (3 # 25)%Q /\
  round2 (3 # 8) = (19 # 50)%Q /\ round2 (-1 # 3) = (-33 # 100)%Q.
Proof. repeat split; reflexivity. Qed.

Example format_2f_examples :
  format_2f 5 = "5.00" /\ format_2f (15 # 2) = "7.50" /\
  format_2f (1 # 20) = "0.05" /\ format_2f (-5) = "-5.00".
Proof. repeat split; reflexivity. Qed.

Example is_http_endpoint_examples :
  is_http_endpoint "GET /a" = true /\ is_http_endpoint "DELETE /a" = true /\
  is_http_endpoint "GET" = false /\ is_http_endpoint "get /a" = false /\
  is_http_endpoint "Total" = false /\ is_http_endpoint "login" = false.
Proof. repeat split; reflexivity. Qed.

Example parsed_report1 :
  parse_jmeter_tables sample_world "/reports/r1/index.html"
  = Ok (mkTables
          (Some (mkDataFrame COLUMN_ORDER
                   [ [CStr "Total"; CInt 100; CInt 5; CFloat 5; CFloat 20; CFloat 10;
                      CFloat 400; CFloat 18; CFloat 400; CFloat 400; CFloat 400;
                      CFloat 2; CFloat 1; CFloat 1];
                     [CStr "GET /a"; CInt 100; CInt 5; CFloat 5; CFloat 20; CFloat 10;
                      CFloat 400; CFloat 18; CFloat 400; CFloat 400; CFloat 400;
                      CFloat 2; CFloat 1; CFloat 1] ]))
          (Some (aggregate_metrics (jmeter_entry 100 5 5 20 18 10 400)))
          (Some (mkDataFrame ERROR_COLUMNS
                   [[CStr "GET /a"; CInt 100; CInt 5; CStr "Timeout"; CFloat 5]]))).
Proof. vm_compute. reflexivity. Qed.

(** The endpoint comparison of the specification's example: two reports
    with [GET /a], 10 against 20 samples and 5.0 against 7.5 on average. *)
Example compare_endpoints_example :
  let table (samples : Z) (average : Q) :=
    mkDataFrame ["Label"; "#Samples"; "Average"]
                [[CStr "GET /a"; CInt samples; CFloat average]] in
  exists out,
    compare_endpoint_stats [Some (table 10 5%Q); Some (table 20 (15 # 2)%Q)] ["v1"; "v2"]
    = Ok out /\
    df_rows out
    = [[CStr "GET /a"; CStr "10"; CStr "20"; CStr "5.00"; CStr "7.50";
        CStr ""; CStr ""; CStr ""; CStr ""; CStr ""; CStr ""; CStr ""; CStr "";
        CStr ""; CStr ""; CStr ""; CStr ""]] /\
    firstn 5 (df_columns out)
    = ["Endpoint"; "#Samples (v1)"; "#Samples (v2)";
       "Average Response Time (ms) (v1)"; "Average Response Time (ms) (v2)"].
Proof. intros table. eexists. repeat split; vm_compute; reflexivity. Qed.

(** ** Missing statistics payload *)

(** C1, as amended: when no statistics payload exists at the located path,
    [parse_jmeter_tables] does not raise; it returns the table set in which
    all three tables are absent. *)
Theorem parse_without_statistics_returns_no_tables :
  forall (w : World) (report_path : string),
    statistics_json w (statistics_path report_path) = None ->
    parse_jmeter_tables w report_path = Ok no_tables.
Proof.
  intros w report_path Habsent.
  unfold parse_jmeter_tables.
  now rewrite Habsent.
Qed.

Lemma parse_without_statistics_witness :
  statistics_json sample_world (statistics_path "/reports/r4/index.html") = None /\
  parse_jmeter_tables sample_world "/reports/r4/index.html" = Ok no_tables.
Proof.
  split.
  - reflexivity.
  - apply (parse_without_statistics_returns_no_tables sample_world "/reports/r4/index.html").
    reflexivity.
Defined.

(** C1 fails as stated: a report directory without [statistics.json] is
    parsed without any exception. *)
Lemma missing_statistics_is_not_raised :
  statistics_json sample_world (statistics_path "/reports/r4/index.html") = None /\
  ~ raises (parse_jmeter_tables sample_world "/reports/r4/index.html").
Proof.
  split.
  - reflexivity.
  - intros [e He]. vm_compute in He. discriminate He.
Qed.

(** ** Mismatched comparison inputs *)

Lemma empty_frame_is_empty : df_empty empty_frame = true.
Proof. reflexivity. Qed.

(** C9: with no tables, no names, or different numbers of tables and names,
    both N-way comparisons return the empty frame and raise nothing. *)
Theorem mismatched_inputs_give_empty_comparison :
  forall (dfs : list (option DataFrame)) (report_names : list string),
    length dfs <> length report_names \/ dfs = [] \/ report_names = [] ->
    compare_endpoint_stats dfs report_names = Ok empty_frame /\
    compare_aggregate_stats dfs report_names = Ok empty_frame.
Proof.
  intros dfs report_names H.
  unfold compare_endpoint_stats, compare_aggregate_stats.
  destruct dfs as [|df dfs]; [now split|].
  destruct report_names as [|name report_names]; [now split|].
  destruct H as [H | [H | H]]; try discriminate H.
  apply Nat.eqb_neq in H.
  cbn [is_nil orb].
  replace (Nat.eqb (length (df :: dfs)) 0) with false by reflexivity.
  rewrite H. now split.
Qed.

Lemma three_tables_two_names_witness :
  let t := errors_of "/reports/r1/index.html" in
  compare_endpoint_stats [t; t; t] ["v1"; "v2"] = Ok empty_frame /\
  compare_aggregate_stats [t; t; t] ["v1"; "v2"] = Ok empty_frame.
Proof.
  intro t.
  apply (mismatched_inputs_give_empty_comparison [t; t; t] ["v1"; "v2"]).
  left. simpl. lia.
Defined.

(** ** Canonical columns *)

(** C3 fails on the code: the payload [counts_only], whose records carry the
    two counts and no other attribute, makes the parse raise [KeyError] at
    the reordering [stats_df[COLUMN_ORDER]] instead of producing a table
    with blank cells. *)
Theorem parse_counts_only_raises :
  statistics_json sample_world (statistics_path "/reports/r3/index.html")
    = Some (Some counts_only) /\
  parse_jmeter_tables sample_world "/reports/r3/index.html"
    = Raise (KeyError "Error %").
Proof. split; vm_compute; reflexivity. Qed.

(** ** Error comparison *)

(** C2 fails on the code: the error tables the parser builds have the
    columns [Request #] and [Error #], not the [Total] and [Count] that
    [compare_errors] reads, and the frame that stands for a report without
    the endpoint has no [Error] column.  For report 1 with
    ("GET /a", "Timeout", 5 of 100) and report 2 without "GET /a" the
    comparison is the empty frame: no row for ("GET /a", "Timeout"). *)
Theorem compare_errors_of_parsed_reports_is_empty :
  errors_of "/reports/r1/index.html"
    = Some (mkDataFrame ["Endpoint"; "Request #"; "Error #"; "Error"; "Error %"]
              [[CStr "GET /a"; CInt 100; CInt 5; CStr "Timeout"; CFloat 5]]) /\
  errors_of "/reports/r2/index.html"
    = Some (mkDataFrame ["Endpoint"; "Request #"; "Error #"; "Error"; "Error %"]
              [[CStr "GET /b"; CInt 50; CInt 2; CStr "Unknown Error"; CFloat 4]]) /\
  compare_errors (errors_of "/reports/r1/index.html") (errors_of "/reports/r2/index.html")
    = Ok empty_frame.
Proof. repeat split; vm_compute; reflexivity. Qed.

(** ** Dictionaries and frames *)

Lemma mem_string_In : forall s l, mem_string s l = true <-> In s l.
Proof.
  intros s l. unfold mem_string. rewrite existsb_exists. split.
  - intros [x [Hin Heq]]. apply String.eqb_eq in Heq. now subst.
  - intros Hin. exists s. split; [assumption | apply String.eqb_refl].
Qed.

Lemma mem_string_false : forall s l, mem_string s l = false <-> ~ In s l.
Proof.
  intros s l. rewrite <- mem_string_In. now destruct (mem_string s l).
Qed.

Lemma dict_get_None {V : Type} : forall k (d : list (string * V)),
  dict_get k d = None <-> ~ In k (dict_keys d).
Proof.
  intros k d. induction d as [|[k' v] d IH]; simpl.
  - tauto.
  - destruct (String.eqb k k') eqn:E.
    + apply String.eqb_eq in E. subst. split; [discriminate | intros H; exfalso; apply H; now left].
    + apply String.eqb_neq in E. rewrite IH. unfold dict_keys. split.
      * intros H [H1 | H1]; [congruence | contradiction].
      * intros H H1. apply H. now right.
Qed.

Lemma dict_set_fresh {V : Type} : forall k (v : V) d,
  ~ In k (dict_keys d) -> dict_set k v d = d ++ [(k, v)].
Proof.
  intros k v d. induction d as [|[k' v'] d IH]; simpl; intros H.
  - reflexivity.
  - destruct (String.eqb k k') eqn:E.
    + apply String.eqb_eq in E. exfalso. apply H. now left.
    + f_equal. apply IH. intros H1. apply H. now right.
Qed.

Lemma add_keys_seen : forall (r : record) seen,
  (forall k, In k (dict_keys r) -> In k seen) -> add_keys seen r = seen.
Proof.
  intros r. unfold add_keys. induction r as [|[k v] r IH]; simpl; intros seen H.
  - reflexivity.
  - assert (Hk : mem_string k seen = true) by (apply mem_string_In; apply H; now left).
    rewrite Hk. apply IH. intros k' Hk'. apply H. now right.
Qed.

Lemma add_keys_fresh : forall (r : record) seen,
  NoDup (seen ++ dict_keys r) -> add_keys seen r = seen ++ dict_keys r.
Proof.
  intros r. unfold add_keys. induction r as [|[k v] r IH]; simpl; intros seen H.
  - now rewrite app_nil_r.
  - assert (Hk : mem_string k seen = false).
    { apply mem_string_false. intros Hin. apply NoDup_remove_2 in H.
      apply H. apply in_or_app. now left. }
    rewrite Hk. rewrite IH.
    + now rewrite <- app_assoc.
    + rewrite <- app_assoc. exact H.
Qed.

Lemma align_own_keys : forall (r : record),
  NoDup (dict_keys r) -> align (dict_keys r) r = map snd r.
Proof.
  intros r. unfold align. induction r as [|[k v] r IH]; simpl; intros H.
  - reflexivity.
  - rewrite String.eqb_refl. f_equal. inversion H as [|? ? Hk Hr]; subst.
    rewrite <- IH by assumption.
    apply map_ext_in. intros c Hc. simpl.
    destruct (String.eqb c k) eqn:E; [|reflexivity].
    apply String.eqb_eq in E. subst. contradiction.
Qed.

Lemma union_keys_uniform : forall (K : list string) (recs : list record) seen,
  (forall r, In r recs -> dict_keys r = K) ->
  (forall k, In k K -> In k seen) ->
  fold_left add_keys recs seen = seen.
Proof.
  intros K recs. induction recs as [|r recs IH]; simpl; intros seen HK Hseen.
  - reflexivity.
  - rewrite add_keys_seen.
    + apply IH; [intros; apply HK; now right | assumption].
    + intros k Hk. apply Hseen. rewrite <- (HK r) by now left. exact Hk.
Qed.

Lemma from_records_uniform : forall (K : list string) (r : record) (recs : list record),
  NoDup K ->
  (forall r', In r' (r :: recs) -> dict_keys r' = K) ->
  from_records (r :: recs) = mkDataFrame K (map (map snd) (r :: recs)).
Proof.
  intros K r recs HK Hall.
  unfold from_records, union_keys.
  assert (Hcols : fold_left add_keys (r :: recs) [] = K).
  { simpl. rewrite (add_keys_fresh r []).
    - simpl. rewrite (Hall r) by now left.
      apply (union_keys_uniform K); [intros; apply Hall; now right | tauto].
    - simpl. rewrite (Hall r) by now left. exact HK. }
  rewrite Hcols. f_equal.
  apply map_ext_in. intros r' Hr'.
  rewrite <- (Hall r' Hr'). apply align_own_keys. rewrite (Hall r' Hr'). exact HK.
Qed.

Lemma map_result_length {A B : Type} : forall (f : A -> result B) xs ys,
  map_result f xs = Ok ys -> length ys = length xs.
Proof.
  intros f xs. induction xs as [|x xs IH]; simpl; intros ys H.
  - now inversion H.
  - destruct (f x); [|discriminate]. destruct (map_result f xs); [|discriminate].
    inversion H; subst. simpl. f_equal. now apply IH.
Qed.

Lemma map_result_Forall2 {A B : Type} : forall (f : A -> result B) xs ys,
  map_result f xs = Ok ys <-> Forall2 (fun x y => f x = Ok y) xs ys.
Proof.
  intros f xs. induction xs as [|x xs IH]; simpl; intros ys.
  - split; intros H; [inversion H; constructor | now inversion H].
  - split.
    + destruct (f x) eqn:Ex; [|discriminate].
      destruct (map_result f xs) eqn:Exs; [|discriminate].
      intros H; inversion H; subst. constructor; [assumption | now apply IH].
    + intros H; inversion H as [|? y ? ys' Hy Hrest]; subst.
      rewrite Hy. apply IH in Hrest. now rewrite Hrest.
Qed.

Lemma fill_row_spec : forall metric pairs row row',
  fill_row metric row pairs = Ok row' ->
  NoDup (dict_keys row ++ map snd pairs) ->
  exists texts,
    map_result (expected_text metric) (map fst pairs) = Ok texts /\
    row' = row ++ combine (map snd pairs) (map CStr texts).
Proof.
  intros metric pairs. induction pairs as [|[m name] pairs IH]; simpl; intros row row' H Hnd.
  - inversion H; subst. exists []. split; [reflexivity | now rewrite app_nil_r].
  - fold (expected_text metric m) in H.
    destruct (expected_text metric m) as [text|] eqn:Et; simpl in H; [|discriminate].
    rewrite dict_set_fresh in H.
    2:{ intros Hin. apply NoDup_remove_2 in Hnd. apply Hnd. apply in_or_app. now left. }
    apply IH in H.
    + destruct H as [texts [Hts Hrow]]. exists (text :: texts). rewrite Hts. split; [reflexivity|].
      rewrite Hrow. rewrite <- app_assoc. reflexivity.
    + unfold dict_keys in *. rewrite map_app, <- app_assoc. simpl. exact Hnd.
Qed.

Lemma fill_row_total : forall metric pairs row texts,
  map_result (expected_text metric) (map fst pairs) = Ok texts ->
  NoDup (dict_keys row ++ map snd pairs) ->
  fill_row metric row pairs = Ok (row ++ combine (map snd pairs) (map CStr texts)).
Proof.
  intros metric pairs. induction pairs as [|[m name] pairs IH]; simpl; intros row texts H Hnd.
  - inversion H; subst. now rewrite app_nil_r.
  - fold (expected_text metric m).
    destruct (expected_text metric m) as [text|] eqn:Et; [|discriminate].
    destruct (map_result (expected_text metric) (map fst pairs)) as [ts|] eqn:Ets; [|discriminate].
    inversion H; subst. simpl.
    rewrite dict_set_fresh.
    2:{ intros Hin. apply NoDup_remove_2 in Hnd. apply Hnd. apply in_or_app. now left. }
    rewrite (IH _ ts eq_refl).
    + now rewrite <- app_assoc.
    + unfold dict_keys in *. rewrite map_app, <- app_assoc. simpl. exact Hnd.
Qed.

Lemma dict_set_float_valued : forall k q m,
  float_valued m -> float_valued (dict_set k (CFloat q) m).
Proof.
  intros k q m. unfold float_valued. induction m as [|[k' v'] m IH]; simpl; intros H.
  - constructor; [now exists q | constructor].
  - inversion H; subst. destruct (String.eqb k k').
    + constructor; [now exists q | assumption].
    + constructor; [assumption | now apply IH].
Qed.

Lemma dict_get_float_valued : forall k m v,
  float_valued m -> dict_get k m = Some v -> exists q, v = CFloat q.
Proof.
  intros k m v. unfold float_valued. induction m as [|[k' v'] m IH]; simpl; intros H Hg.
  - discriminate.
  - inversion H; subst. destruct (String.eqb k k').
    + inversion Hg; subst. assumption.
    + now apply IH.
Qed.

Lemma metric_map_aggregate : forall df,
  aggregate_table df -> exists m, metric_map df = Ok m /\ float_valued m.
Proof.
  intros [cols rows] [Hcols [_ Hrows]]. simpl in *. subst cols.
  unfold metric_map, column. simpl.
  assert (Hfold : forall acc, float_valued acc ->
            float_valued
              (fold_left (fun m kv => match fst kv with
                                      | CStr k => dict_set k (snd kv) m
                                      | _ => m
                                      end)
                         (combine (map (cell_at 0) rows) (map (cell_at 1) rows)) acc)).
  { induction Hrows as [|r rows [m [q Hr]] _ IH]; simpl; intros acc Hacc.
    - exact Hacc.
    - subst r. simpl. apply IH. now apply dict_set_float_valued. }
  eexists. split; [reflexivity|]. apply Hfold. constructor.
Qed.

Lemma expected_text_float_valued : forall metric m,
  float_valued m -> exists text, expected_text metric m = Ok text.
Proof.
  intros metric m Hm. unfold expected_text.
  destruct (dict_get metric m) as [v|] eqn:E.
  - destruct (dict_get_float_valued _ _ _ Hm E) as [q ->]. simpl. eauto.
  - eauto.
Qed.

Lemma map_result_total {A B : Type} : forall (f : A -> result B) xs,
  Forall (fun x => exists y, f x = Ok y) xs -> exists ys, map_result f xs = Ok ys.
Proof.
  intros f xs H. induction H as [|x xs [y Hy] _ [ys IH]]; simpl.
  - eauto.
  - rewrite Hy, IH. eauto.
Qed.

Lemma aggregate_table_not_empty : forall df, aggregate_table df -> df_empty df = false.
Proof.
  intros [cols rows] [Hcols [Hne _]]. simpl in *. subst.
  unfold df_empty. simpl. now destruct rows.
Qed.

Lemma frames_all_present : forall fs, frames (map Some fs) = fs.
Proof.
  induction fs as [|f fs IH]; simpl; [reflexivity | now rewrite IH].
Qed.

Lemma combine_fst {A B : Type} : forall (l : list A) (l' : list B),
  length l = length l' -> map fst (combine l l') = l.
Proof.
  induction l as [|a l IH]; destruct l' as [|b l']; simpl; intros H; try discriminate.
  - reflexivity.
  - f_equal. apply IH. now inversion H.
Qed.

Lemma combine_snd {A B : Type} : forall (l : list A) (l' : list B),
  length l = length l' -> map snd (combine l l') = l'.
Proof.
  induction l as [|a l IH]; destruct l' as [|b l']; simpl; intros H; try discriminate.
  - reflexivity.
  - f_equal. apply IH. now inversion H.
Qed.

Lemma Forall2_in_right {A B : Type} : forall (R : A -> B -> Prop) xs ys y,
  Forall2 R xs ys -> In y ys -> exists x, In x xs /\ R x y.
Proof.
  intros R xs ys y H. induction H as [|x y' xs ys Hxy _ IH]; simpl; intros Hin.
  - contradiction.
  - destruct Hin as [-> | Hin].
    + exists x. split; [now left | assumption].
    + destruct (IH Hin) as [x' [Hx' HR]]. exists x'. split; [now right | assumption].
Qed.

(** ** Aggregate comparison *)

(** C7, as amended: for aggregate tables, one per report name, with distinct
    report names other than [Metric], [compare_aggregate_stats] returns a
    frame whose columns are [Metric] and then the report names, whose rows
    are the nine metrics in the order Average, Error %, Throughput, Min,
    Max, Median, 90th, 95th, 99th percentile, and whose cell for a report
    is the report's value with two decimals, blank when the report has no
    such metric. *)
Theorem compare_aggregate_rows :
  forall (tables : list DataFrame) (report_names : list string),
    tables <> [] ->
    length tables = length report_names ->
    Forall aggregate_table tables ->
    NoDup ("Metric" :: report_names) ->
    exists maps out,
      map_result metric_map tables = Ok maps /\
      compare_aggregate_stats (map Some tables) report_names = Ok out /\
      df_columns out = "Metric" :: report_names /\
      column "Metric" out = Ok (map CStr metric_order) /\
      Forall2 (fun metric row =>
                 exists texts,
                   map_result (expected_text metric) maps = Ok texts /\
                   row = CStr metric :: map CStr texts)
              metric_order (df_rows out).
Proof.
  intros tables report_names Hne Hlen Htabs Hnd.
  assert (Hmaps : exists maps, map_result metric_map tables = Ok maps /\ Forall float_valued maps).
  { clear Hne Hlen. induction Htabs as [|df tables Hdf _ IH]; simpl.
    - exists []. split; [reflexivity | constructor].
    - destruct (metric_map_aggregate df Hdf) as [m [Hm Hfv]].
      destruct IH as [maps [Hmaps Hall]].
      rewrite Hm, Hmaps. exists (m :: maps). split; [reflexivity | now constructor]. }
  destruct Hmaps as [maps [Hmaps Hfv]].
  assert (Hlm : length maps = length report_names).
  { rewrite (map_result_length _ _ _ Hmaps). exact Hlen. }
  assert (Htexts : forall metric, exists texts,
             map_result (expected_text metric) maps = Ok texts).
  { intros metric. apply map_result_total.
    eapply Forall_impl; [|exact Hfv]. intros m Hm. now apply expected_text_float_valued. }
  assert (Hrow : forall metric, exists texts,
             map_result (expected_text metric) maps = Ok texts /\
             fill_row metric [("Metric", CStr metric)] (combine maps report_names)
             = Ok (("Metric", CStr metric) :: combine report_names (map CStr texts))).
  { intros metric. destruct (Htexts metric) as [texts Ht]. exists texts. split; [exact Ht|].
    rewrite (fill_row_total metric (combine maps report_names) _ texts).
    - rewrite combine_snd by exact Hlm. reflexivity.
    - rewrite combine_fst by exact Hlm. exact Ht.
    - rewrite combine_snd by exact Hlm. exact Hnd. }
  exists maps.
  unfold compare_aggregate_stats.
  destruct tables as [|df tables]; [contradiction|].
  destruct report_names as [|name report_names]; [discriminate|].
  replace (Nat.eqb (length (map Some (df :: tables))) 0) with false by reflexivity.
  rewrite length_map, Hlen, Nat.eqb_refl. cbn [is_nil orb negb].
  assert (Hguard : existsb none_or_empty (map Some (df :: tables)) = false).
  { clear - Htabs. induction Htabs as [|d ds Hd _ IH]; simpl; [reflexivity|].
    now rewrite (aggregate_table_not_empty d Hd), IH. }
  rewrite Hguard, frames_all_present, Hmaps. cbn [bind].
  set (names := name :: report_names) in *.
  assert (Hrows : forall ms, exists rows,
            map_result (fun metric => fill_row metric [("Metric", CStr metric)] (combine maps names)) ms
              = Ok rows /\
            Forall2 (fun metric r => exists texts,
                       map_result (expected_text metric) maps = Ok texts /\
                       r = ("Metric", CStr metric) :: combine names (map CStr texts))
                    ms rows).
  { induction ms as [|metric ms [rows [IHr IHf]]]; simpl.
    - exists []. split; [reflexivity | constructor].
    - destruct (Hrow metric) as [texts [Ht Hf]]. rewrite Hf, IHr.
      eexists. split; [reflexivity|]. constructor; [|exact IHf]. now exists texts. }
  destruct (Hrows metric_order) as [rows [Hr Hf]]. rewrite Hr.
  assert (Hkeys : forall r, In r rows -> dict_keys r = "Metric" :: names).
  { intros r Hin. destruct (Forall2_in_right _ _ _ _ Hf Hin) as [metric [_ [texts [Ht Hreq]]]]. subst r.
    unfold dict_keys. cbn [map fst]. f_equal. apply combine_fst.
    rewrite length_map, (map_result_length _ _ _ Ht). now symmetry. }
  destruct rows as [|r rows]; [inversion Hf|].
  exists (from_records (r :: rows)). split; [reflexivity|]. split; [reflexivity|].
  rewrite (from_records_uniform ("Metric" :: names) r rows Hnd Hkeys).
  split; [reflexivity|]. unfold column. cbn [df_columns df_rows index_of].
  rewrite String.eqb_refl.
  assert (Hcells : Forall2 (fun metric row => exists texts,
                      map_result (expected_text metric) maps = Ok texts /\
                      row = CStr metric :: map CStr texts)
                    metric_order (map (map snd) (r :: rows))).
  { clear - Hf Hlm. induction Hf as [|metric r0 ms rs [texts [Ht Hreq]] _ IH]; simpl.
    - constructor.
    - constructor; [|exact IH]. exists texts. split; [exact Ht|]. subst r0. cbn [map snd]. f_equal.
      apply combine_snd. rewrite length_map, (map_result_length _ _ _ Ht). now symmetry. }
  split; [|exact Hcells].
  f_equal. clear - Hcells.
  induction Hcells as [|metric row ms rs [texts [_ Hreq]] _ IH]; simpl.
  - reflexivity.
  - subst row. f_equal. exact IH.
Qed.

Lemma compare_aggregate_rows_witness :
  let t1 := aggregate_metrics (jmeter_entry 100 5 5 20 18 10 400) in
  let t2 := mkDataFrame ["Metric"; "Value"] [[CStr "Error %"; CFloat 4]] in
  exists maps out,
    map_result metric_map [t1; t2] = Ok maps /\
    compare_aggregate_stats (map Some [t1; t2]) ["v1"; "v2"] = Ok out /\
    df_columns out = ["Metric"; "v1"; "v2"] /\
    column "Metric" out = Ok (map CStr metric_order) /\
    Forall2 (fun metric row =>
               exists texts,
                 map_result (expected_text metric) maps = Ok texts /\
                 row = CStr metric :: map CStr texts)
            metric_order (df_rows out).
Proof.
  intros t1 t2.
  apply (compare_aggregate_rows [t1; t2] ["v1"; "v2"]).
  - discriminate.
  - reflexivity.
  - constructor; [| constructor; [| constructor]];
      (split; [reflexivity | split; [discriminate | repeat econstructor]]).
  - repeat constructor; simpl; intuition discriminate.
Defined.

Lemma aggregate_metrics_is_table : forall total_stats,
  aggregate_table (aggregate_metrics total_stats).
Proof.
  intros total_stats. split; [reflexivity | split; [discriminate|]].
  unfold aggregate_metrics, metric_value. cbn [df_rows].
  repeat (constructor; [eexists; eexists; reflexivity|]). constructor.
Qed.

(** The aggregate table of the parser lists the metrics in the order of the
    specification. *)
Lemma aggregate_metrics_names : forall total_stats,
  column "Metric" (aggregate_metrics total_stats) = Ok (map CStr canonical_metric_names).
Proof. reflexivity. Qed.

(** C7 fails as stated: the rows of the comparison are not in the order the
    specification lists the metrics (the second row is [Error %], not
    [Median Response Time (ms)]).  Nor is there one column per report when
    two reports carry the same name: the later one takes the column of the
    earlier. *)
Lemma aggregate_comparison_order_differs :
  (exists out,
     compare_aggregate_stats [aggregate_of "/reports/r1/index.html"] ["v1"] = Ok out /\
     column "Metric" out <> Ok (map CStr canonical_metric_names)) /\
  (exists out,
     compare_aggregate_stats [aggregate_of "/reports/r1/index.html";
                              aggregate_of "/reports/r8/index.html"] ["v1"; "v1"] = Ok out /\
     df_columns out = ["Metric"; "v1"]).
Proof.
  split; eexists; split; vm_compute; try reflexivity. discriminate.
Qed.

(** ** Order of strings *)

Lemma ascii_compare_lt_trans : forall a b c : ascii,
  Ascii.compare a b = Lt -> Ascii.compare b c = Lt -> Ascii.compare a c = Lt.
Proof.
  intros a b c. unfold Ascii.compare.
  rewrite !N.compare_lt_iff. apply N.lt_trans.
Qed.

Lemma string_compare_refl : forall s : string, String.compare s s = Eq.
Proof.
  induction s as [|c s IH]; simpl; [reflexivity|].
  unfold Ascii.compare. now rewrite N.compare_refl.
Qed.

Lemma string_compare_lt_trans : forall a b c : string,
  String.compare a b = Lt -> String.compare b c = Lt -> String.compare a c = Lt.
Proof.
  induction a as [|x a IH]; intros [|y b] [|z c]; simpl; try discriminate; try reflexivity.
  destruct (Ascii.compare x y) eqn:Exy; try discriminate;
    destruct (Ascii.compare y z) eqn:Eyz; try discriminate; intros Hab Hbc.
  - apply Ascii.compare_eq_iff in Exy, Eyz. subst.
    unfold Ascii.compare. rewrite N.compare_refl. now apply (IH b).
  - apply Ascii.compare_eq_iff in Exy. subst. now rewrite Eyz.
  - apply Ascii.compare_eq_iff in Eyz. subst. now rewrite Exy.
  - now rewrite (ascii_compare_lt_trans x y z).
Qed.

Lemma string_leb_trans : forall a b c : string,
  String.leb a b = true -> String.leb b c = true -> String.leb a c = true.
Proof.
  intros a b c. unfold String.leb.
  destruct (String.compare a b) eqn:Eab; try discriminate;
    destruct (String.compare b c) eqn:Ebc; try discriminate; intros _ _.
  - apply String.compare_eq_iff in Eab, Ebc. subst. now rewrite string_compare_refl.
  - apply String.compare_eq_iff in Eab. subst. now rewrite Ebc.
  - apply String.compare_eq_iff in Ebc. subst. now rewrite Eab.
  - now rewrite (string_compare_lt_trans a b c).
Qed.

Lemma string_leb_refl : forall s : string, String.leb s s = true.
Proof. intros s. unfold String.leb. now rewrite string_compare_refl. Qed.

(** ** Insertion sort *)

Section Sorting.
Context {A : Type} (leb : A -> A -> bool).
Hypothesis leb_total : forall a b, leb a b = true \/ leb b a = true.
Hypothesis leb_trans : forall a b c, leb a b = true -> leb b c = true -> leb a c = true.

Lemma insert_sorted_perm : forall x l, Permutation (insert_sorted leb x l) (x :: l).
Proof.
  intros x l. induction l as [|y l IH]; simpl.
  - apply Permutation_refl.
  - destruct (leb x y).
    + apply Permutation_refl.
    + apply perm_trans with (y :: x :: l); [now apply perm_skip | apply perm_swap].
Qed.

Lemma sort_by_perm : forall l, Permutation (sort_by leb l) l.
Proof.
  induction l as [|x l IH]; simpl.
  - apply perm_nil.
  - apply perm_trans with (x :: sort_by leb l); [apply insert_sorted_perm | now apply perm_skip].
Qed.

Lemma insert_sorted_sorted : forall x l,
  StronglySorted (holds leb) l -> StronglySorted (holds leb) (insert_sorted leb x l).
Proof.
  intros x l H. induction H as [|y l Hl IH Hy]; simpl.
  - constructor; constructor.
  - destruct (leb x y) eqn:E.
    + constructor; [now constructor|].
      constructor; [exact E|].
      eapply Forall_impl; [|exact Hy]. intros z Hz. now apply (leb_trans x y z).
    + constructor; [exact IH|].
      apply (Permutation_Forall (x := x :: l)).
      * apply Permutation_sym, insert_sorted_perm.
      * constructor; [|exact Hy]. destruct (leb_total x y) as [H | H]; [congruence | exact H].
Qed.

Lemma sort_by_sorted : forall l, StronglySorted (holds leb) (sort_by leb l).
Proof.
  induction l as [|x l IH]; simpl; [constructor | now apply insert_sorted_sorted].
Qed.

End Sorting.

Lemma key_leb_total : forall a b, key_leb a b = true \/ key_leb b a = true.
Proof.
  intros [ca la] [cb lb]. unfold key_leb. simpl.
  destruct (Z.ltb_spec ca cb); [now left|].
  destruct (Z.ltb_spec cb ca); [now right|].
  assert (ca = cb) by lia. subst. rewrite Z.eqb_refl. simpl.
  apply String.leb_total.
Qed.

Lemma key_leb_trans : forall a b c,
  key_leb a b = true -> key_leb b c = true -> key_leb a c = true.
Proof.
  intros [ca la] [cb lb] [cc lc]. unfold key_leb. simpl.
  rewrite !orb_true_iff, !andb_true_iff, !Z.ltb_lt, !Z.eqb_eq.
  intros [H1 | [H1 L1]] [H2 | [H2 L2]].
  - left. lia.
  - left. lia.
  - left. lia.
  - right. split; [lia | now apply (string_leb_trans la lb lc)].
Qed.

(** ** Order of the endpoint rows *)

Lemma get_sort_key_label : forall label, snd (get_sort_key label) = label.
Proof.
  intros label. unfold get_sort_key.
  destruct (String.eqb label "Total"); [reflexivity|].
  now destruct (is_http_endpoint label).
Qed.

Lemma http_is_not_aggregate : forall label,
  is_http_endpoint label = true -> is_aggregate_label label = false.
Proof.
  intros label H. unfold is_aggregate_label.
  destruct (String.eqb label "Total") eqn:E; [|reflexivity].
  apply String.eqb_eq in E. subst. discriminate H.
Qed.


Lemma filter_nothing {A : Type} : forall (f : A -> bool) l,
  Forall (fun x => f x = false) l -> filter f l = [].
Proof.
  intros f l H. induction H as [|x l Hx _ IH]; simpl; [reflexivity|].
  now rewrite Hx.
Qed.

Lemma Forall_filter {A : Type} : forall (P : A -> Prop) (f : A -> bool) l,
  Forall P l -> Forall P (filter f l).
Proof.
  intros P f l H. induction H as [|x l Hx _ IH]; simpl; [constructor|].
  destruct (f x); [now constructor | assumption].
Qed.


Lemma strings_of_ok : forall e vs ss, strings_of e vs = Ok ss -> vs = map CStr ss.
Proof.
  intros e vs. induction vs as [|v vs IH]; simpl; intros ss H.
  - now inversion H.
  - destruct v; try discriminate H.
    destruct (strings_of e vs) as [ss'|] eqn:E; [|discriminate H].
    inversion H; subst. simpl. f_equal. now apply IH.
Qed.

Lemma keyed_combine : forall i labels rows,
  map (cell_at i) rows = map CStr labels ->
  let pairs := combine (map get_sort_key labels) rows in
  Forall (keyed i) pairs /\ map label_of pairs = labels /\ map snd pairs = rows.
Proof.
  intros i labels. induction labels as [|l labels IH]; intros [|r rows] Hcells;
    simpl in *; try discriminate.
  - repeat split; constructor.
  - inversion Hcells as [[Hr Hrest]]. destruct (IH rows Hrest) as [H1 [H2 H3]].
    repeat split.
    + constructor; [|exact H1]. unfold keyed, label_of. simpl.
      rewrite get_sort_key_label. now split.
    + unfold label_of at 1. simpl. rewrite get_sort_key_label. now f_equal.
    + now f_equal.
Qed.

Lemma keyed_sorted_labels : forall i l,
  Forall (keyed i) l ->
  StronglySorted (holds pair_leb) l ->
  StronglySorted key_order (map label_of l).
Proof.
  intros i l Hk Hs. induction Hs as [|kr l Hl IH Hkr]; simpl; [constructor|].
  inversion Hk as [|? ? Hg Hgl]; subst.
  constructor; [now apply IH|].
  rewrite Forall_forall in *. intros y Hy.
  apply in_map_iff in Hy as [kr' [<- Hin]].
  unfold key_order, holds. destruct Hg as [_ <-]. destruct (Hgl kr' Hin) as [_ <-].
  exact (Hkr kr' Hin).
Qed.

Lemma sort_rows_labels : forall i labels rows,
  map (cell_at i) rows = map CStr labels ->
  exists sorted,
    map (cell_at i) (sort_rows labels rows) = map CStr sorted /\
    StronglySorted key_order sorted /\
    Permutation sorted labels /\
    Permutation (sort_rows labels rows) rows.
Proof.
  intros i labels rows Hcells.
  destruct (keyed_combine i labels rows Hcells) as [Hk [Hlabels Hrows]].
  unfold sort_rows. fold pair_leb.
  pose proof (sort_by_perm pair_leb (combine (map get_sort_key labels) rows)) as Hperm.
  assert (Hsorted : StronglySorted (holds pair_leb)
                      (sort_by pair_leb (combine (map get_sort_key labels) rows))).
  { apply sort_by_sorted.
    - intros a b. apply key_leb_total.
    - intros a b c. apply key_leb_trans. }
  assert (Hk' : Forall (keyed i) (sort_by pair_leb (combine (map get_sort_key labels) rows))).
  { eapply Permutation_Forall; [apply Permutation_sym; exact Hperm | exact Hk]. }
  exists (map label_of (sort_by pair_leb (combine (map get_sort_key labels) rows))).
  repeat split.
  - rewrite !map_map. apply map_ext_in. intros kr Hin.
    rewrite Forall_forall in Hk'. now destruct (Hk' kr Hin).
  - now apply (keyed_sorted_labels i).
  - rewrite <- Hlabels at 2. now apply Permutation_map.
  - rewrite <- Hrows at 2. now apply Permutation_map.
Qed.

Lemma select_columns : forall cols df out,
  select cols df = Ok out -> df_columns out = cols.
Proof.
  intros cols df out. unfold select.
  destruct (indices cols (df_columns df)); simpl; [|discriminate].
  intros H. now inversion H.
Qed.

Lemma index_of_In : forall c cols, In c cols -> exists i, index_of c cols = Some i.
Proof.
  intros c cols. induction cols as [|c' cols IH]; simpl; intros Hin; [contradiction|].
  destruct (String.eqb c c') eqn:E; [now exists O|].
  destruct Hin as [Hin | Hin].
  - subst. now rewrite String.eqb_refl in E.
  - destruct (IH Hin) as [i Hi]. rewrite Hi. now exists (S i).
Qed.

Lemma sort_endpoints_order : forall df out,
  sort_endpoints df = Ok out ->
  In "Label" (df_columns df) ->
  df_columns out = df_columns df /\
  Permutation (df_rows out) (df_rows df) /\
  exists labels,
    column "Label" out = Ok (map CStr labels) /\
    StronglySorted key_order labels.
Proof.
  intros df out H Hin. unfold sort_endpoints in H.
  destruct (index_of "Label" (df_columns df)) as [i|] eqn:Ei.
  - destruct (strings_of AttributeError (map (cell_at i) (df_rows df))) as [labels|] eqn:El;
      [|discriminate H].
    simpl in H. inversion H; subst out. clear H.
    destruct (sort_rows_labels i labels (df_rows df) (strings_of_ok _ _ _ El))
      as [sorted [Hcells [Hs [_ Hp]]]].
    split; [reflexivity|]. split; [exact Hp|].
    exists sorted. unfold column. simpl. rewrite Ei. now rewrite Hcells.
  - destruct (index_of_In _ _ Hin) as [i Hi]. congruence.
Qed.




Example unsorted_report_labels :
  column "Label" (endpoints_of "/reports/r5/index.html")
  = Ok (map CStr ["Total"; "Checkout"; "login"; "GET /a"; "POST /x"]).
Proof. vm_compute. reflexivity. Qed.

Lemma http_prefixes : forall label,
  is_http_endpoint label = true <->
  exists verb, In verb ["GET "; "POST "; "PUT "; "DELETE "; "PATCH "] /\
               String.prefix verb label = true.
Proof.
  intros label. unfold is_http_endpoint. rewrite existsb_exists. reflexivity.
Qed.

(** ** Aggregate synthesis *)

Lemma Qltb_lt : forall a b, Qltb a b = true <-> (a < b)%Q.
Proof.
  intros a b. unfold Qltb. rewrite negb_true_iff.
  split.
  - intros H. apply Qnot_le_lt. intros Hle. apply Qle_bool_iff in Hle. congruence.
  - intros H. destruct (Qle_bool b a) eqn:E; [|reflexivity].
    apply Qle_bool_iff in E. exfalso. now apply (Qlt_not_le a b).
Qed.

Lemma Qltb_ge : forall a b, Qltb a b = false <-> (b <= a)%Q.
Proof.
  intros a b. unfold Qltb. rewrite negb_false_iff. apply Qle_bool_iff.
Qed.

Lemma max2_ge_left : forall a b, (a <= max2 a b)%Q.
Proof.
  intros a b. unfold max2. destruct (Qltb a b) eqn:E.
  - apply Qlt_le_weak. now apply Qltb_lt.
  - apply Qle_refl.
Qed.

Lemma max2_ge_right : forall a b, (b <= max2 a b)%Q.
Proof.
  intros a b. unfold max2. destruct (Qltb a b) eqn:E.
  - apply Qle_refl.
  - now apply Qltb_ge.
Qed.


Lemma accumulate_aggregate : forall t label data,
  is_aggregate_key label = true -> accumulate t (label, data) = t.
Proof.
  intros t label data H. unfold accumulate. unfold is_aggregate_key in H. now rewrite H.
Qed.

Lemma accumulate_endpoint : forall t label data,
  is_aggregate_key label = false -> accumulate t (label, data) = gather [data] t.
Proof.
  intros t label data H. unfold accumulate. unfold is_aggregate_key in H. rewrite H.
  unfold gather, sum_samples, sum_failures. cbn [negb map sum_Z fold_right fold_left].
  rewrite !Z.add_0_r. reflexivity.
Qed.

Lemma gather_cons : forall d entries t,
  gather (d :: entries) t = gather entries (gather [d] t).
Proof.
  intros d entries t. unfold gather, sum_samples, sum_failures.
  cbn [map sum_Z fold_right fold_left total_samples total_errors total_response_time
       min_response_time max_response_time total_bytes total_sent_bytes all_response_times].
  rewrite !Z.add_0_r, !Z.add_assoc. reflexivity.
Qed.

Lemma gather_nil : forall t, gather [] t = t.
Proof.
  intros [a b c d e f g h]. unfold gather, sum_samples, sum_failures. simpl.
  now rewrite !Z.add_0_r.
Qed.

Lemma fold_accumulate : forall stats_data t,
  fold_left accumulate stats_data t = gather (non_aggregate stats_data) t.
Proof.
  induction stats_data as [|[label data] stats_data IH]; intros t.
  - unfold non_aggregate. simpl. now rewrite gather_nil.
  - cbn [fold_left]. rewrite IH. unfold non_aggregate. cbn [filter fst].
    destruct (is_aggregate_key label) eqn:E; cbn [negb map snd].
    + now rewrite (accumulate_aggregate _ _ _ E).
    + rewrite (accumulate_endpoint _ _ _ E). symmetry. apply gather_cons.
Qed.

Lemma truediv_ok : forall a b, ~ (b == 0)%Q -> truediv a b = Ok (Qred (a / b)).
Proof.
  intros a b H. unfold truediv. destruct (Qeq_bool b 0) eqn:E; [|reflexivity].
  apply Qeq_bool_iff in E. contradiction.
Qed.

Lemma truediv_zero : forall a b, (b == 0)%Q -> truediv a b = Raise ZeroDivisionError.
Proof.
  intros a b H. unfold truediv. apply Qeq_bool_iff in H. now rewrite H.
Qed.

Lemma inject_Z_nonzero : forall z, z <> 0 -> ~ (inject_Z z == 0)%Q.
Proof.
  intros z Hz H. unfold Qeq in H. simpl in H. lia.
Qed.

Lemma seconds_zero : forall m, (Qred (m / 1000) == 0)%Q <-> (m == 0)%Q.
Proof.
  intros m. rewrite Qred_correct. unfold Qdiv, Qeq. simpl. lia.
Qed.









Lemma gather_init : forall entries,
  gather entries totals_init
  = mkTotals (sum_samples entries) (sum_failures entries) (weighted_time entries)
             (smallest_time entries) (largest_time entries)
             (total_received entries) (total_sent entries)
             (fold_left (fun l d => match rawResponses d with Some r => l ++ r | None => l end)
                        entries []).
Proof. reflexivity. Qed.












Lemma dict_contains_false {V : Type} : forall k (d : list (string * V)),
  dict_contains k d = false <-> ~ In k (dict_keys d).
Proof.
  intros k d. unfold dict_contains. rewrite <- dict_get_None.
  destruct (dict_get k d); split; intros H; congruence.
Qed.



Example instant_report_divides_by_zero :
  calculate_total_statistics instant_report = Raise ZeroDivisionError.
Proof. vm_compute. reflexivity. Qed.




Lemma non_aggregate_all : forall stats_data : StatsData,
  (forall label, In label (dict_keys stats_data) -> is_aggregate_key label = false) ->
  non_aggregate stats_data = map snd stats_data.
Proof.
  intros stats_data H. unfold non_aggregate. f_equal.
  induction stats_data as [|[label data] stats_data IH]; simpl; [reflexivity|].
  rewrite (H label) by now left. simpl. f_equal. apply IH.
  intros l Hl. apply H. now right.
Qed.

(** ** Error table *)

Lemma http_label_is_not_total : forall label,
  is_http_endpoint label = true -> String.eqb (str_lower label) "total" = false.
Proof.
  intros [|c rest] H; [discriminate H|].
  unfold is_http_endpoint, startswith in H. cbn [existsb String.prefix] in H.
  assert (Hc : c = "G"%char \/ c = "P"%char \/ c = "D"%char).
  { destruct (ascii_dec "G" c) as [<-|]; [now left|].
    destruct (ascii_dec "P" c) as [<-|]; [right; now left|].
    destruct (ascii_dec "D" c) as [<-|]; [right; now right|].
    discriminate H. }
  destruct Hc as [-> | [-> | ->]]; reflexivity.
Qed.

Lemma error_row_cells : forall error_info item,
  map snd (error_row error_info (fst item) (snd item) (failures_of (snd item)))
  = expected_error_row error_info item.
Proof.
  intros error_info [label data].
  unfold error_row, expected_error_row, description. cbn [map snd fst].
  repeat f_equal.
Qed.

Lemma error_row_keys : forall error_info label data error_count,
  dict_keys (error_row error_info label data error_count) = ERROR_COLUMNS.
Proof. reflexivity. Qed.

Lemma fold_add_error_row : forall error_info stats_data acc,
  fold_left (add_error_row error_info) stats_data acc
  = acc ++ map (fun item => error_row error_info (fst item) (snd item) (failures_of (snd item)))
               (filter has_errors stats_data).
Proof.
  intros error_info. induction stats_data as [|[label data] stats_data IH]; intros acc.
  - simpl. now rewrite app_nil_r.
  - cbn [fold_left filter]. rewrite IH. unfold add_error_row, has_errors. cbn [fst snd].
    fold (failures_of data).
    destruct (is_http_endpoint label) eqn:Eh.
    + rewrite (http_label_is_not_total label Eh). cbn [negb andb].
      destruct (failures_of data >? 0); [|reflexivity].
      cbn [map fst snd]. now rewrite <- app_assoc.
    + rewrite andb_false_r. reflexivity.
Qed.

Lemma create_errors_table_expected :
  forall (w : World) (stats_data : StatsData),
    dict_contains "__file__" stats_data = false ->
    create_errors_table w stats_data = Ok (expected_errors (load_error_info w) stats_data).
Proof.
  intros w stats_data Hfile. unfold create_errors_table, expected_errors.
  rewrite Hfile, fold_add_error_row. cbn [app].
  destruct (filter has_errors stats_data) as [|item items]; [reflexivity|].
  cbn [map]. f_equal. f_equal.
  rewrite (from_records_uniform ERROR_COLUMNS).
  - f_equal. cbn [map]. rewrite error_row_cells, map_map. reflexivity.
  - repeat constructor; simpl; intuition discriminate.
  - intros r [<- | Hin]; [apply error_row_keys|].
    apply in_map_iff in Hin as [it [<- _]]. apply error_row_keys.
Qed.

Lemma expected_errors_absent : forall error_info stats_data,
  expected_errors error_info stats_data = None <->
  (forall item, In item stats_data -> has_errors item = false).
Proof.
  intros error_info stats_data. unfold expected_errors. split.
  - intros H item Hin. destruct (has_errors item) eqn:E; [|reflexivity].
    assert (Hf : In item (filter has_errors stats_data)) by (apply filter_In; now split).
    destruct (filter has_errors stats_data); [contradiction | discriminate H].
  - intros H. rewrite filter_nothing; [reflexivity | now apply Forall_forall].
Qed.


Lemma record_error_described : forall error_info item,
  readable item ->
  record_error error_info item
  = Ok match described item with
       | Some (label, text) => dict_set label text error_info
       | None => error_info
       end.
Proof.
  intros error_info [data|] Hr; [|reflexivity].
  unfold record_error, described.
  destruct data as [|label [|x1 [|count [|text [|x4 rest]]]]];
    try reflexivity; try (now destruct label).
  unfold readable in Hr. destruct Hr as [c Hc]. cbn [length Nat.leb]. rewrite Hc. cbn [bind].
  destruct label; destruct (c >? 0); reflexivity.
Qed.

Lemma read_top5_joined : forall items error_info,
  Forall readable items -> read_top5 items error_info = joined items error_info.
Proof.
  induction items as [|item items IH]; intros error_info H; [reflexivity|].
  inversion H as [|? ? Hitem Hrest]; subst.
  cbn [read_top5]. rewrite (record_error_described _ _ Hitem).
  unfold joined. cbn [fold_left]. now apply IH.
Qed.


(** The join of the secondary table: when every record that is read has a
    convertible error count, the description of a label is the fourth field
    of the last record that names the label with a positive count. *)
Lemma load_error_info_joined : forall (w : World) (p : string) (items : list top5_item),
  find_dashboard w = Some p ->
  dashboard_js w p = Some (Table items) ->
  Forall readable items ->
  load_error_info w = joined items [].
Proof.
  intros w p items Hfind Hjs Hr. unfold load_error_info.
  rewrite Hfind, Hjs. now apply read_top5_joined.
Qed.

Example sample_descriptions :
  description (load_error_info sample_world) "GET /a" = CStr "Timeout" /\
  description (load_error_info sample_world) "GET /b" = CStr "Unknown Error" /\
  description (load_error_info sample_world) "GET /c" = CStr "Unknown Error".
Proof. repeat split; vm_compute; reflexivity. Qed.

Lemma no_errors_no_table : forall (w : World) (stats_data : StatsData),
  dict_contains "__file__" stats_data = false ->
  (forall item, In item stats_data -> has_errors item = false) ->
  create_errors_table w stats_data = Ok None.
Proof.
  intros w stats_data Hfile Hnone. rewrite create_errors_table_expected by exact Hfile.
  f_equal. now apply expected_errors_absent.
Qed.

(** ** Round trip of the aggregate *)













(** ** Error comparison on the tables of the parser *)

Lemma dedup_subset : forall l x, In x (dedup l) -> In x l.
Proof.
  induction l as [|y l IH]; simpl; intros x H; [contradiction|].
  destruct H as [H | H]; [now left|].
  apply filter_In in H as [H _]. right. now apply IH.
Qed.

Lemma sorted_set_subset : forall l x, In x (sorted_set l) -> In x l.
Proof.
  intros l x H. unfold sorted_set in H. apply dedup_subset.
  eapply Permutation_in; [apply sort_by_perm | exact H].
Qed.

Lemma in_values_string : forall s vs, In (CStr s) vs -> in_values (CStr s) vs = true.
Proof.
  intros s vs H. unfold in_values. apply existsb_exists.
  exists (CStr s). split; [exact H | apply String.eqb_refl].
Qed.

Lemma in_values_not_empty : forall v vs, in_values v vs = true -> vs <> [].
Proof. intros v [|x vs] H; [discriminate H | discriminate]. Qed.

Lemma column_not_empty : forall c df vs,
  column c df = Ok vs -> vs <> [] -> df_empty df = false.
Proof.
  intros c [cols rows] vs H Hne. unfold column in H. unfold df_empty. simpl in *.
  destruct cols as [|c' cols]; [discriminate H|].
  destruct (index_of c (c' :: cols)); [|discriminate H].
  inversion H; subst vs. destruct rows; [now contradiction Hne | reflexivity].
Qed.

(** Reading the count of a description that the table lists needs the
    column [Count]. *)
Lemma count_of_needs_count : forall errors error vs,
  index_of "Count" (df_columns errors) = None ->
  column "Error" errors = Ok vs ->
  in_values (CStr error) vs = true ->
  count_of errors error = Raise (KeyError "Count").
Proof.
  intros errors error vs Hcount Hcol Hin. unfold count_of.
  rewrite (column_not_empty _ _ _ Hcol (in_values_not_empty _ _ Hin)).
  rewrite Hcol. cbn [bind]. rewrite Hin.
  unfold where_eq. unfold column in Hcol.
  destruct (index_of "Error" (df_columns errors)); [|discriminate Hcol].
  cbn [bind]. unfold column. cbn [df_columns]. now rewrite Hcount.
Qed.

Lemma comparison_row_needs_count : forall errors1 errors2 endpoint error vs1 vs2,
  index_of "Count" (df_columns errors1) = None ->
  index_of "Count" (df_columns errors2) = None ->
  column "Error" errors1 = Ok vs1 ->
  column "Error" errors2 = Ok vs2 ->
  In (CStr error) (vs1 ++ vs2) ->
  raises (comparison_row errors1 errors2 endpoint error).
Proof.
  intros errors1 errors2 endpoint error vs1 vs2 Hc1 Hc2 Hv1 Hv2 Hin.
  unfold comparison_row, raises.
  destruct (in_values (CStr error) vs1) eqn:E1.
  - rewrite (count_of_needs_count errors1 error vs1 Hc1 Hv1 E1). cbn [bind]. eauto.
  - assert (E2 : in_values (CStr error) vs2 = true).
    { apply in_app_or in Hin as [Hin | Hin].
      - apply in_values_string in Hin. congruence.
      - now apply in_values_string. }
    destruct (count_of errors1 error); cbn [bind]; [|eauto].
    rewrite (count_of_needs_count errors2 error vs2 Hc2 Hv2 E2). cbn [bind]. eauto.
Qed.

Lemma flat_map_nothing {A B : Type} : forall (f : A -> list B) l,
  (forall x, In x l -> f x = []) -> flat_map f l = [].
Proof.
  intros f l H. induction l as [|x l IH]; simpl; [reflexivity|].
  rewrite (H x) by now left. apply IH. intros y Hy. apply H. now right.
Qed.

Lemma errors_for_columns : forall endpoint df errors,
  errors_for endpoint df = Ok errors ->
  errors = empty_frame \/ df_columns errors = df_columns df.
Proof.
  intros endpoint df errors. unfold errors_for, where_eq, column.
  destruct (index_of "Endpoint" (df_columns df)); cbn [bind]; [|discriminate].
  destruct (in_values _ _); intros H; inversion H; auto.
Qed.

Lemma endpoint_rows_need_count : forall df1 df2 endpoint,
  index_of "Count" (df_columns df1) = None ->
  index_of "Count" (df_columns df2) = None ->
  endpoint_rows df1 df2 endpoint = [].
Proof.
  intros df1 df2 endpoint Hc1 Hc2. unfold endpoint_rows.
  destruct (errors_for endpoint df1) as [errors1|] eqn:E1; cbn [bind]; [|reflexivity].
  destruct (errors_for endpoint df2) as [errors2|] eqn:E2; cbn [bind]; [|reflexivity].
  destruct (column "Error" errors1) as [vs1|] eqn:V1; cbn [bind]; [|reflexivity].
  destruct (column "Error" errors2) as [vs2|] eqn:V2; cbn [bind]; [|reflexivity].
  destruct (strings_of TypeError (vs1 ++ vs2)) as [descriptions|] eqn:Es; cbn [bind];
    [|reflexivity].
  assert (H1 : index_of "Count" (df_columns errors1) = None).
  { destruct (errors_for_columns _ _ _ E1) as [-> | ->]; [reflexivity | exact Hc1]. }
  assert (H2 : index_of "Count" (df_columns errors2) = None).
  { destruct (errors_for_columns _ _ _ E2) as [-> | ->]; [reflexivity | exact Hc2]. }
  apply flat_map_nothing. intros error Hin.
  apply sorted_set_subset in Hin.
  assert (Hcell : In (CStr error) (vs1 ++ vs2)).
  { rewrite (strings_of_ok _ _ _ Es). now apply in_map. }
  destruct (comparison_row_needs_count errors1 errors2 endpoint error vs1 vs2 H1 H2 V1 V2 Hcell)
    as [e He].
  now rewrite He.
Qed.

(** Without a column [Count] no pair of the comparison survives: the call
    returns the empty frame, unless it raises before the loop. *)
Theorem compare_errors_without_count :
  forall df1 df2 : DataFrame,
    index_of "Count" (df_columns df1) = None ->
    index_of "Count" (df_columns df2) = None ->
    compare_errors (Some df1) (Some df2) = Ok empty_frame \/
    raises (compare_errors (Some df1) (Some df2)).
Proof.
  intros df1 df2 Hc1 Hc2. unfold compare_errors.
  destruct (df_empty df1 || df_empty df2); [now left|].
  destruct (column "Endpoint" df1); cbn [bind]; [|right; unfold raises; eauto].
  destruct (column "Endpoint" df2); cbn [bind]; [|right; unfold raises; eauto].
  destruct (strings_of TypeError (a ++ a0)) as [endpoints|]; cbn [bind];
    [|right; unfold raises; eauto].
  left. rewrite flat_map_nothing; [reflexivity|].
  intros endpoint _. now apply endpoint_rows_need_count.
Qed.

Lemma endpoint_column_of_rows : forall error_info items,
  map (cell_at 0) (map (expected_error_row error_info) items) = map CStr (map fst items).
Proof.
  intros error_info items. induction items as [|item items IH]; simpl; [reflexivity|].
  now rewrite IH.
Qed.

(** Whatever two error tables the parser builds, their comparison is the
    empty frame. *)
Theorem compare_errors_of_parser_tables :
  forall (w1 w2 : World) (stats1 stats2 : StatsData) (df1 df2 : DataFrame),
    create_errors_table w1 stats1 = Ok (Some df1) ->
    create_errors_table w2 stats2 = Ok (Some df2) ->
    compare_errors (Some df1) (Some df2) = Ok empty_frame.
Proof.
  intros w1 w2 stats1 stats2 df1 df2 H1 H2.
  assert (Hshape : forall w stats df,
            create_errors_table w stats = Ok (Some df) ->
            df_columns df = ERROR_COLUMNS /\
            exists labels, column "Endpoint" df = Ok (map CStr labels)).
  { intros w stats df H.
    destruct (dict_contains "__file__" stats) eqn:Ef.
    { unfold create_errors_table in H. rewrite Ef in H. discriminate H. }
    rewrite (create_errors_table_expected w stats Ef) in H. unfold expected_errors in H.
    destruct (filter has_errors stats) as [|item items]; [discriminate H|].
    inversion H; subst df. split; [reflexivity|].
    exists (map fst (item :: items)). unfold column. cbn [df_columns df_rows].
    change (index_of "Endpoint" ERROR_COLUMNS) with (Some 0%nat).
    exact (f_equal Ok (endpoint_column_of_rows (load_error_info w) (item :: items))). }
  destruct (Hshape _ _ _ H1) as [Hc1 [labels1 Hl1]].
  destruct (Hshape _ _ _ H2) as [Hc2 [labels2 Hl2]].
  destruct (compare_errors_without_count df1 df2) as [H | [e He]].
  - now rewrite Hc1.
  - now rewrite Hc2.
  - exact H.
  - exfalso. unfold compare_errors in He.
    destruct (df_empty df1 || df_empty df2); [discriminate He|].
    rewrite Hl1, Hl2 in He. cbn [bind] in He. rewrite <- map_app in He.
    assert (Hs : strings_of TypeError (map CStr (labels1 ++ labels2)) = Ok (labels1 ++ labels2)).
    { clear. induction (labels1 ++ labels2) as [|l ls IH]; simpl; [reflexivity | now rewrite IH]. }
    rewrite Hs in He. cbn [bind] in He.
    destruct (flat_map _ _); discriminate He.
Qed.

(** With the columns that [compare_errors] reads, a pair present in both
    reports is compared as the specification says, and an endpoint present
    in one report only is still skipped. *)
Example compare_counted_tables :
  compare_errors (Some (counted_table "GET /a" "Timeout" 5 100))
                 (Some (counted_table "GET /a" "Timeout" 7 100))
  = Ok (mkDataFrame
          ["Endpoint"; "Error Description"; "Report 1 Count"; "Report 1 %";
           "Report 2 Count"; "Report 2 %"; "Count Difference"; "% Difference"]
          [[CStr "GET /a"; CStr "Timeout"; CInt 5; CStr "5.00%"; CInt 7; CStr "7.00%";
            CInt 2; CStr "2.00%"]]) /\
  compare_errors (Some (counted_table "GET /a" "Timeout" 5 100))
                 (Some (counted_table "GET /b" "Timeout" 7 100))
  = Ok empty_frame.
Proof. split; vm_compute; reflexivity. Qed.

(** ** Shape of the endpoint table *)

(** What does hold of the columns: an endpoint table that the parser
    returns has exactly the canonical columns, and one row for each record
    of the payload, the computed ['Total'] included. *)
Lemma endpoint_table_shape :
  forall (w : World) (report_path : string) (loaded stats_data : StatsData)
         (t : ReportTableSet) (df : DataFrame),
    statistics_json w (statistics_path report_path) = Some (Some loaded) ->
    with_total loaded = Ok stats_data ->
    parse_jmeter_tables w report_path = Ok t ->
    endpoint_stats t = Some df ->
    df_columns df = COLUMN_ORDER /\
    length (df_rows df) = length stats_data /\
    Forall (fun row => length row = length COLUMN_ORDER) (df_rows df).
Proof.
  intros w report_path loaded stats_data t df Hfile Hwith Hparse Hdf.
  unfold parse_jmeter_tables in Hparse. rewrite Hfile in Hparse.
  unfold tables_of in Hparse. rewrite Hwith in Hparse. cbn [bind] in Hparse.
  destruct (map stats_row stats_data) as [|r rows] eqn:Erows;
    [inversion Hparse; subst; discriminate Hdf|].
  destruct (select COLUMN_ORDER (from_records (r :: rows))) as [stats_df|] eqn:Esel;
    [|discriminate Hparse].
  cbn [bind] in Hparse.
  destruct (sort_endpoints stats_df) as [sorted_df|] eqn:Esort; [|discriminate Hparse].
  cbn [bind] in Hparse.
  destruct (create_errors_table w stats_data); [|discriminate Hparse].
  cbn [bind] in Hparse. inversion Hparse; subst t. simpl in Hdf. inversion Hdf; subst df.
  pose proof (select_columns _ _ _ Esel) as Hcols.
  destruct (sort_endpoints_order stats_df sorted_df Esort) as [Hc [Hp _]].
  { rewrite Hcols. now left. }
  assert (Hsel : df_rows stats_df
                 = map (fun row => map (fun i => cell_at i row)
                                       (match indices COLUMN_ORDER (df_columns (from_records (r :: rows))) with
                                        | Ok ix => ix | Raise _ => [] end))
                       (df_rows (from_records (r :: rows)))).
  { unfold select in Esel.
    destruct (indices COLUMN_ORDER (df_columns (from_records (r :: rows)))) as [ix|] eqn:Ei;
      [|discriminate Esel].
    cbn [bind] in Esel. now inversion Esel. }
  split; [now rewrite Hc|]. split.
  - rewrite (Permutation_length Hp), Hsel, length_map.
    unfold from_records. cbn [df_rows]. rewrite length_map, <- Erows. apply length_map.
  - eapply Permutation_Forall; [apply Permutation_sym; exact Hp|].
    rewrite Hsel. apply Forall_forall. intros row Hin.
    apply in_map_iff in Hin as [row0 [<- _]]. rewrite length_map.
    unfold select in Esel.
    destruct (indices COLUMN_ORDER (df_columns (from_records (r :: rows)))) as [ix|] eqn:Ei;
      [|discriminate Esel].
    unfold indices in Ei. now apply map_result_length in Ei.
Qed.

(** A record that lacks a field gets a blank cell in that column: the
    computed ['Total'] has no median and no transfer rates. *)
Example computed_total_row_has_blanks :
  nth_error (df_rows (endpoints_of "/reports/r5/index.html")) 0
  = Some [CStr "Total"; CInt 40; CInt 1; CFloat (5 # 2); CFloat 20; CFloat 10; CFloat 400;
          CNaN; CFloat 400; CFloat 400; CFloat 400; CFloat 100; CNaN; CNaN].
Proof. vm_compute. reflexivity. Qed.

(** ** Location of the statistics payload *)

Lemma list_ascii_of_string_append : forall a b : string,
  list_ascii_of_string (a ++ b) = list_ascii_of_string a ++ list_ascii_of_string b.
Proof.
  induction a as [|c a IH]; intros b; simpl.
  - reflexivity.
  - now rewrite IH.
Qed.

Lemma string_of_list_ascii_app : forall l l' : list ascii,
  string_of_list_ascii (l ++ l')
  = (string_of_list_ascii l ++ string_of_list_ascii l')%string.
Proof.
  induction l as [|c l IH]; intros l'; simpl.
  - reflexivity.
  - now rewrite IH.
Qed.

Lemma string_append_assoc : forall a b c : string,
  (a ++ b ++ c)%string = ((a ++ b) ++ c)%string.
Proof.
  induction a as [|x a IH]; intros b c; simpl; [reflexivity | now rewrite IH].
Qed.

Lemma rev_string_append : forall a b : string,
  rev_string (a ++ b) = (rev_string b ++ rev_string a)%string.
Proof.
  intros a b. unfold rev_string.
  now rewrite list_ascii_of_string_append, rev_app_distr, string_of_list_ascii_app.
Qed.

Lemma prefix_append : forall p s : string, String.prefix p (p ++ s) = true.
Proof.
  induction p as [|c p IH]; intros s; simpl.
  - now destruct s.
  - destruct (ascii_dec c c) as [_|Hc]; [apply IH | now elim Hc].
Qed.

Lemma prefix_one : forall (a c : ascii) (s : string),
  String.prefix (String a "") (String c s) = Ascii.eqb a c.
Proof.
  intros a c s. simpl.
  destruct (ascii_dec a c) as [->|Hn].
  - rewrite Ascii.eqb_refl. now destruct s.
  - symmetry. now apply Ascii.eqb_neq.
Qed.

Lemma endswith_append : forall a b : string, endswith (a ++ b) b = true.
Proof.
  intros a b. unfold endswith. rewrite rev_string_append. apply prefix_append.
Qed.

Lemma drop_slashes_head : forall l,
  forallb is_slash l = false ->
  exists c rest, drop_slashes l = c :: rest /\ is_slash c = false.
Proof.
  induction l as [|c l IH]; simpl; intros H.
  - discriminate H.
  - destruct (is_slash c) eqn:Hc.
    + apply IH. exact H.
    + exists c, l. now split.
Qed.

Lemma drop_to_slash_skip : forall x l,
  forallb (fun c => negb (is_slash c)) x = true ->
  drop_to_slash (x ++ l) = drop_to_slash l.
Proof.
  induction x as [|c x IH]; simpl; intros l H.
  - reflexivity.
  - apply andb_prop in H as [Hc Hx].
    destruct (is_slash c); [discriminate Hc | now apply IH].
Qed.

(** The directory of a path, as the reversed list of its characters:
    nothing, slashes only, or a list that starts with another character. *)
Lemma dirname_shape : forall p,
  exists head,
    dirname p = string_of_list_ascii (rev head) /\
    (head = [] \/
     (exists rest, head = "/"%char :: rest /\ forallb is_slash head = true) \/
     (exists c rest, head = c :: rest /\ is_slash c = false)).
Proof.
  intros p. unfold dirname.
  set (head := drop_to_slash (rev (list_ascii_of_string p))).
  destruct (forallb is_slash head) eqn:Hall.
  - exists head. split; [reflexivity|].
    destruct head as [|c rest]; [now left|].
    right; left. exists rest. split; [|exact Hall].
    simpl in Hall. apply andb_prop in Hall as [Hc _].
    unfold is_slash in Hc. apply Ascii.eqb_eq in Hc. now subst c.
  - destruct (drop_slashes_head head Hall) as (c & rest & Hd & Hc).
    exists (c :: rest). split; [now rewrite Hd|].
    right; right. now exists c, rest.
Qed.

Lemma rev_string_of_rev : forall l,
  rev_string (string_of_list_ascii (rev l)) = string_of_list_ascii l.
Proof.
  intros l. unfold rev_string.
  now rewrite list_ascii_of_string_of_list_ascii, rev_involutive.
Qed.

Lemma string_of_rev_not_empty : forall c l,
  String.eqb (string_of_list_ascii (rev (c :: l))) "" = false.
Proof.
  intros c l. apply String.eqb_neq. intros H.
  apply (f_equal list_ascii_of_string) in H.
  rewrite list_ascii_of_string_of_list_ascii in H. simpl in H.
  now destruct (rev l).
Qed.

Lemma dirname_of_rev : forall l,
  dirname (string_of_list_ascii (rev l))
  = let head := drop_to_slash l in
    string_of_list_ascii
      (rev (if forallb is_slash head then head else drop_slashes head)).
Proof.
  intros l. unfold dirname.
  now rewrite list_ascii_of_string_of_list_ascii, rev_involutive.
Qed.

Lemma dirname_join_statistics : forall p,
  dirname (join (dirname p) ["statistics.json"]) = dirname p.
Proof.
  intros p.
  destruct (dirname_shape p) as (head & Hd & Hshape).
  rewrite Hd. clear Hd.
  cbn [join fold_left]. unfold join2.
  replace (startswith "statistics.json" "/") with false by reflexivity.
  unfold endswith. rewrite rev_string_of_rev.
  set (name := list_ascii_of_string "statistics.json").
  assert (Hname : forallb (fun c => negb (is_slash c)) (rev name) = true) by reflexivity.
  destruct Hshape as [-> | [(rest & -> & Hall) | (c & rest & -> & Hc)]].
  - reflexivity.
  - rewrite string_of_rev_not_empty.
    change (rev_string "/") with (String "/"%char "").
    cbn [string_of_list_ascii]. rewrite prefix_one.
    change (Ascii.eqb "/" "/") with true.
    cbn [orb].
    replace ((string_of_list_ascii (rev ("/"%char :: rest)) ++ "statistics.json")%string)
      with (string_of_list_ascii (rev (rev name ++ "/"%char :: rest))).
    2:{ rewrite rev_app_distr, rev_involutive, string_of_list_ascii_app. reflexivity. }
    rewrite dirname_of_rev. cbv zeta.
    rewrite (drop_to_slash_skip _ _ Hname).
    cbn [drop_to_slash]. replace (is_slash "/") with true by reflexivity.
    now rewrite Hall.
  - rewrite string_of_rev_not_empty.
    change (rev_string "/") with (String "/"%char "").
    cbn [string_of_list_ascii]. rewrite prefix_one.
    assert (Hc' : Ascii.eqb "/" c = false).
    { destruct (Ascii.eqb_spec "/"%char c) as [<-|_]; [discriminate Hc | reflexivity]. }
    rewrite Hc'.
    cbn [orb].
    replace ((string_of_list_ascii (rev (c :: rest)) ++ "/" ++ "statistics.json")%string)
      with (string_of_list_ascii (rev (rev name ++ "/"%char :: c :: rest))).
    2:{ rewrite rev_app_distr, rev_involutive, string_of_list_ascii_app.
        replace (rev ("/"%char :: c :: rest)) with (rev (c :: rest) ++ ["/"%char])
          by reflexivity.
        rewrite string_of_list_ascii_app, string_append_assoc. reflexivity. }
    rewrite dirname_of_rev. cbv zeta.
    rewrite (drop_to_slash_skip _ _ Hname).
    cbn [drop_to_slash]. replace (is_slash "/") with true by reflexivity.
    cbn [forallb drop_slashes]. replace (is_slash "/") with true by reflexivity.
    rewrite Hc. cbn [andb]. reflexivity.
Qed.

Lemma join_statistics_endswith : forall d,
  endswith (join d ["statistics.json"]) "statistics.json" = true.
Proof.
  intros d. cbn [join fold_left]. unfold join2.
  replace (startswith "statistics.json" "/") with false by reflexivity.
  destruct (String.eqb d "" || endswith d "/").
  - apply endswith_append.
  - rewrite string_append_assoc. apply endswith_append.
Qed.

(** X1: the payload that [parse_jmeter_tables] opens is always a path that
    ends in [statistics.json], it lies in the directory of the report path,
    and locating it again from itself changes nothing. *)
Theorem statistics_path_is_the_payload_beside_the_report :
  forall report_path : string,
    endswith (statistics_path report_path) "statistics.json" = true /\
    dirname (statistics_path report_path) = dirname report_path /\
    statistics_path (statistics_path report_path) = statistics_path report_path.
Proof.
  intros report_path.
  assert (Hends : endswith (statistics_path report_path) "statistics.json" = true).
  { unfold statistics_path.
    destruct (endswith report_path "statistics.json") eqn:He; [exact He|].
    apply join_statistics_endswith. }
  split; [exact Hends|]. split.
  - unfold statistics_path.
    destruct (endswith report_path "statistics.json"); [reflexivity|].
    apply dirname_join_statistics.
  - unfold statistics_path at 1. now rewrite Hends.
Qed.

(** ** Cells of the endpoint table *)

Lemma dict_get_set_same {V : Type} : forall k (v : V) d,
  dict_get k (dict_set k v d) = Some v.
Proof.
  intros k v d. induction d as [|[k' v'] d IH]; simpl.
  - now rewrite String.eqb_refl.
  - destruct (String.eqb k k') eqn:E; simpl.
    + now rewrite String.eqb_refl.
    + now rewrite E.
Qed.

Lemma dict_get_set_other {V : Type} : forall k k' (v : V) d,
  String.eqb k k' = false -> dict_get k (dict_set k' v d) = dict_get k d.
Proof.
  intros k k' v d Hk. induction d as [|[k0 v0] d IH]; simpl.
  - now rewrite Hk.
  - destruct (String.eqb k' k0) eqn:E; simpl.
    + apply String.eqb_eq in E. subst k0. now rewrite Hk.
    + now rewrite IH.
Qed.

Lemma dict_get_set {V : Type} : forall k k' (v : V) d,
  dict_get k (dict_set k' v d) = if String.eqb k k' then Some v else dict_get k d.
Proof.
  intros k k' v d. destruct (String.eqb k k') eqn:E.
  - apply String.eqb_eq in E. subst k'. apply dict_get_set_same.
  - now apply dict_get_set_other.
Qed.

Lemma map_column_get : forall label data row old_col new_col c,
  dict_get c (map_column label data row (old_col, new_col))
  = if String.eqb c new_col
    then match source_cell label data old_col with
         | Some v => Some v
         | None => dict_get c row
         end
    else dict_get c row.
Proof.
  intros label data row old_col new_col c.
  unfold map_column, source_cell.
  destruct (String.eqb old_col "Label").
  - apply dict_get_set.
  - destruct (dict_get old_col (attrs data)) as [value|].
    + destruct (mem_string old_col ["sampleCount"; "errorCount"]); apply dict_get_set.
    + now destruct (String.eqb c new_col).
Qed.

Lemma fold_map_column_get : forall label data mapping row c,
  dict_get c (fold_left (map_column label data) mapping row)
  = fold_left (fun acc m =>
                 if String.eqb c (snd m)
                 then match source_cell label data (fst m) with
                      | Some v => Some v
                      | None => acc
                      end
                 else acc)
              mapping (dict_get c row).
Proof.
  intros label data mapping. induction mapping as [|[old_col new_col] mapping IH];
    intros row c; cbn [fold_left fst snd].
  - reflexivity.
  - now rewrite IH, map_column_get.
Qed.

Lemma align_stats_row : forall item,
  align COLUMN_ORDER (stats_row item) = expected_endpoint_row item.
Proof.
  intros [label data].
  unfold align, stats_row, expected_endpoint_row, COLUMN_ORDER.
  cbn [map fst snd].
  rewrite !fold_map_column_get.
  unfold count_cell, rounded_cell.
  cbn.
  repeat (apply (f_equal2 (@cons cell));
          [ try reflexivity;
            match goal with
            | |- context [dict_get ?k (attrs data)] =>
                destruct (dict_get k (attrs data)); reflexivity
            end
          | ]).
  reflexivity.
Qed.

Lemma index_of_cell : forall (cols : list string) c i (r : record),
  index_of c cols = Some i ->
  cell_at i (align cols r) = match dict_get c r with Some v => v | None => CNaN end.
Proof.
  induction cols as [|c' cols IH]; simpl; intros c i r H.
  - discriminate H.
  - destruct (String.eqb c c') eqn:E.
    + inversion H; subst i. apply String.eqb_eq in E. now subst c'.
    + destruct (index_of c cols) as [j|] eqn:Ej; [|discriminate H].
      inversion H; subst i. unfold cell_at. simpl. now apply IH.
Qed.

Lemma index_of_None : forall c cols, index_of c cols = None <-> ~ In c cols.
Proof.
  intros c cols. induction cols as [|c' cols IH]; simpl.
  - tauto.
  - destruct (String.eqb c c') eqn:E.
    + apply String.eqb_eq in E. subst c'. split; [discriminate | tauto].
    + apply String.eqb_neq in E.
      destruct (index_of c cols) as [n|].
      * split; [discriminate|]. intros Hn.
        assert (Hs : Some n = None) by (apply IH; intros Hc; apply Hn; now right).
        discriminate Hs.
      * split; [|reflexivity]. intros _ [H | H]; [now elim E|].
        now apply IH in H.
Qed.

Lemma map_result_raise {A B : Type} : forall (f : A -> result B) xs e,
  map_result f xs = Raise e -> exists x, In x xs /\ f x = Raise e.
Proof.
  intros f xs e. induction xs as [|x xs IH]; simpl; intros H.
  - discriminate H.
  - destruct (f x) as [y|e'] eqn:Ex.
    + destruct (map_result f xs) as [ys|e'']; [discriminate H|].
      inversion H; subst e''. destruct (IH eq_refl) as (x' & Hin & Hx').
      exists x'. split; [now right | exact Hx'].
    + inversion H; subst e'. exists x. split; [now left | exact Ex].
Qed.

Lemma select_from_records : forall cs recs out,
  select cs (from_records recs) = Ok out ->
  out = mkDataFrame cs (map (align cs) recs).
Proof.
  intros cs recs out H. unfold select in H.
  destruct (indices cs (df_columns (from_records recs))) as [ix|] eqn:Ei;
    cbn [bind] in H; [|discriminate H].
  inversion H; subst out. clear H. f_equal.
  unfold from_records. cbn [df_rows df_columns] in *.
  rewrite map_map. apply map_ext. intros r.
  unfold indices in Ei. apply map_result_Forall2 in Ei.
  induction Ei as [|c i cs ix Hc _ IH]; [reflexivity|].
  cbn [map align]. f_equal; [|exact IH].
  unfold from_records in Hc. cbn [df_columns] in Hc.
  destruct (index_of c (union_keys recs)) as [j|] eqn:Ej; [|discriminate Hc].
  inversion Hc; subst j. now apply index_of_cell.
Qed.




Lemma strings_of_strings : forall e l, strings_of e (map CStr l) = Ok l.
Proof.
  intros e l. induction l as [|s l IH]; simpl; [reflexivity | now rewrite IH].
Qed.

Lemma stats_rows_labels : forall stats_data : StatsData,
  map (cell_at 0) (map expected_endpoint_row stats_data) = map CStr (map fst stats_data).
Proof.
  intros stats_data. rewrite !map_map. now apply map_ext.
Qed.

(** The endpoint table of a payload: the expected rows, sorted. *)
Lemma endpoint_frame : forall (stats_data : StatsData) stats_df,
  select COLUMN_ORDER (from_records (map stats_row stats_data)) = Ok stats_df ->
  sort_endpoints stats_df
  = Ok (mkDataFrame COLUMN_ORDER
          (sort_rows (map fst stats_data) (map expected_endpoint_row stats_data))).
Proof.
  intros stats_data stats_df Hsel.
  apply select_from_records in Hsel. subst stats_df.
  rewrite map_map. rewrite (map_ext _ _ align_stats_row).
  unfold sort_endpoints. cbn [df_columns df_rows].
  change (index_of "Label" COLUMN_ORDER) with (Some 0%nat). cbv beta iota.
  now rewrite stats_rows_labels, strings_of_strings.
Qed.

Lemma sort_rows_permutation : forall labels rows,
  length labels = length rows -> Permutation (sort_rows labels rows) rows.
Proof.
  intros labels rows Hlen. unfold sort_rows.
  set (pairs := combine (map get_sort_key labels) rows).
  assert (Hp : Permutation (sort_by (fun a b => key_leb (fst a) (fst b)) pairs) pairs).
  { apply sort_by_perm. }
  apply (Permutation_map snd) in Hp.
  replace (map snd pairs) with rows in Hp; [exact Hp|].
  unfold pairs. symmetry. apply combine_snd. now rewrite length_map.
Qed.





(** ** Anatomy of a parse *)

Lemma dict_set_not_empty {V : Type} : forall k (v : V) d, dict_set k v d <> [].
Proof.
  intros k v [|[k' v'] d]; simpl; [discriminate|].
  destruct (String.eqb k k'); discriminate.
Qed.

Lemma with_total_empty : forall loaded stats_data,
  with_total loaded = Ok stats_data -> (stats_data = [] <-> loaded = []).
Proof.
  intros loaded stats_data H. unfold with_total in H.
  destruct (dict_contains "Total" loaded) eqn:Hc.
  - inversion H; subst. tauto.
  - destruct (calculate_total_statistics loaded) as [[total_stats|]|] eqn:Hcalc;
      cbn [bind] in H; [| |discriminate H]; inversion H; subst; [|tauto].
    split.
    + intros Hs. now apply dict_set_not_empty in Hs.
    + intros ->. discriminate Hcalc.
Qed.



(** What a parse that returns has built. *)
Lemma tables_of_returns : forall w loaded t,
  tables_of w loaded = Ok t ->
  exists stats_data,
    with_total loaded = Ok stats_data /\
    ((stats_data = [] /\ t = no_tables) \/
     (stats_data <> [] /\
      dict_contains "__file__" stats_data = false /\
      t = mkTables
            (Some (mkDataFrame COLUMN_ORDER
                     (sort_rows (map fst stats_data)
                                (map expected_endpoint_row stats_data))))
            (aggregate_of_payload stats_data)
            (expected_errors (load_error_info w) stats_data))).
Proof.
  intros w loaded t H. unfold tables_of in H.
  destruct (with_total loaded) as [stats_data|] eqn:Hwith; cbn [bind] in H;
    [|discriminate H].
  exists stats_data. split; [reflexivity|].
  destruct stats_data as [|item stats_data]; [left; split; [reflexivity | now inversion H]|].
  right. split; [discriminate|].
  set (sd := item :: stats_data) in *.
  change (map stats_row sd) with (stats_row item :: map stats_row stats_data) in H.
  cbv iota in H.
  change (stats_row item :: map stats_row stats_data) with (map stats_row sd) in H.
  destruct (select COLUMN_ORDER (from_records (map stats_row sd))) as [stats_df|] eqn:Esel;
    cbn [bind] in H; [|discriminate H].
  rewrite (endpoint_frame sd stats_df Esel) in H. cbn [bind] in H.
  destruct (create_errors_table w sd) as [errors_df|] eqn:Eerr; cbn [bind] in H;
    [|discriminate H].
  destruct (dict_contains "__file__" sd) eqn:Hfile.
  { unfold create_errors_table in Eerr. rewrite Hfile in Eerr. discriminate Eerr. }
  split; [reflexivity|].
  rewrite (create_errors_table_expected w sd Hfile) in Eerr. inversion Eerr; subst errors_df.
  now inversion H.
Qed.



(** ** The three tables of a parse *)



Lemma sorted_rows_length : forall stats_data : StatsData,
  length (sort_rows (map fst stats_data) (map expected_endpoint_row stats_data))
  = length stats_data.
Proof.
  intros stats_data.
  assert (Hlen : length (map fst stats_data)
                 = length (map expected_endpoint_row stats_data))
    by now rewrite !length_map.
  rewrite (Permutation_length (sort_rows_permutation _ _ Hlen)).
  apply length_map.
Qed.

Lemma expected_errors_filled : forall error_info stats_data df,
  expected_errors error_info stats_data = Some df -> df_empty df = false.
Proof.
  intros error_info stats_data df H. unfold expected_errors in H.
  destruct (filter has_errors stats_data); [discriminate H|].
  now inversion H.
Qed.

Lemma aggregate_of_payload_filled : forall stats_data df,
  aggregate_of_payload stats_data = Some df -> df_empty df = false.
Proof.
  intros stats_data df H. unfold aggregate_of_payload in H.
  destruct (dict_get "Total" stats_data) as [total_stats|]; [|discriminate H].
  destruct (truthy total_stats); [|discriminate H].
  now inversion H.
Qed.

(** X3: in the table set that [parse_jmeter_tables] returns, a table is
    either absent or has columns and at least one row; without an endpoint
    table there is no table at all; and the endpoint table is absent exactly
    when the statistics payload is missing or is the empty object. *)
Theorem parsed_tables_are_absent_or_filled :
  forall (w : World) (report_path : string) (t : ReportTableSet),
    parse_jmeter_tables w report_path = Ok t ->
    (forall df, In (Some df) [endpoint_stats t; aggregate_summary t; errors t] ->
                df_empty df = false) /\
    (endpoint_stats t = None -> t = no_tables) /\
    (endpoint_stats t = None <->
     statistics_json w (statistics_path report_path) = None \/
     statistics_json w (statistics_path report_path) = Some (Some [])).
Proof.
  intros w report_path t Hparse.
  unfold parse_jmeter_tables in Hparse.
  destruct (statistics_json w (statistics_path report_path)) as [[loaded|]|];
    [| discriminate Hparse | ].
  2:{ inversion Hparse; subst t. cbn [In endpoint_stats aggregate_summary errors no_tables].
      split; [|split; [reflexivity | tauto]].
      intros df [H | [H | [H | []]]]; discriminate H. }
  destruct (tables_of_returns w loaded t Hparse) as (stats_data & Hwith & Hcases).
  pose proof (with_total_empty loaded stats_data Hwith) as Hempty.
  destruct Hcases as [[Hnil ->] | (Hne & _ & ->)].
  - cbn [In endpoint_stats aggregate_summary errors no_tables].
    split; [|split; [reflexivity|]].
    + intros df [H | [H | [H | []]]]; discriminate H.
    + split; [|reflexivity]. intros _. right. apply Hempty in Hnil. now subst loaded.
  - cbn [In endpoint_stats aggregate_summary errors].
    split; [|split].
    + intros df [H | [H | [H | []]]].
      * inversion H; subst df. unfold df_empty. cbn [df_columns df_rows COLUMN_ORDER].
        destruct (sort_rows _ _) eqn:Hs; [|reflexivity].
        exfalso. apply Hne.
        pose proof (sorted_rows_length stats_data) as Hlen.
        rewrite Hs in Hlen. now destruct stats_data.
      * now apply aggregate_of_payload_filled in H.
      * now apply expected_errors_filled in H.
    + discriminate.
    + split; [discriminate|]. intros [H | H]; [discriminate H|].
      inversion H; subst loaded. exfalso. apply Hne. now apply Hempty.
Qed.

Lemma parsed_tables_are_absent_or_filled_witness :
  let t := tables_at "/reports/r6/index.html" in
  (forall df, In (Some df) [endpoint_stats t; aggregate_summary t; errors t] ->
              df_empty df = false) /\
  (endpoint_stats t = None -> t = no_tables) /\
  (endpoint_stats t = None <->
   statistics_json sample_world (statistics_path "/reports/r6/index.html") = None \/
   statistics_json sample_world (statistics_path "/reports/r6/index.html")
   = Some (Some [])).
Proof.
  apply (parsed_tables_are_absent_or_filled sample_world "/reports/r6/index.html").
  vm_compute. reflexivity.
Defined.




Lemma dict_get_In {V : Type} : forall k (v : V) d, dict_get k d = Some v -> In (k, v) d.
Proof.
  intros k v d. induction d as [|[k' v'] d IH]; simpl; intros H.
  - discriminate H.
  - destruct (String.eqb k k') eqn:E.
    + apply String.eqb_eq in E. inversion H. subst. now left.
    + right. now apply IH.
Qed.

Lemma sorted_rows_In : forall (stats_data : StatsData) item,
  In item stats_data ->
  In (expected_endpoint_row item)
     (sort_rows (map fst stats_data) (map expected_endpoint_row stats_data)).
Proof.
  intros stats_data item Hin.
  apply Permutation_in with (l := map expected_endpoint_row stats_data).
  - apply Permutation_sym, sort_rows_permutation. now rewrite !length_map.
  - now apply in_map.
Qed.

Lemma sorted_rows_from : forall (stats_data : StatsData) row,
  In row (sort_rows (map fst stats_data) (map expected_endpoint_row stats_data)) ->
  exists item, In item stats_data /\ row = expected_endpoint_row item.
Proof.
  intros stats_data row Hin.
  apply Permutation_in with (l' := map expected_endpoint_row stats_data) in Hin.
  - apply in_map_iff in Hin as (item & <- & Hitem). now exists item.
  - apply sort_rows_permutation. now rewrite !length_map.
Qed.

(** X5: when a parse returns an aggregate table, the endpoint table has a
    row labelled ['Total'], and every metric of the aggregate table repeats
    the cell of that row in the corresponding column, unless that cell is
    blank. *)
Theorem aggregate_repeats_the_total_row :
  forall (w : World) (report_path : string) (t : ReportTableSet) (agg : DataFrame),
    parse_jmeter_tables w report_path = Ok t ->
    aggregate_summary t = Some agg ->
    exists df row,
      endpoint_stats t = Some df /\
      In row (df_rows df) /\
      endpoint_cell "Label" row = CStr "Total" /\
      forall metric column_name,
        In (metric, column_name) metric_columns ->
        endpoint_cell column_name row = CNaN \/
        metric_cell metric agg = Some (endpoint_cell column_name row).
Proof.
  intros w report_path t agg Hparse Hagg.
  unfold parse_jmeter_tables in Hparse.
  destruct (statistics_json w (statistics_path report_path)) as [[loaded|]|];
    [| discriminate Hparse | inversion Hparse; subst; discriminate Hagg].
  destruct (tables_of_returns w loaded t Hparse) as (stats_data & Hwith & Hcases).
  destruct Hcases as [[_ ->] | (_ & _ & ->)]; [discriminate Hagg|].
  cbn [aggregate_summary endpoint_stats] in *.
  unfold aggregate_of_payload in Hagg.
  destruct (dict_get "Total" stats_data) as [total_stats|] eqn:Htotal; [|discriminate Hagg].
  destruct (truthy total_stats); [|discriminate Hagg].
  inversion Hagg; subst agg. clear Hagg.
  eexists. exists (expected_endpoint_row ("Total", total_stats)).
  split; [reflexivity|]. cbn [df_rows].
  split; [apply sorted_rows_In; now apply dict_get_In|].
  split; [reflexivity|].
  intros metric column_name Hin.
  unfold metric_columns in Hin. cbn [In] in Hin.
  repeat (destruct Hin as [Hin | Hin];
          [ inversion Hin; subst metric column_name; clear Hin;
            match goal with
            | |- endpoint_cell ?c ?r = _ \/ metric_cell ?m ?a = _ =>
                let v := eval cbv [endpoint_cell index_of COLUMN_ORDER String.eqb Ascii.eqb
                                   Bool.eqb andb cell_at nth expected_endpoint_row snd fst]
                         in (endpoint_cell c r) in
                change (endpoint_cell c r) with v;
                let u := eval cbv [metric_cell aggregate_metrics find df_rows cell_eqb
                                   String.eqb Ascii.eqb Bool.eqb andb cell_at nth]
                         in (metric_cell m a) in
                change (metric_cell m a) with u
            end;
            unfold rounded_cell, metric_value, attr;
            destruct (dict_get _ (attrs total_stats)); [now right | now left]
          | ]).
  contradiction.
Qed.

Lemma aggregate_repeats_the_total_row_witness :
  exists df row,
    endpoint_stats (tables_at "/reports/r1/index.html") = Some df /\
    In row (df_rows df) /\
    endpoint_cell "Label" row = CStr "Total" /\
    forall metric column_name,
      In (metric, column_name) metric_columns ->
      endpoint_cell column_name row = CNaN \/
      metric_cell metric (aggregate_metrics (jmeter_entry 100 5 5 20 18 10 400))
      = Some (endpoint_cell column_name row).
Proof.
  apply (aggregate_repeats_the_total_row sample_world "/reports/r1/index.html"
           (tables_at "/reports/r1/index.html")).
  - vm_compute. reflexivity.
  - vm_compute. reflexivity.
Defined.


(** X6: when a parse returns an error table, each of its rows belongs to
    a row of the endpoint table: the two carry the same label, which starts
    with an HTTP verb, and the same failure count, which is positive; the
    request count and the error percentage are those of the endpoint row
    unless the endpoint row is blank there. *)
Theorem error_rows_repeat_endpoint_rows :
  forall (w : World) (report_path : string) (t : ReportTableSet) (errs : DataFrame),
    parse_jmeter_tables w report_path = Ok t ->
    errors t = Some errs ->
    exists df,
      endpoint_stats t = Some df /\
      df_columns errs = ERROR_COLUMNS /\
      forall erow, In erow (df_rows errs) ->
        exists label failures row,
          In row (df_rows df) /\
          error_cell "Endpoint" erow = CStr label /\
          endpoint_cell "Label" row = CStr label /\
          is_http_endpoint label = true /\
          error_cell "Error #" erow = CInt failures /\
          endpoint_cell "FAIL" row = CInt failures /\
          0 < failures /\
          (endpoint_cell "#Samples" row = CNaN \/
           endpoint_cell "#Samples" row = error_cell "Request #" erow) /\
          (endpoint_cell "Error %" row = CNaN \/
           endpoint_cell "Error %" row = error_cell "Error %" erow).
Proof.
  intros w report_path t errs Hparse Herrs.
  unfold parse_jmeter_tables in Hparse.
  destruct (statistics_json w (statistics_path report_path)) as [[loaded|]|];
    [| discriminate Hparse | inversion Hparse; subst; discriminate Herrs].
  destruct (tables_of_returns w loaded t Hparse) as (stats_data & Hwith & Hcases).
  destruct Hcases as [[_ ->] | (_ & _ & ->)]; [discriminate Herrs|].
  cbn [errors endpoint_stats] in *.
  eexists. split; [reflexivity|]. cbn [df_rows].
  unfold expected_errors in Herrs.
  destruct (filter has_errors stats_data) as [|first items] eqn:Hfilter;
    [discriminate Herrs|].
  inversion Herrs; subst errs. clear Herrs. cbn [df_columns df_rows].
  split; [reflexivity|].
  intros erow Hin.
  change (In erow (map (expected_error_row (load_error_info w)) (first :: items))) in Hin.
  rewrite <- Hfilter in Hin.
  apply in_map_iff in Hin as ([label data] & <- & Hitem).
  apply filter_In in Hitem as [Hitem Herr].
  unfold has_errors in Herr. cbn [fst snd] in Herr.
  apply andb_prop in Herr as [Hhttp Hpos].
  apply Z.gtb_lt in Hpos.
  exists label, (failures_of data), (expected_endpoint_row (label, data)).
  split; [now apply sorted_rows_In|].
  split; [reflexivity|]. split; [reflexivity|]. split; [exact Hhttp|].
  split; [reflexivity|].
  change (endpoint_cell "FAIL" (expected_endpoint_row (label, data)))
    with (count_cell "errorCount" data).
  change (endpoint_cell "#Samples" (expected_endpoint_row (label, data)))
    with (count_cell "sampleCount" data).
  change (endpoint_cell "Error %" (expected_endpoint_row (label, data)))
    with (rounded_cell "errorPct" data).
  change (error_cell "Request #" (expected_error_row (load_error_info w) (label, data)))
    with (CInt (samples_of data)).
  change (error_cell "Error %" (expected_error_row (load_error_info w) (label, data)))
    with (CFloat (round2 (py_float (attr "errorPct" (NInt 0) data)))).
  unfold count_cell, rounded_cell, samples_of, failures_of, attr in *.
  split; [|split; [exact Hpos|split]].
  - destruct (dict_get "errorCount" (attrs data)); [reflexivity|].
    simpl in Hpos. lia.
  - destruct (dict_get "sampleCount" (attrs data)); [now right | now left].
  - destruct (dict_get "errorPct" (attrs data)); [now right | now left].
Qed.

Lemma error_rows_repeat_endpoint_rows_witness :
  exists df,
    endpoint_stats (tables_at "/reports/r1/index.html") = Some df /\
    df_columns
      (mkDataFrame ERROR_COLUMNS
         [[CStr "GET /a"; CInt 100; CInt 5; CStr "Timeout"; CFloat 5]])
    = ERROR_COLUMNS /\
    forall erow,
      In erow (df_rows
                 (mkDataFrame ERROR_COLUMNS
                    [[CStr "GET /a"; CInt 100; CInt 5; CStr "Timeout"; CFloat 5]])) ->
      exists label failures row,
        In row (df_rows df) /\
        error_cell "Endpoint" erow = CStr label /\
        endpoint_cell "Label" row = CStr label /\
        is_http_endpoint label = true /\
        error_cell "Error #" erow = CInt failures /\
        endpoint_cell "FAIL" row = CInt failures /\
        0 < failures /\
        (endpoint_cell "#Samples" row = CNaN \/
         endpoint_cell "#Samples" row = error_cell "Request #" erow) /\
        (endpoint_cell "Error %" row = CNaN \/
         endpoint_cell "Error %" row = error_cell "Error %" erow).
Proof.
  apply (error_rows_repeat_endpoint_rows sample_world "/reports/r1/index.html"
           (tables_at "/reports/r1/index.html")).
  - vm_compute. reflexivity.
  - vm_compute. reflexivity.
Defined.


(** ** Sorting the endpoint rows *)

Lemma sort_by_sorted_id {A : Type} : forall (leb : A -> A -> bool) l,
  StronglySorted (holds leb) l -> sort_by leb l = l.
Proof.
  intros leb l Hs. induction Hs as [|x l Hl IH Hx]; [reflexivity|].
  unfold sort_by in *. cbn [fold_right]. rewrite IH.
  destruct l as [|y l]; [reflexivity|].
  cbn [insert_sorted]. inversion Hx as [|? ? Hxy _]; subst.
  unfold holds in Hxy. now rewrite Hxy.
Qed.












(** ** Bounds of the synthesized aggregate *)

Lemma round_half_even_lower : forall (q : Q) (z : Z),
  (inject_Z z <= q)%Q -> z <= round_half_even q.
Proof.
  intros [n d] z H. unfold Qle in H. cbn [Qnum Qden inject_Z] in H.
  unfold round_half_even. cbn [Qnum Qden].
  assert (Hd : 0 < Zpos d) by lia.
  pose proof (Z.div_mod n (Zpos d) ltac:(lia)) as Hdiv.
  pose proof (Z.mod_pos_bound n (Zpos d) Hd) as Hmod.
  assert (Hf : z <= n / Zpos d) by (apply Z.div_le_lower_bound; lia).
  destruct (2 * (n mod Zpos d) ?= Zpos d); [destruct (Z.even _)| |]; lia.
Qed.

Lemma round_half_even_upper : forall (q : Q) (z : Z),
  (q <= inject_Z z)%Q -> round_half_even q <= z.
Proof.
  intros [n d] z H. unfold Qle in H. cbn [Qnum Qden inject_Z] in H.
  unfold round_half_even. cbn [Qnum Qden].
  assert (Hd : 0 < Zpos d) by lia.
  pose proof (Z.div_mod n (Zpos d) ltac:(lia)) as Hdiv.
  pose proof (Z.mod_pos_bound n (Zpos d) Hd) as Hmod.
  set (f := n / Zpos d) in *. set (m := n mod Zpos d) in *.
  assert (Hf : f <= z) by nia.
  destruct (Z.compare_spec (2 * m) (Zpos d)) as [He | Hl | Hg];
    [destruct (Z.even f)| |]; try lia; nia.
Qed.

Lemma round2_between : forall (q : Q) (a b : Z),
  (inject_Z a <= q)%Q -> (q <= inject_Z b)%Q ->
  (inject_Z a <= round2 q)%Q /\ (round2 q <= inject_Z b)%Q.
Proof.
  intros q a b Ha Hb. unfold round2. rewrite !Qred_correct.
  assert (Hlo : 100 * a <= round_half_even (q * 100)).
  { apply round_half_even_lower. rewrite inject_Z_mult.
    rewrite (Qmult_comm (inject_Z 100)). apply Qmult_le_compat_r; [exact Ha | discriminate]. }
  assert (Hhi : round_half_even (q * 100) <= 100 * b).
  { apply round_half_even_upper. rewrite inject_Z_mult.
    rewrite (Qmult_comm (inject_Z 100)). apply Qmult_le_compat_r; [exact Hb | discriminate]. }
  unfold Qle. cbn [Qnum Qden inject_Z]. lia.
Qed.

(** What a synthesis that returns a record has computed. *)
Lemma calculate_synthesizes : forall stats_data total_stats,
  calculate_total_statistics stats_data = Ok (Some total_stats) ->
  let entries := non_aggregate stats_data in
  let t := gather entries totals_init in
  0 < sum_samples entries /\
  ~ (largest_time entries == 0)%Q /\
  exists pct_90 pct_95 pct_99,
    percentile t stats_data (9 # 10) "pct1ResTime" = Ok pct_90 /\
    percentile t stats_data (95 # 100) "pct2ResTime" = Ok pct_95 /\
    percentile t stats_data (99 # 100) "pct3ResTime" = Ok pct_99 /\
    total_stats = synthesized entries pct_90 pct_95 pct_99.
Proof.
  intros stats_data total_stats H entries t.
  unfold calculate_total_statistics in H.
  rewrite fold_accumulate in H. fold entries in H. fold t in H.
  unfold t in H at 1 2 3 4 5 6. rewrite gather_init in H.
  cbn [total_samples total_errors total_response_time min_response_time
       max_response_time total_bytes total_sent_bytes] in H.
  destruct (Z.gtb_spec (sum_samples entries) 0) as [Hn | Hn]; [|discriminate H].
  split; [lia|].
  rewrite !(truediv_ok _ (inject_Z (sum_samples entries))) in H
    by (apply inject_Z_nonzero; lia).
  rewrite (truediv_ok _ 1000) in H by discriminate.
  cbn [bind] in H.
  destruct (Qeq_dec (largest_time entries) 0) as [Hz | Hnz].
  { rewrite truediv_zero in H by (now apply seconds_zero). discriminate H. }
  split; [exact Hnz|].
  rewrite truediv_ok in H by (now rewrite seconds_zero).
  cbn [bind] in H.
  destruct (percentile t stats_data (9 # 10) "pct1ResTime") as [p90|]; cbn [bind] in H;
    [|discriminate H].
  destruct (percentile t stats_data (95 # 100) "pct2ResTime") as [p95|]; cbn [bind] in H;
    [|discriminate H].
  destruct (percentile t stats_data (99 # 100) "pct3ResTime") as [p99|]; cbn [bind] in H;
    [|discriminate H].
  exists p90, p95, p99. repeat split; try reflexivity.
  inversion H. reflexivity.
Qed.

Lemma sum_Z_nonneg : forall l, Forall (fun z => 0 <= z) l -> 0 <= sum_Z l.
Proof.
  intros l H. induction H as [|z l Hz _ IH]; simpl; lia.
Qed.

Lemma sum_failures_le_samples : forall entries,
  (forall d, In d entries -> 0 <= failures_of d <= samples_of d) ->
  0 <= sum_failures entries <= sum_samples entries.
Proof.
  intros entries H. unfold sum_failures, sum_samples.
  induction entries as [|d entries IH]; simpl; [lia|].
  pose proof (H d (or_introl eq_refl)).
  assert (0 <= sum_Z (map failures_of entries) <= sum_Z (map samples_of entries))
    by (apply IH; intros d' Hd'; apply H; now right).
  lia.
Qed.

(** X8: when every record counts no more failures than samples, the
    synthesized aggregate counts no more failures than samples either, and
    its error percentage lies between 0 and 100. *)
Theorem synthesized_error_percentage_is_a_percentage :
  forall (stats_data : StatsData) (total_stats : RawStatEntry),
    (forall d, In d (non_aggregate stats_data) -> 0 <= failures_of d <= samples_of d) ->
    calculate_total_statistics stats_data = Ok (Some total_stats) ->
    exists (samples failures : Z) (error_pct : Q),
      attr "sampleCount" (NInt 0) total_stats = NInt samples /\
      attr "errorCount" (NInt 0) total_stats = NInt failures /\
      attr "errorPct" (NInt 0) total_stats = NFloat error_pct /\
      0 <= failures <= samples /\
      (0 <= error_pct)%Q /\ (error_pct <= 100)%Q.
Proof.
  intros stats_data total_stats Hcounts Hcalc.
  destruct (calculate_synthesizes stats_data total_stats Hcalc)
    as (Hpos & _ & p90 & p95 & p99 & _ & _ & _ & ->).
  pose proof (sum_failures_le_samples _ Hcounts) as Hle.
  set (entries := non_aggregate stats_data) in *.
  eexists _, _, _.
  split; [reflexivity|]. split; [reflexivity|]. split; [reflexivity|].
  split; [exact Hle|].
  apply (round2_between _ 0 100).
  - unfold fmul. rewrite !Qred_correct.
    apply Qmult_le_0_compat; [|discriminate].
    apply Qle_shift_div_l.
    + change 0%Q with (inject_Z 0). rewrite <- Zlt_Qlt. exact Hpos.
    + rewrite Qmult_0_l. change 0%Q with (inject_Z 0). rewrite <- Zle_Qle. lia.
  - unfold fmul. rewrite !Qred_correct.
    setoid_replace (inject_Z 100) with (1 * 100)%Q by reflexivity.
    apply Qmult_le_compat_r; [|discriminate].
    apply Qle_shift_div_r.
    + change 0%Q with (inject_Z 0). rewrite <- Zlt_Qlt. exact Hpos.
    + rewrite Qmult_1_l. rewrite <- Zle_Qle. lia.
Qed.

Lemma synthesized_error_percentage_witness :
  exists (samples failures : Z) (error_pct : Q),
    attr "sampleCount" (NInt 0)
         (synthesized (non_aggregate unsorted_report) (NFloat 400) (NFloat 400) (NFloat 400))
    = NInt samples /\
    attr "errorCount" (NInt 0)
         (synthesized (non_aggregate unsorted_report) (NFloat 400) (NFloat 400) (NFloat 400))
    = NInt failures /\
    attr "errorPct" (NInt 0)
         (synthesized (non_aggregate unsorted_report) (NFloat 400) (NFloat 400) (NFloat 400))
    = NFloat error_pct /\
    0 <= failures <= samples /\
    (0 <= error_pct)%Q /\ (error_pct <= 100)%Q.
Proof.
  apply (synthesized_error_percentage_is_a_percentage unsorted_report).
  - intros d Hd. vm_compute in Hd.
    repeat (destruct Hd as [<- | Hd]; [vm_compute; split; discriminate|]).
    contradiction.
  - vm_compute. reflexivity.
Defined.


(** ** Estimated percentiles *)

Lemma fold_max2_spec {A : Type} : forall (g : A -> Q) l m0,
  let M := fold_left (fun m x => max2 m (g x)) l m0 in
  (m0 <= M)%Q /\
  (forall x, In x l -> (g x <= M)%Q) /\
  (M = m0 \/ exists x, In x l /\ M = g x).
Proof.
  intros g l. induction l as [|a l IH]; intros m0; cbn [fold_left].
  - split; [apply Qle_refl|]. split; [intros x []|now left].
  - destruct (IH (max2 m0 (g a))) as (Hge & Hall & Hatt).
    split; [|split].
    + eapply Qle_trans; [apply max2_ge_left | exact Hge].
    + intros x [<- | Hx].
      * eapply Qle_trans; [apply max2_ge_right | exact Hge].
      * now apply Hall.
    + destruct Hatt as [Hatt | (x & Hx & Hatt)].
      * rewrite Hatt. unfold max2. destruct (Qltb m0 (g a)).
        -- right. exists a. split; [now left | reflexivity].
        -- now left.
      * right. exists x. split; [now right | exact Hatt].
Qed.

Lemma max_reported_is_largest : forall k stats_data m,
  max_reported k stats_data = Ok m -> is_largest_reported k stats_data m.
Proof.
  intros k [|[label d] rest] m H; [discriminate H|].
  cbn [max_reported] in H. inversion H as [Hm]. clear H.
  destruct (fold_max2_spec (fun item : string * RawStatEntry => reported k item) rest
              (reported k (label, d))) as (Hge & Hall & Hatt).
  unfold reported in *. cbn [snd] in *.
  split.
  - intros item [<- | Hin]; [exact Hge | now apply Hall].
  - destruct Hatt as [Hatt | (x & Hx & Hatt)].
    + exists (label, d). split; [now left | exact Hatt].
    + exists x. split; [now right | exact Hatt].
Qed.

Lemma no_raw_responses : forall entries l,
  (forall d, In d entries -> rawResponses d = None) ->
  fold_left (fun l d => match rawResponses d with Some r => l ++ r | None => l end)
            entries l = l.
Proof.
  induction entries as [|d entries IH]; intros l H; cbn [fold_left]; [reflexivity|].
  rewrite (H d (or_introl eq_refl)). apply IH. intros d' Hd'. apply H. now right.
Qed.

Lemma percentile_estimated : forall entries stats_data p k v,
  (forall d, In d entries -> rawResponses d = None) ->
  percentile (gather entries totals_init) stats_data p k = Ok v ->
  exists m, v = NFloat (round2 m) /\ is_largest_reported k stats_data m.
Proof.
  intros entries stats_data p k v Hraw H. unfold percentile in H.
  rewrite gather_init in H. cbn [all_response_times] in H.
  rewrite (no_raw_responses _ _ Hraw) in H.
  destruct (max_reported k stats_data) as [m|] eqn:Hm; cbn [bind] in H; [|discriminate H].
  exists m. split; [now inversion H | now apply max_reported_is_largest].
Qed.

(** X9: when no record carries raw response times, as in the statistics
    that JMeter writes, each percentile of the synthesized aggregate is the
    largest value of that percentile among the records of the payload,
    rounded to two decimals: an upper estimate, which counts every record,
    also one that the sums skip because its label is ['total'] in some
    letter case. *)
Theorem estimated_percentiles_are_the_largest_reported :
  forall (stats_data : StatsData) (total_stats : RawStatEntry),
    (forall d, In d (non_aggregate stats_data) -> rawResponses d = None) ->
    calculate_total_statistics stats_data = Ok (Some total_stats) ->
    forall k, In k ["pct1ResTime"; "pct2ResTime"; "pct3ResTime"] ->
      exists m,
        attr k (NInt 0) total_stats = NFloat (round2 m) /\
        is_largest_reported k stats_data m.
Proof.
  intros stats_data total_stats Hraw Hcalc k Hk.
  destruct (calculate_synthesizes stats_data total_stats Hcalc)
    as (_ & _ & p90 & p95 & p99 & H90 & H95 & H99 & ->).
  apply (percentile_estimated _ _ _ _ _ Hraw) in H90 as (m90 & -> & Hm90).
  apply (percentile_estimated _ _ _ _ _ Hraw) in H95 as (m95 & -> & Hm95).
  apply (percentile_estimated _ _ _ _ _ Hraw) in H99 as (m99 & -> & Hm99).
  cbn [In] in Hk. destruct Hk as [<- | [<- | [<- | []]]].
  - exists m90. split; [reflexivity | exact Hm90].
  - exists m95. split; [reflexivity | exact Hm95].
  - exists m99. split; [reflexivity | exact Hm99].
Qed.

Lemma estimated_percentiles_witness :
  let payload :=
    [ ("GET /a", jmeter_entry 10 0 0 20 18 10 400);
      ("TOTAL", jmeter_entry 99 0 0 20 18 10 9000) ] in
  exists m,
    attr "pct1ResTime" (NInt 0)
         (synthesized (non_aggregate payload) (NFloat 9000) (NFloat 9000) (NFloat 9000))
    = NFloat (round2 m) /\
    is_largest_reported "pct1ResTime" payload m.
Proof.
  intros payload.
  apply (estimated_percentiles_are_the_largest_reported payload).
  - intros d Hd. vm_compute in Hd. destruct Hd as [<- | []]. reflexivity.
  - vm_compute. reflexivity.
  - now left.
Defined.


(** ** The computed aggregate row *)

Lemma with_total_computed : forall loaded stats_data,
  dict_contains "Total" loaded = false ->
  with_total loaded = Ok stats_data ->
  stats_data = loaded \/
  exists pct_90 pct_95 pct_99,
    stats_data
    = loaded ++ [("Total", synthesized (non_aggregate loaded) pct_90 pct_95 pct_99)].
Proof.
  intros loaded stats_data Hc H. unfold with_total in H. rewrite Hc in H.
  destruct (calculate_total_statistics loaded) as [[total_stats|]|] eqn:Hcalc;
    cbn [bind] in H; [| |discriminate H]; inversion H; subst; [|now left].
  right.
  destruct (calculate_synthesizes loaded total_stats Hcalc)
    as (_ & _ & p90 & p95 & p99 & _ & _ & _ & ->).
  exists p90, p95, p99. apply dict_set_fresh. now apply dict_contains_false.
Qed.

(** X10: in the endpoint table of a payload without a ['Total'] record,
    the row of the computed aggregate is blank under [Median], [Received]
    and [Sent], which the synthesis does not produce, and filled under
    every other column. *)
Theorem computed_total_row_is_blank_on_median_and_rates :
  forall (w : World) (report_path : string) (loaded : StatsData)
         (t : ReportTableSet) (df : DataFrame) (row : list cell),
    statistics_json w (statistics_path report_path) = Some (Some loaded) ->
    dict_contains "Total" loaded = false ->
    parse_jmeter_tables w report_path = Ok t ->
    endpoint_stats t = Some df ->
    In row (df_rows df) ->
    endpoint_cell "Label" row = CStr "Total" ->
    (forall c, In c ["Median"; "Received"; "Sent"] -> endpoint_cell c row = CNaN) /\
    (forall c, In c ["Label"; "#Samples"; "FAIL"; "Error %"; "Average"; "Min"; "Max";
                     "90th pct"; "95th pct"; "99th pct"; "Transactions/s"] ->
               endpoint_cell c row <> CNaN).
Proof.
  intros w report_path loaded t df row Hfile Hnototal Hparse Hdf Hrow Hlabel.
  unfold parse_jmeter_tables in Hparse. rewrite Hfile in Hparse.
  destruct (tables_of_returns w loaded t Hparse) as (stats_data & Hwith & Hcases).
  destruct Hcases as [[_ ->] | (_ & _ & ->)]; [discriminate Hdf|].
  cbn [endpoint_stats] in Hdf. inversion Hdf; subst df. cbn [df_rows] in Hrow.
  apply sorted_rows_from in Hrow as ([label data] & Hitem & ->).
  change (endpoint_cell "Label" (expected_endpoint_row (label, data)))
    with (CStr label) in Hlabel.
  inversion Hlabel; subst label. clear Hlabel.
  assert (Hfresh : ~ In ("Total", data) loaded).
  { intros Hin. apply dict_contains_false in Hnototal. apply Hnototal.
    unfold dict_keys. now apply (in_map fst) in Hin. }
  destruct (with_total_computed loaded stats_data Hnototal Hwith)
    as [-> | (p90 & p95 & p99 & ->)]; [contradiction|].
  apply in_app_or in Hitem as [Hitem | [Hitem | []]]; [contradiction|].
  inversion Hitem; subst data. clear Hitem.
  split.
  - intros c Hc. cbn [In] in Hc.
    destruct Hc as [<- | [<- | [<- | []]]]; reflexivity.
  - intros c Hc. cbn [In] in Hc.
    repeat (destruct Hc as [<- | Hc];
            [ cbv [endpoint_cell index_of COLUMN_ORDER String.eqb Ascii.eqb Bool.eqb andb
                   cell_at nth expected_endpoint_row snd fst count_cell rounded_cell
                   synthesized attrs dict_get];
              try discriminate;
              destruct (smallest_time _); discriminate
            | ]).
    contradiction.
Qed.

Lemma computed_total_row_witness :
  let row :=
    [CStr "Total"; CInt 40; CInt 1; CFloat (5 # 2); CFloat 20; CFloat 10; CFloat 400;
     CNaN; CFloat 400; CFloat 400; CFloat 400; CFloat 100; CNaN; CNaN] in
  (forall c, In c ["Median"; "Received"; "Sent"] -> endpoint_cell c row = CNaN) /\
  (forall c, In c ["Label"; "#Samples"; "FAIL"; "Error %"; "Average"; "Min"; "Max";
                   "90th pct"; "95th pct"; "99th pct"; "Transactions/s"] ->
             endpoint_cell c row <> CNaN).
Proof.
  intros row.
  apply (computed_total_row_is_blank_on_median_and_rates sample_world
           "/reports/r5/index.html" unsorted_report
           (tables_at "/reports/r5/index.html") (endpoints_of "/reports/r5/index.html")).
  - vm_compute. reflexivity.
  - vm_compute. reflexivity.
  - vm_compute. reflexivity.
  - vm_compute. reflexivity.
  - vm_compute. now left.
  - vm_compute. reflexivity.
Defined.


(** ** Reading the secondary table *)

Lemma int_of_string_cases : forall c s,
  int_of_string (String c s) = digits_value 0 (String c s) \/
  exists c' s', s = String c' s' /\
    (int_of_string (String c s) = option_map Z.opp (digits_value 0 s) \/
     int_of_string (String c s) = digits_value 0 s).
Proof.
  intros c s. destruct s as [|c' s'].
  - left. destruct c as [[] [] [] [] [] [] [] []]; reflexivity.
  - destruct c as [[] [] [] [] [] [] [] []];
      try (left; reflexivity);
      right; exists c', s'; (split; [reflexivity|]);
      first [left; reflexivity | right; reflexivity].
Qed.

Lemma never_an_integer_raises : forall v,
  never_an_integer v -> exists e, int_of_jvalue v = Raise e.
Proof.
  intros v [-> | (s & -> & Hs)]; [eexists; reflexivity|].
  assert (Hnone : int_of_string s = None).
  { destruct s as [|c s]; [reflexivity|].
    cbn [list_ascii_of_string forallb] in Hs. apply andb_prop in Hs as [Hc Hs].
    assert (Hd : digit_of c = None) by (destruct (digit_of c); [discriminate Hc | reflexivity]).
    destruct (int_of_string_cases c s) as [-> | (c' & s' & -> & [-> | ->])].
    - cbn [digits_value]. now rewrite Hd.
    - cbn [list_ascii_of_string forallb] in Hs. apply andb_prop in Hs as [Hc' _].
      cbn [digits_value].
      destruct (digit_of c'); [discriminate Hc' | reflexivity].
    - cbn [list_ascii_of_string forallb] in Hs. apply andb_prop in Hs as [Hc' _].
      cbn [digits_value].
      destruct (digit_of c'); [discriminate Hc' | reflexivity]. }
  unfold int_of_jvalue. rewrite Hnone. eexists. reflexivity.
Qed.

(** X11: the loop over the records of the secondary table stops at the
    first record whose error count [int] rejects, [None] or a string of
    ASCII characters without a digit: what the records before it
    contributed is kept, and the records after it are never read, whatever
    they hold. *)
Theorem read_top5_stops_at_the_first_unreadable_record :
  forall (before after : list top5_item) (x0 x1 count x3 x4 : jvalue) (rest : list jvalue)
         (error_info : error_info_t),
    Forall readable before ->
    never_an_integer count ->
    read_top5 (before ++ Some (x0 :: x1 :: count :: x3 :: x4 :: rest) :: after) error_info
    = joined before error_info.
Proof.
  intros before after x0 x1 count x3 x4 rest error_info Hbefore Hcount. revert error_info.
  assert (Hbad : forall error_info,
            exists e, record_error error_info (Some (x0 :: x1 :: count :: x3 :: x4 :: rest))
                      = Raise e).
  { intros error_info. destruct (never_an_integer_raises count Hcount) as [e He].
    exists e. unfold record_error. cbn [length].
    replace (5 <=? S (S (S (S (S (length rest))))))%nat with true by reflexivity.
    now rewrite He. }
  induction Hbefore as [|item before Hitem _ IH]; intros error_info.
  - cbn [app read_top5 joined fold_left]. destruct (Hbad error_info) as [e He].
    now rewrite He.
  - cbn [app read_top5]. rewrite (record_error_described error_info item Hitem).
    rewrite IH. unfold joined. cbn [fold_left].
    now destruct (described item) as [[label text]|].
Qed.

Lemma read_top5_stops_witness :
  let before := [Some [JStr "GET /a"; JNum (NInt 100); JNum (NInt 5); JStr "Timeout";
                       JNum (NInt 5)]] in
  let after := [Some [JStr "GET /c"; JNum (NInt 50); JNum (NInt 2); JStr "Reset";
                      JNum (NInt 2)]] in
  read_top5 (before
             ++ Some [JStr "GET /b"; JNum (NInt 50); JStr "many"; JStr "Refused";
                      JNum (NInt 2)] :: after) []
  = joined before [].
Proof.
  intros before after.
  apply (read_top5_stops_at_the_first_unreadable_record before after (JStr "GET /b") (JNum (NInt 50)) (JStr "many")
           (JStr "Refused") (JNum (NInt 2)) [] []).
  - repeat constructor. now exists 5.
  - right. exists "many". split; reflexivity.
Defined.

(** ** Error comparison of parsed reports *)

Lemma parsed_errors : forall w report_path t,
  parse_jmeter_tables w report_path = Ok t ->
  errors t = None \/
  exists stats_data df, errors t = Some df /\ create_errors_table w stats_data = Ok (Some df).
Proof.
  intros w report_path t Hparse. unfold parse_jmeter_tables in Hparse.
  destruct (statistics_json w (statistics_path report_path)) as [[loaded|]|];
    [| discriminate Hparse | inversion Hparse; now left].
  destruct (tables_of_returns w loaded t Hparse) as (stats_data & _ & Hcases).
  destruct Hcases as [[_ ->] | (_ & Hfile & ->)]; [now left|].
  cbn [errors].
  destruct (expected_errors (load_error_info w) stats_data) as [df|] eqn:He; [|now left].
  right. exists stats_data, df. split; [reflexivity|].
  now rewrite (create_errors_table_expected w stats_data Hfile), He.
Qed.

(** X12: the error comparison of the error tables of any two parsed
    reports, as the application calls it, is the empty frame: the parser
    names the counts [Error #] and [Request #], the comparison reads
    [Count] and [Total]. *)
Theorem error_comparison_of_any_parsed_reports_is_empty :
  forall (w1 w2 : World) (path1 path2 : string) (t1 t2 : ReportTableSet),
    parse_jmeter_tables w1 path1 = Ok t1 ->
    parse_jmeter_tables w2 path2 = Ok t2 ->
    compare_errors (errors t1) (errors t2) = Ok empty_frame.
Proof.
  intros w1 w2 path1 path2 t1 t2 H1 H2.
  destruct (parsed_errors w1 path1 t1 H1) as [-> | (sd1 & df1 & -> & Hc1)];
    [reflexivity|].
  destruct (parsed_errors w2 path2 t2 H2) as [-> | (sd2 & df2 & -> & Hc2)];
    [reflexivity|].
  exact (compare_errors_of_parser_tables w1 w2 sd1 sd2 df1 df2 Hc1 Hc2).
Qed.

Lemma error_comparison_of_any_parsed_reports_witness :
  compare_errors (errors (tables_at "/reports/r1/index.html"))
                 (errors (tables_at "/reports/r5/index.html"))
  = Ok empty_frame.
Proof.
  apply (error_comparison_of_any_parsed_reports_is_empty sample_world sample_world
           "/reports/r1/index.html" "/reports/r5/index.html").
  - vm_compute. reflexivity.
  - vm_compute. reflexivity.
Defined.


(** ** Error comparison of counted tables *)






(** ** Labels of the endpoint comparison *)

Lemma mem_string_dedup : forall l x, mem_string x (dedup l) = mem_string x l.
Proof.
  intros l x. apply eq_true_iff_eq. rewrite !mem_string_In.
  induction l as [|y l IH]; cbn [dedup]; [tauto|].
  split.
  - intros [-> | H]; [now left|]. right. apply filter_In in H as [H _]. now apply IH.
  - intros [-> | H]; [now left|].
    destruct (String.eqb y x) eqn:E.
    + left. now apply String.eqb_eq.
    + right. apply filter_In. split; [now apply IH | now rewrite E].
Qed.

Lemma filter_filter {A : Type} : forall (f g : A -> bool) l,
  filter f (filter g l) = filter (fun x => andb (g x) (f x)) l.
Proof.
  intros f g l. induction l as [|x l IH]; cbn [filter]; [reflexivity|].
  destruct (g x); cbn [filter andb]; [destruct (f x)|]; now rewrite IH.
Qed.

Lemma dedup_app : forall a b,
  dedup (a ++ b) = dedup a ++ filter (fun l => negb (mem_string l a)) (dedup b).
Proof.
  induction a as [|x a IH]; intros b; cbn [app dedup].
  - cbn [mem_string existsb negb]. symmetry. apply forallb_filter_id.
    now apply forallb_forall.
  - rewrite IH, filter_app, filter_filter. cbn [app]. do 2 f_equal.
    apply filter_ext. intros l. cbn [mem_string existsb].
    rewrite (String.eqb_sym x l). fold (mem_string l a).
    now rewrite negb_orb, andb_comm.
Qed.

Lemma dedup_NoDup : forall l, NoDup (dedup l).
Proof.
  induction l as [|x l IH]; cbn [dedup]; constructor.
  - intros H. apply filter_In in H as [_ H]. now rewrite String.eqb_refl in H.
  - now apply NoDup_filter.
Qed.

Lemma dedup_of_NoDup : forall l, NoDup l -> dedup l = l.
Proof.
  intros l H. induction H as [|x l Hx _ IH]; cbn [dedup]; [reflexivity|].
  rewrite IH. f_equal. apply forallb_filter_id. apply forallb_forall.
  intros y Hy. apply negb_true_iff, String.eqb_neq. intros ->. contradiction.
Qed.

Lemma filter_map {A B : Type} : forall (f : B -> bool) (g : A -> B) l,
  filter f (map g l) = map g (filter (fun x => f (g x)) l).
Proof.
  intros f g l. induction l as [|x l IH]; cbn [map filter]; [reflexivity|].
  destruct (f (g x)); cbn [map]; now rewrite IH.
Qed.

Lemma unique_strings : forall l, unique (map CStr l) = map CStr (dedup l).
Proof.
  induction l as [|x l IH]; cbn [map unique dedup]; [reflexivity|].
  now rewrite IH, filter_map.
Qed.

Lemma add_labels_strings : forall acc df labels,
  column "Label" df = Ok (map CStr labels) ->
  add_labels (map CStr acc) df
  = Ok (map CStr (acc ++ filter (fun l => negb (mem_string l acc)) (dedup labels))).
Proof.
  intros acc df labels Hcol. unfold add_labels. rewrite Hcol. cbn [bind].
  rewrite unique_strings, map_app, filter_map. do 3 f_equal.
  apply filter_ext. intros y. f_equal.
  clear. induction acc as [|a acc IH]; [reflexivity|].
  cbn [map existsb mem_string]. now rewrite IH.
Qed.

Lemma all_labels_strings : forall dfs labelss acc,
  Forall2 (fun df labels => column "Label" df = Ok (map CStr labels)) dfs labelss ->
  NoDup acc ->
  all_labels (map CStr acc) dfs = Ok (map CStr (dedup (acc ++ concat labelss))).
Proof.
  intros dfs labelss acc H. revert acc.
  induction H as [|df labels dfs labelss Hcol _ IH]; intros acc Hacc.
  - cbn [all_labels concat]. now rewrite app_nil_r, dedup_of_NoDup.
  - cbn [all_labels concat]. rewrite (add_labels_strings acc df labels Hcol). cbn [bind].
    assert (Hstep : acc ++ filter (fun l => negb (mem_string l acc)) (dedup labels)
                    = dedup (acc ++ labels))
      by now rewrite dedup_app, (dedup_of_NoDup acc Hacc).
    rewrite Hstep, IH by apply dedup_NoDup. do 2 f_equal.
    rewrite app_assoc, (dedup_app (acc ++ labels)), (dedup_app (dedup (acc ++ labels))).
    rewrite (dedup_of_NoDup (dedup (acc ++ labels))) by apply dedup_NoDup.
    f_equal. apply filter_ext. intros l. now rewrite mem_string_dedup.
Qed.


(** ** Shape of the endpoint comparison *)

Lemma map_result_app {A B : Type} : forall (f : A -> result B) xs ys,
  map_result f (xs ++ ys)
  = (us <- map_result f xs ;; vs <- map_result f ys ;; Ok (us ++ vs)).
Proof.
  intros f xs ys. induction xs as [|x xs IH]; cbn [app map_result bind].
  - now destruct (map_result f ys).
  - destruct (f x) as [y|e]; [|reflexivity].
    rewrite IH. destruct (map_result f xs) as [us|e]; [|reflexivity].
    cbn [bind]. now destruct (map_result f ys).
Qed.

Lemma map_result_map {A B C : Type} : forall (f : B -> result C) (g : A -> B) xs,
  map_result f (map g xs) = map_result (fun x => f (g x)) xs.
Proof.
  intros f g xs. induction xs as [|x xs IH]; cbn [map map_result]; [reflexivity|].
  now rewrite IH.
Qed.

Lemma combine_app {A B : Type} : forall (a a' : list A) (b b' : list B),
  length a = length b -> combine (a ++ a') (b ++ b') = combine a b ++ combine a' b'.
Proof.
  induction a as [|x a IH]; intros a' [|y b] b' H; try discriminate H; [reflexivity|].
  cbn [app combine]. f_equal. apply IH. now inversion H.
Qed.

Lemma dict_keys_app {V : Type} : forall (a b : list (string * V)),
  dict_keys (a ++ b) = dict_keys a ++ dict_keys b.
Proof. intros a b. apply map_app. Qed.

Lemma fill_metric_spec : forall label metric pairs row,
  NoDup (dict_keys row ++ map (comparison_column (snd metric)) (map snd pairs)) ->
  fill_metric label metric row pairs
  = (texts <- map_result (metric_text label (fst metric)) (map fst pairs) ;;
     Ok (row ++ combine (map (comparison_column (snd metric)) (map snd pairs))
                        (map CStr texts))).
Proof.
  intros label metric pairs. induction pairs as [|[df name] pairs IH]; intros row Hnd.
  - cbn [fill_metric map map_result bind combine]. now rewrite app_nil_r.
  - cbn [fill_metric map map_result fst snd]. fold (comparison_column (snd metric) name).
    destruct (metric_text label (fst metric) df) as [val|e]; cbn [bind]; [|reflexivity].
    cbn [map fst snd] in Hnd.
    rewrite dict_set_fresh.
    2:{ apply NoDup_remove_2 in Hnd. intros Hin. apply Hnd.
        apply in_or_app. now left. }
    rewrite IH.
    2:{ rewrite dict_keys_app. cbn [dict_keys map fst]. now rewrite <- app_assoc. }
    destruct (map_result (metric_text label (fst metric)) (map fst pairs)) as [texts|e];
      cbn [bind]; [|reflexivity].
    cbn [map combine]. now rewrite <- app_assoc.
Qed.

Lemma fill_metrics_spec : forall label ms tables report_names row,
  length tables = length report_names ->
  NoDup (dict_keys row
         ++ flat_map (fun m => map (comparison_column (snd m)) report_names) ms) ->
  fill_metrics label ms row (combine tables report_names)
  = (texts <- map_result (fun mt => metric_text label (fst (fst mt)) (snd mt))
                         (list_prod ms tables) ;;
     Ok (row ++ combine (flat_map (fun m => map (comparison_column (snd m)) report_names) ms)
                        (map CStr texts))).
Proof.
  intros label ms tables report_names. induction ms as [|m ms IH]; intros row Hlen Hnd.
  - cbn [fill_metrics list_prod map_result bind flat_map combine]. now rewrite app_nil_r.
  - cbn [fill_metrics list_prod flat_map] in *.
    rewrite fill_metric_spec; rewrite ?combine_fst, ?combine_snd by exact Hlen.
    2:{ rewrite app_assoc in Hnd. now apply NoDup_app_remove_r in Hnd. }
    rewrite map_result_app, map_result_map. cbn [fst snd].
    destruct (map_result (metric_text label (fst m)) tables) as [texts|e] eqn:Ht;
      cbn [bind]; [|reflexivity].
    assert (Hlt : length texts = length report_names)
      by (rewrite <- Hlen; now apply map_result_length in Ht).
    rewrite IH; [|exact Hlen|].
    2:{ rewrite dict_keys_app, <- app_assoc.
        replace (dict_keys (combine (map (comparison_column (snd m)) report_names)
                                    (map CStr texts)))
          with (map (comparison_column (snd m)) report_names); [exact Hnd|].
        unfold dict_keys. symmetry. apply combine_fst. now rewrite !length_map. }
    destruct (map_result _ (list_prod ms tables)) as [rest|e]; cbn [bind]; [|reflexivity].
    rewrite map_app, combine_app by now rewrite !length_map.
    now rewrite <- app_assoc.
Qed.

Lemma string_append_cancel_l : forall a b c : string,
  (a ++ b)%string = (a ++ c)%string -> b = c.
Proof.
  induction a as [|x a IH]; intros b c H; [exact H|].
  cbn in H. inversion H. now apply IH.
Qed.

Lemma string_append_cancel_r : forall a b c : string,
  (a ++ c)%string = (b ++ c)%string -> a = b.
Proof.
  intros a b c H. apply (f_equal rev_string) in H.
  rewrite !rev_string_append in H. apply string_append_cancel_l in H.
  apply (f_equal rev_string) in H. unfold rev_string in H.
  rewrite !list_ascii_of_string_of_list_ascii, !rev_involutive in H.
  now rewrite !string_of_list_ascii_of_string in H.
Qed.

Lemma comparison_column_injective : forall d n n',
  comparison_column d n = comparison_column d n' -> n = n'.
Proof.
  intros d n n' H. unfold comparison_column in H.
  apply string_append_cancel_l, string_append_cancel_l in H.
  now apply string_append_cancel_r in H.
Qed.

Lemma NoDup_app_intro {A : Type} : forall (a b : list A),
  NoDup a -> NoDup b -> (forall x, In x a -> ~ In x b) -> NoDup (a ++ b).
Proof.
  induction a as [|x a IH]; intros b Ha Hb Hd; [exact Hb|].
  cbn [app]. inversion Ha as [|? ? Hx Ha']; subst. constructor.
  - intros Hin. apply in_app_or in Hin as [Hin | Hin]; [contradiction|].
    apply (Hd x); [now left | exact Hin].
  - apply IH; try assumption. intros y Hy. apply Hd. now right.
Qed.

Lemma NoDup_map_of_injective {A B : Type} : forall (g : A -> B) l,
  (forall x y, g x = g y -> x = y) -> NoDup l -> NoDup (map g l).
Proof.
  intros g l Hinj H. induction H as [|x l Hx _ IH]; cbn [map]; constructor.
  - intros Hin. apply in_map_iff in Hin as (y & Heq & Hy).
    apply Hinj in Heq. now subst y.
  - exact IH.
Qed.

(** The display names of the metrics: no column of one can be a column of
    another, whatever the report names are. *)
Lemma metric_displays_apart :
  ForallOrdPairs (fun d d' => forall n n', comparison_column d n <> comparison_column d' n')
                 (map snd metrics).
Proof.
  unfold metrics. cbn [map snd].
  repeat (constructor; [repeat (constructor; [intros n n' H; discriminate H|]);
                        constructor|]).
  constructor.
Qed.

Lemma columns_NoDup : forall ds report_names,
  NoDup report_names ->
  ForallOrdPairs (fun d d' => forall n n', comparison_column d n <> comparison_column d' n')
                 ds ->
  NoDup (flat_map (fun d => map (comparison_column d) report_names) ds).
Proof.
  intros ds report_names Hnames Hds. induction Hds as [|d ds Hd _ IH]; cbn [flat_map].
  - constructor.
  - apply NoDup_app_intro; [|exact IH|].
    + apply NoDup_map_of_injective; [|exact Hnames].
      intros n n'. apply comparison_column_injective.
    + intros x Hx Hin. apply in_map_iff in Hx as (n & <- & _).
      apply in_flat_map in Hin as (d' & Hd' & Hin).
      apply in_map_iff in Hin as (n' & Heq & _).
      rewrite Forall_forall in Hd. exact (Hd d' Hd' n n' (eq_sym Heq)).
Qed.

Lemma comparison_columns_NoDup : forall report_names,
  NoDup report_names -> NoDup ("Endpoint" :: comparison_columns report_names).
Proof.
  intros report_names Hnames. constructor.
  - unfold comparison_columns, metrics. cbn [flat_map snd]. intros Hin.
    repeat (apply in_app_or in Hin as [Hin | Hin];
            [apply in_map_iff in Hin as (n & Heq & _); discriminate Heq|]).
    contradiction.
  - change (comparison_columns report_names)
      with (flat_map (fun d => map (comparison_column d) report_names) (map snd metrics)).
    apply columns_NoDup; [exact Hnames | apply metric_displays_apart].
Qed.

Lemma flat_map_length_uniform {A B : Type} : forall (f : A -> list B) (n : nat) l,
  (forall x, length (f x) = n) -> length (flat_map f l) = (length l * n)%nat.
Proof.
  intros f n l H. induction l as [|x l IH]; cbn [flat_map length]; [reflexivity|].
  rewrite length_app, IH, H. reflexivity.
Qed.

Lemma comparison_texts_length : forall label tables report_names texts,
  length tables = length report_names ->
  comparison_texts label tables = Ok texts ->
  length (comparison_columns report_names) = length (map CStr texts).
Proof.
  intros label tables report_names texts Hlen H. unfold comparison_texts in H.
  apply map_result_length in H. rewrite length_map, H, length_prod.
  unfold comparison_columns.
  rewrite (flat_map_length_uniform _ (length report_names)); [now rewrite Hlen|].
  intros m. apply length_map.
Qed.

Lemma endpoint_row_spec : forall label tables report_names,
  length tables = length report_names ->
  NoDup report_names ->
  fill_metrics label metrics [("Endpoint", label)] (combine tables report_names)
  = (texts <- comparison_texts label tables ;;
     Ok (("Endpoint", label)
           :: combine (comparison_columns report_names) (map CStr texts))).
Proof.
  intros label tables report_names Hlen Hnames.
  rewrite fill_metrics_spec; [reflexivity | exact Hlen |].
  now apply comparison_columns_NoDup.
Qed.

Lemma endpoint_rows_spec : forall tables report_names labels,
  length tables = length report_names ->
  NoDup report_names ->
  match map_result
          (fun label =>
             fill_metrics label metrics [("Endpoint", label)] (combine tables report_names))
          labels
  with
  | Ok rows =>
      map_result (fun label => texts <- comparison_texts label tables ;;
                               Ok (label :: map CStr texts)) labels
      = Ok (map (map snd) rows) /\
      (forall r, In r rows -> dict_keys r = "Endpoint" :: comparison_columns report_names)
  | Raise e =>
      map_result (fun label => texts <- comparison_texts label tables ;;
                               Ok (label :: map CStr texts)) labels
      = Raise e
  end.
Proof.
  intros tables report_names labels Hlen Hnames.
  induction labels as [|label labels IH]; cbn [map_result].
  - split; [reflexivity | intros r []].
  - rewrite (endpoint_row_spec label tables report_names Hlen Hnames).
    destruct (comparison_texts label tables) as [texts|e] eqn:Ht; cbn [bind];
      [|reflexivity].
    pose proof (comparison_texts_length _ _ _ _ Hlen Ht) as Hl.
    destruct (map_result _ labels) as [rows|e]; [|now rewrite IH].
    destruct IH as [IH Hkeys]. rewrite IH. split.
    + cbn [map snd]. now rewrite combine_snd.
    + intros r [<- | Hr]; [|now apply Hkeys].
      unfold dict_keys. cbn [map fst]. now rewrite combine_fst.
Qed.

Lemma all_labels_extends : forall dfs acc labels,
  all_labels acc dfs = Ok labels -> exists more, labels = acc ++ more.
Proof.
  induction dfs as [|df dfs IH]; intros acc labels H; cbn [all_labels] in H.
  - inversion H. exists []. now rewrite app_nil_r.
  - unfold add_labels in H.
    destruct (column "Label" df) as [vs|]; cbn [bind] in H; [|discriminate H].
    apply IH in H as [more ->]. rewrite <- app_assoc. eauto.
Qed.

Lemma all_labels_not_empty : forall df dfs labels,
  df_empty df = false ->
  all_labels [] (df :: dfs) = Ok labels ->
  labels <> [].
Proof.
  intros df dfs labels Hne H. cbn [all_labels] in H. unfold add_labels in H.
  destruct (column "Label" df) as [vs|] eqn:Hcol; cbn [bind] in H; [|discriminate H].
  apply all_labels_extends in H as [more ->].
  unfold column in Hcol.
  destruct (index_of "Label" (df_columns df)) as [i|]; [|discriminate Hcol].
  inversion Hcol; subst vs.
  unfold df_empty in Hne.
  destruct (df_columns df); [discriminate Hne|].
  destruct (df_rows df) as [|r rows]; [discriminate Hne|].
  cbn [map unique filter existsb negb app]. discriminate.
Qed.

Lemma present_tables_accepted : forall tables,
  Forall (fun df => df_empty df = false) tables ->
  existsb none_or_empty (map Some tables) = false.
Proof.
  intros tables H. induction H as [|df tables Hdf _ IH]; [reflexivity|].
  cbn [map existsb none_or_empty]. now rewrite Hdf, IH.
Qed.

(** The endpoint comparison of accepted tables, as an equation. *)
Lemma compare_endpoint_equation : forall tables report_names,
  tables <> [] ->
  length tables = length report_names ->
  Forall (fun df => df_empty df = false) tables ->
  NoDup report_names ->
  compare_endpoint_stats (map Some tables) report_names
  = (labels <- all_labels [] tables ;;
     expected_endpoint_comparison tables report_names labels).
Proof.
  intros tables report_names Hne Hlen Hfilled Hnames.
  unfold compare_endpoint_stats.
  destruct tables as [|df tables]; [contradiction|].
  destruct report_names as [|name report_names]; [discriminate Hlen|].
  cbn [map is_nil orb].
  replace (length (Some df :: map Some tables)) with (length (df :: tables))
    by (cbn [length]; now rewrite length_map).
  rewrite Hlen, Nat.eqb_refl. cbn [negb orb].
  change (Some df :: map Some tables) with (map Some (df :: tables)).
  rewrite (present_tables_accepted _ Hfilled), frames_all_present.
  destruct (all_labels [] (df :: tables)) as [labels|e] eqn:Hlabels; cbn [bind];
    [|reflexivity].
  assert (Hl : labels <> []).
  { inversion Hfilled; subst. now apply (all_labels_not_empty df tables). }
  unfold expected_endpoint_comparison.
  pose proof (endpoint_rows_spec (df :: tables) (name :: report_names) labels Hlen Hnames)
    as Hrows.
  destruct (map_result _ labels) as [rows|e] eqn:Hr.
  - destruct Hrows as [-> Hkeys]. cbn [bind].
    destruct rows as [|r rows].
    { destruct labels; [contradiction|]. cbn [map_result] in Hr.
      destruct (fill_metrics _ _ _ _); [|discriminate Hr].
      destruct (map_result _ labels); discriminate Hr. }
    f_equal. apply from_records_uniform; [|exact Hkeys].
    now apply comparison_columns_NoDup.
  - now rewrite Hrows.
Qed.

(** X14: for accepted inputs, one non-empty table per report name and the
    names distinct, [compare_endpoint_stats] is the comparison read row by
    row: the labels of all tables in order of first appearance; the column
    [Endpoint] followed, for each of the eight metrics in turn, by one
    column per report named after the metric and the report; in each row the
    label and the texts of the cells; and the first text that cannot be
    written makes the whole comparison raise. *)
Theorem compare_endpoint_stats_row_by_row :
  forall (tables : list DataFrame) (report_names : list string),
    tables <> [] ->
    length tables = length report_names ->
    Forall (fun df => df_empty df = false) tables ->
    NoDup report_names ->
    compare_endpoint_stats (map Some tables) report_names
    = (labels <- all_labels [] tables ;;
       expected_endpoint_comparison tables report_names labels) /\
    length (comparison_columns report_names) = (8 * length report_names)%nat.
Proof.
  intros tables report_names Hne Hlen Hfilled Hnames.
  split; [now apply compare_endpoint_equation|].
  unfold comparison_columns.
  rewrite (flat_map_length_uniform _ (length report_names)); [reflexivity|].
  intros m. apply length_map.
Qed.

Lemma compare_endpoint_stats_row_by_row_witness :
  let table (samples : Z) (average : Q) :=
    mkDataFrame ["Label"; "#Samples"; "Average"]
                [[CStr "GET /a"; CInt samples; CFloat average]] in
  let tables := [table 10 5%Q; table 20 (15 # 2)%Q] in
  compare_endpoint_stats (map Some tables) ["v1"; "v2"]
  = (labels <- all_labels [] tables ;;
     expected_endpoint_comparison tables ["v1"; "v2"] labels) /\
  length (comparison_columns ["v1"; "v2"]) = (8 * length ["v1"; "v2"])%nat.
Proof.
  intros table tables.
  apply (compare_endpoint_stats_row_by_row tables ["v1"; "v2"]).
  - discriminate.
  - reflexivity.
  - repeat constructor.
  - repeat constructor; simpl; intuition discriminate.
Defined.


(** X15: when the label columns hold strings, the labels of the endpoint
    comparison are the labels of all tables in order of first appearance:
    those of the first table first, each label once. *)
Theorem comparison_labels_are_first_occurrences :
  forall (dfs : list DataFrame) (labelss : list (list string)),
    Forall2 (fun df labels => column "Label" df = Ok (map CStr labels)) dfs labelss ->
    all_labels [] dfs = Ok (map CStr (dedup (concat labelss))) /\
    NoDup (dedup (concat labelss)) /\
    (forall l, In l (dedup (concat labelss)) <-> In l (concat labelss)) /\
    (forall first rest, labelss = first :: rest ->
       exists more, dedup (concat labelss) = dedup first ++ more).
Proof.
  intros dfs labelss H.
  split; [exact (all_labels_strings dfs labelss [] H (NoDup_nil _))|].
  split; [apply dedup_NoDup|]. split.
  - intros l. rewrite <- !mem_string_In. now rewrite mem_string_dedup.
  - intros first rest ->. cbn [concat]. rewrite dedup_app. eauto.
Qed.

Lemma comparison_labels_witness :
  let table (labels : list string) :=
    mkDataFrame ["Label"] (map (fun l => [CStr l]) labels) in
  all_labels [] [table ["b"; "a"; "b"]; table ["c"; "a"]] = Ok (map CStr ["b"; "a"; "c"]).
Proof.
  intros table.
  apply (comparison_labels_are_first_occurrences
           [table ["b"; "a"; "b"]; table ["c"; "a"]] [["b"; "a"; "b"]; ["c"; "a"]]).
  repeat constructor.
Defined.

(** ** Cells of the endpoint comparison *)

Lemma cell_eqb_sym : forall a b, cell_eqb a b = cell_eqb b a.
Proof.
  intros [x|p|s| |] [y|q|u| |]; cbn [cell_eqb]; try reflexivity.
  - apply Z.eqb_sym.
  - unfold Qeq_bool. cbn [Qnum Qden inject_Z]. apply Z.eqb_sym.
  - unfold Qeq_bool. cbn [Qnum Qden inject_Z]. apply Z.eqb_sym.
  - unfold Qeq_bool. apply Z.eqb_sym.
  - apply String.eqb_sym.
Qed.

Lemma in_values_find : forall label i rows,
  in_values label (map (cell_at i) rows)
  = match find (fun r => cell_eqb (cell_at i r) label) rows with
    | Some _ => true
    | None => false
    end.
Proof.
  intros label i rows. unfold in_values.
  induction rows as [|r rows IH]; cbn [map existsb find]; [reflexivity|].
  rewrite (cell_eqb_sym label). now destruct (cell_eqb (cell_at i r) label).
Qed.

Lemma filter_find {A : Type} : forall (f : A -> bool) l r,
  find f l = Some r -> exists rest, filter f l = r :: rest.
Proof.
  intros f l r. induction l as [|x l IH]; cbn [find filter]; intros H.
  - discriminate H.
  - destruct (f x); [inversion H; eauto | now apply IH].
Qed.

Lemma metric_text_first_row : forall label metric_key df i,
  index_of "Label" (df_columns df) = Some i ->
  metric_text label metric_key df
  = match first_row_of label i df with
    | None => Ok ""
    | Some row =>
        match index_of metric_key (df_columns df) with
        | None => Ok ""
        | Some j => format_metric metric_key (cell_at j row)
        end
    end.
Proof.
  intros label metric_key df i Hi.
  unfold metric_text, first_row_of, column. rewrite Hi. cbn [bind].
  rewrite in_values_find.
  destruct (find _ (df_rows df)) as [row|] eqn:Hfind; [|reflexivity].
  destruct (index_of metric_key (df_columns df)) as [j|] eqn:Hj.
  - assert (Hm : mem_string metric_key (df_columns df) = true).
    { destruct (mem_string metric_key (df_columns df)) eqn:Hmem; [reflexivity|]. exfalso. apply mem_string_false in Hmem.
      apply index_of_None in Hmem. congruence. }
    rewrite Hm. unfold where_eq. rewrite Hi. cbn [bind df_columns df_rows].
    rewrite Hj. destruct (filter_find _ _ _ Hfind) as [rest ->].
    cbn [map iloc0 bind]. reflexivity.
  - assert (Hm : mem_string metric_key (df_columns df) = false).
    { apply mem_string_false. now apply index_of_None. }
    rewrite Hm. cbn [bind]. unfold format_metric.
    now destruct (String.eqb metric_key "#Samples").
Qed.

(** X16: the text that the endpoint comparison writes for a label, a
    metric and a report is taken from the first row of the report that
    carries the label.  It is blank when no row carries the label or when
    the report has no column for the metric; a blank cell of such a row is
    not written blank: under [#Samples] it raises [ValueError], under any
    other metric it is written [nan]. *)
Theorem comparison_text_is_of_the_first_matching_row :
  forall (label : cell) (metric_key : string) (df : DataFrame) (i : nat),
    index_of "Label" (df_columns df) = Some i ->
    (first_row_of label i df = None -> metric_text label metric_key df = Ok "") /\
    (forall row, first_row_of label i df = Some row ->
       (index_of metric_key (df_columns df) = None ->
        metric_text label metric_key df = Ok "") /\
       (forall j, index_of metric_key (df_columns df) = Some j ->
          metric_text label metric_key df = format_metric metric_key (cell_at j row) /\
          (cell_at j row = CNaN ->
           metric_text label metric_key df
           = if String.eqb metric_key "#Samples" then Raise ValueError else Ok "nan"))).
Proof.
  intros label metric_key df i Hi.
  rewrite (metric_text_first_row label metric_key df i Hi).
  split.
  - now intros ->.
  - intros row ->. split.
    + now intros ->.
    + intros j ->. split; [reflexivity|].
      intros ->. unfold format_metric.
      now destruct (String.eqb metric_key "#Samples").
Qed.

Lemma comparison_text_witness :
  let df := mkDataFrame ["Label"; "#Samples"; "Median"]
              [[CStr "Total"; CInt 40; CNaN]; [CStr "Total"; CInt 7; CFloat 3]] in
  metric_text (CStr "Total") "Median" df = Ok "nan" /\
  metric_text (CStr "Total") "#Samples" df = Ok "40" /\
  metric_text (CStr "Total") "Average" df = Ok "" /\
  metric_text (CStr "GET /a") "Median" df = Ok "".
Proof.
  intros df.
  destruct (comparison_text_is_of_the_first_matching_row (CStr "Total") "Median" df 0%nat
              eq_refl) as [_ Hmedian].
  destruct (comparison_text_is_of_the_first_matching_row (CStr "Total") "#Samples" df 0%nat
              eq_refl) as [_ Hsamples].
  destruct (comparison_text_is_of_the_first_matching_row (CStr "Total") "Average" df 0%nat
              eq_refl) as [_ Haverage].
  destruct (comparison_text_is_of_the_first_matching_row (CStr "GET /a") "Median" df 0%nat
              eq_refl) as [Hnone _].
  split; [|split; [|split]].
  - exact (proj2 (proj2 (Hmedian _ eq_refl) 2%nat eq_refl) eq_refl).
  - exact (proj1 (proj2 (Hsamples _ eq_refl) 1%nat eq_refl)).
  - exact (proj1 (Haverage _ eq_refl) eq_refl).
  - exact (Hnone eq_refl).
Defined.


(** ** Endpoint comparison of parsed reports *)

Lemma parsed_endpoint_table : forall w report_path t df,
  parse_jmeter_tables w report_path = Ok t ->
  endpoint_stats t = Some df ->
  endpoint_table df.
Proof.
  intros w report_path t df Hparse Hdf. unfold parse_jmeter_tables in Hparse.
  destruct (statistics_json w (statistics_path report_path)) as [[loaded|]|];
    [| discriminate Hparse | inversion Hparse; subst; discriminate Hdf].
  destruct (tables_of_returns w loaded t Hparse) as (stats_data & _ & Hcases).
  destruct Hcases as [[_ ->] | (Hne & _ & ->)]; [discriminate Hdf|].
  cbn [endpoint_stats] in Hdf. inversion Hdf; subst df.
  unfold endpoint_table. cbn [df_columns df_rows].
  split; [reflexivity|]. split.
  - intros Hs. apply Hne. pose proof (sorted_rows_length stats_data) as Hlen.
    rewrite Hs in Hlen. now destruct stats_data.
  - apply Forall_forall. intros row Hrow.
    apply sorted_rows_from in Hrow as (item & _ & ->). now exists item.
Qed.

Lemma endpoint_table_filled : forall df, endpoint_table df -> df_empty df = false.
Proof.
  intros df (Hc & Hr & _). unfold df_empty. rewrite Hc.
  destruct (df_rows df); [contradiction | reflexivity].
Qed.

Lemma endpoint_table_labels : forall df,
  endpoint_table df ->
  column "Label" df = Ok (map CStr (map (label_at 0) (df_rows df))).
Proof.
  intros df (Hc & _ & Hrows). unfold column. rewrite Hc.
  change (index_of "Label" COLUMN_ORDER) with (Some 0%nat). cbv beta iota. f_equal.
  rewrite map_map. apply map_ext_in. intros row Hin.
  rewrite Forall_forall in Hrows. destruct (Hrows row Hin) as (item & ->).
  reflexivity.
Qed.

(** On an endpoint table every text can be written, except the integer of
    a blank [#Samples]. *)
Lemma endpoint_metric_text : forall df label m,
  endpoint_table df ->
  In m metrics ->
  (exists text, metric_text label (fst m) df = Ok text) \/
  (metric_text label (fst m) df = Raise ValueError /\
   exists row, In row (df_rows df) /\ endpoint_cell "#Samples" row = CNaN).
Proof.
  intros df label m (Hc & _ & Hrows) Hm.
  assert (Hi : index_of "Label" (df_columns df) = Some 0%nat) by now rewrite Hc.
  rewrite (metric_text_first_row label (fst m) df 0 Hi). unfold first_row_of.
  destruct (find _ (df_rows df)) as [row|] eqn:Hfind; [|left; eauto].
  apply find_some in Hfind as [Hin _].
  rewrite Forall_forall in Hrows. destruct (Hrows row Hin) as ([l data] & Hrow).
  rewrite Hc. unfold metrics in Hm. cbn [In] in Hm.
  destruct Hm as [<- | Hm].
  { cbn [fst]. change (index_of "#Samples" COLUMN_ORDER) with (Some 1%nat). cbv beta iota.
    destruct (cell_at 1 row) eqn:Hcell.
    - left. eexists. reflexivity.
    - left. eexists. reflexivity.
    - exfalso. rewrite Hrow in Hcell.
      change (cell_at 1 (expected_endpoint_row (l, data)))
        with (count_cell "sampleCount" data) in Hcell.
      unfold count_cell in Hcell. destruct (dict_get _ _); discriminate Hcell.
    - left. eexists. reflexivity.
    - right. split; [reflexivity|]. exists row. split; [exact Hin | exact Hcell]. }
  left.
  repeat (destruct Hm as [<- | Hm];
          [ cbn [fst];
            match goal with
            | |- context [index_of ?k COLUMN_ORDER] =>
                let v := eval vm_compute in (index_of k COLUMN_ORDER) in
                change (index_of k COLUMN_ORDER) with v
            end;
            cbv beta iota; rewrite Hrow;
            match goal with
            | |- context [cell_at ?j (expected_endpoint_row ?it)] =>
                let v := eval cbv [cell_at nth expected_endpoint_row snd fst]
                         in (cell_at j (expected_endpoint_row it)) in
                change (cell_at j (expected_endpoint_row it)) with v
            end;
            unfold rounded_cell; destruct (dict_get _ (attrs data));
            eexists; reflexivity
          | ]).
  contradiction.
Qed.

Lemma map_result_raises_uniform {A B : Type} : forall (f : A -> result B) xs e,
  (forall x e', In x xs -> f x = Raise e' -> e' = e) ->
  (exists x, In x xs /\ f x = Raise e) ->
  map_result f xs = Raise e.
Proof.
  intros f xs e Hall (x & Hin & Hx).
  destruct (map_result f xs) as [ys|e'] eqn:Hm.
  - apply map_result_Forall2 in Hm.
    exfalso. clear Hall. induction Hm as [|a y xs ys Ha _ IH]; [contradiction|].
    destruct Hin as [-> | Hin]; [congruence | now apply IH].
  - apply map_result_raise in Hm as (x' & Hin' & Hx'). f_equal. now apply (Hall x').
Qed.

Lemma comparison_texts_of_endpoint_tables : forall label tables,
  Forall endpoint_table tables ->
  (forall e, comparison_texts label tables = Raise e -> e = ValueError) /\
  (Forall (fun df => Forall (fun row => endpoint_cell "#Samples" row <> CNaN) (df_rows df))
          tables ->
   exists texts, comparison_texts label tables = Ok texts).
Proof.
  intros label tables Htables. unfold comparison_texts. split.
  - intros e H. apply map_result_raise in H as ([m df] & Hin & Hx).
    apply in_prod_iff in Hin as [Hm Hdf]. cbn [fst snd] in Hx.
    rewrite Forall_forall in Htables.
    destruct (endpoint_metric_text df label m (Htables df Hdf) Hm) as [(text & Ht) | (Hr & _)];
      congruence.
  - intros Hfilled. apply map_result_total. apply Forall_forall.
    intros [m df] Hin. apply in_prod_iff in Hin as [Hm Hdf]. cbn [fst snd].
    rewrite Forall_forall in Htables, Hfilled.
    destruct (endpoint_metric_text df label m (Htables df Hdf) Hm)
      as [(text & Ht) | (_ & row & Hrow & Hblank)]; [eauto|].
    exfalso. pose proof (Hfilled df Hdf) as Hf. rewrite Forall_forall in Hf.
    exact (Hf row Hrow Hblank).
Qed.

Lemma dedup_In : forall l x, In x (dedup l) <-> In x l.
Proof.
  intros l x. rewrite <- !mem_string_In. now rewrite mem_string_dedup.
Qed.

Lemma endpoint_tables_labels : forall tables,
  Forall endpoint_table tables ->
  all_labels [] tables
  = Ok (map CStr (dedup (concat (map (fun df => map (label_at 0) (df_rows df)) tables)))).
Proof.
  intros tables Htables.
  apply (all_labels_strings tables _ []); [|constructor].
  induction Htables as [|df tables Hdf _ IH]; cbn [map]; constructor; [|exact IH].
  now apply endpoint_table_labels.
Qed.

Lemma expected_rows_shape : forall tables labels rows,
  map_result (fun label => texts <- comparison_texts label tables ;;
                           Ok (label :: map CStr texts)) labels = Ok rows ->
  map (cell_at 0) rows = labels /\
  Forall (fun row => length row = S (8 * length tables)) rows.
Proof.
  intros tables labels rows H. apply map_result_Forall2 in H.
  induction H as [|label row labels rows Hrow _ [IH1 IH2]]; [now split|].
  destruct (comparison_texts label tables) as [texts|] eqn:Ht; cbn [bind] in Hrow;
    [|discriminate Hrow].
  inversion Hrow; subst row. split.
  - cbn [map]. now rewrite IH1.
  - constructor; [|exact IH2]. cbn [length]. f_equal.
    unfold comparison_texts in Ht. apply map_result_length in Ht.
    now rewrite length_map, Ht, length_prod.
Qed.

Lemma parsed_endpoint_tables : forall (reports : list (World * string)) tables,
  Forall2 (fun r df => exists t, parse_jmeter_tables (fst r) (snd r) = Ok t /\
                                 endpoint_stats t = Some df) reports tables ->
  Forall endpoint_table tables.
Proof.
  intros reports tables H. induction H as [|r df reports tables (t & Hp & Hdf) _ IH];
    constructor; [|exact IH].
  exact (parsed_endpoint_table (fst r) (snd r) t df Hp Hdf).
Qed.

(** X17: the endpoint comparison of the endpoint tables of parsed reports,
    under distinct report names.  When no table has a blank [#Samples]
    cell, it returns a frame with the column [Endpoint] and eight columns
    per report, and one row per label of the reports in order of first
    appearance.  When the first row that carries some label in some table
    is blank under [#Samples], the whole comparison raises [ValueError]. *)
Theorem endpoint_comparison_of_parsed_reports :
  forall (reports : list (World * string)) (tables : list DataFrame)
         (report_names : list string),
    tables <> [] ->
    length tables = length report_names ->
    NoDup report_names ->
    Forall2 (fun r df => exists t, parse_jmeter_tables (fst r) (snd r) = Ok t /\
                                   endpoint_stats t = Some df) reports tables ->
    (Forall (fun df => Forall (fun row => endpoint_cell "#Samples" row <> CNaN)
                              (df_rows df)) tables ->
     exists labels out,
       all_labels [] tables = Ok labels /\
       compare_endpoint_stats (map Some tables) report_names = Ok out /\
       df_columns out = "Endpoint" :: comparison_columns report_names /\
       map (cell_at 0) (df_rows out) = labels /\
       Forall (fun row => length row = S (8 * length report_names)) (df_rows out)) /\
    (forall df row,
       In df tables ->
       first_row_of (endpoint_cell "Label" row) 0 df = Some row ->
       endpoint_cell "#Samples" row = CNaN ->
       compare_endpoint_stats (map Some tables) report_names = Raise ValueError).
Proof.
  intros reports tables report_names Hne Hlen Hnames Hparsed.
  pose proof (parsed_endpoint_tables reports tables Hparsed) as Htables.
  assert (Hfilled : Forall (fun df => df_empty df = false) tables).
  { eapply Forall_impl; [|exact Htables]. apply endpoint_table_filled. }
  rewrite (compare_endpoint_equation tables report_names Hne Hlen Hfilled Hnames).
  rewrite (endpoint_tables_labels tables Htables). cbn [bind].
  set (labels := dedup (concat (map (fun df => map (label_at 0) (df_rows df)) tables))).
  unfold expected_endpoint_comparison.
  split.
  - intros Hsamples.
    assert (Hrows : exists rows,
               map_result (fun label => texts <- comparison_texts label tables ;;
                                        Ok (label :: map CStr texts))
                          (map CStr labels) = Ok rows).
    { apply map_result_total. apply Forall_forall. intros label _.
      destruct (proj2 (comparison_texts_of_endpoint_tables label tables Htables) Hsamples)
        as [texts ->].
      cbn [bind]. eauto. }
    destruct Hrows as [rows Hrows]. rewrite Hrows. cbn [bind].
    exists (map CStr labels). eexists. split; [reflexivity|]. split; [reflexivity|].
    cbn [df_columns df_rows]. split; [reflexivity|].
    destruct (expected_rows_shape tables (map CStr labels) rows Hrows) as [H0 Hl].
    split; [exact H0 | now rewrite <- Hlen].
  - intros df row Hdf Hfirst Hblank.
    rewrite Forall_forall in Htables. pose proof (Htables df Hdf) as Hdft.
    destruct Hdft as (Hc & Hr & Hrowsdf).
    assert (Hin : In row (df_rows df)).
    { unfold first_row_of in Hfirst. now apply find_some in Hfirst as [Hin _]. }
    rewrite Forall_forall in Hrowsdf. destruct (Hrowsdf row Hin) as ([l data] & Hrow).
    assert (Hlabel : endpoint_cell "Label" row = CStr l) by now rewrite Hrow.
    rewrite Hlabel in Hfirst.
    assert (Htext : metric_text (CStr l) "#Samples" df = Raise ValueError).
    { assert (Hi : index_of "Label" (df_columns df) = Some 0%nat) by now rewrite Hc.
      rewrite (metric_text_first_row (CStr l) "#Samples" df 0 Hi), Hfirst, Hc.
      change (index_of "#Samples" COLUMN_ORDER) with (Some 1%nat). cbv beta iota.
      change (cell_at 1 row) with (endpoint_cell "#Samples" row). now rewrite Hblank. }
    assert (Htexts : comparison_texts (CStr l) tables = Raise ValueError).
    { unfold comparison_texts. apply map_result_raises_uniform.
      - intros [m df'] e' Hin' Hx. apply in_prod_iff in Hin' as [Hm Hdf'].
        cbn [fst snd] in Hx.
        assert (Ht' : endpoint_table df') by now apply Htables.
        destruct (endpoint_metric_text df' (CStr l) m Ht' Hm) as [(text & Ht) | (Hr' & _)];
          congruence.
      - exists (("#Samples", "#Samples"), df). split; [|exact Htext].
        apply in_prod_iff. split; [now left | exact Hdf]. }
    assert (Hall : forall label e,
               (texts <- comparison_texts label tables ;; Ok (label :: map CStr texts))
               = Raise e -> e = ValueError).
    { intros label e H.
      destruct (comparison_texts label tables) as [texts|e'] eqn:Ht; cbn [bind] in H;
        [discriminate H|].
      inversion H; subst e'.
      apply (proj1 (comparison_texts_of_endpoint_tables label tables
                      (proj2 (Forall_forall _ _) Htables)) e Ht). }
    rewrite (map_result_raises_uniform _ (map CStr labels) ValueError); [reflexivity | |].
    + intros x e' _ Hx. now apply (Hall x).
    + exists (CStr l). split; [|now rewrite Htexts].
      apply in_map. unfold labels. apply dedup_In. apply in_concat.
      exists (map (label_at 0) (df_rows df)). split.
      * apply in_map_iff. now exists df.
      * apply in_map_iff. exists row. split; [|exact Hin].
        unfold label_at. change (cell_at 0 row) with (endpoint_cell "Label" row).
        now rewrite Hlabel.
Qed.

Lemma endpoint_comparison_of_parsed_reports_witness :
  (exists labels out,
     all_labels [] [endpoints_of "/reports/r1/index.html";
                    endpoints_of "/reports/r5/index.html"] = Ok labels /\
     compare_endpoint_stats
       (map Some [endpoints_of "/reports/r1/index.html";
                  endpoints_of "/reports/r5/index.html"]) ["v1"; "v2"] = Ok out /\
     df_columns out = "Endpoint" :: comparison_columns ["v1"; "v2"] /\
     map (cell_at 0) (df_rows out) = labels /\
     Forall (fun row => length row = S (8 * length ["v1"; "v2"])) (df_rows out)) /\
  compare_endpoint_stats
    (map Some [endpoints_of "/reports/r1/index.html"; partial_endpoints]) ["v1"; "v2"]
  = Raise ValueError.
Proof.
  split.
  - apply (endpoint_comparison_of_parsed_reports
             [(sample_world, "/reports/r1/index.html");
              (sample_world, "/reports/r5/index.html")]
             [endpoints_of "/reports/r1/index.html";
              endpoints_of "/reports/r5/index.html"] ["v1"; "v2"]).
    + discriminate.
    + reflexivity.
    + repeat constructor; simpl; intuition discriminate.
    + repeat constructor; eexists; split; vm_compute; reflexivity.
    + vm_compute. repeat constructor; discriminate.
  - apply (endpoint_comparison_of_parsed_reports
             [(sample_world, "/reports/r1/index.html");
              (partial_world, "/reports/r9/index.html")]
             [endpoints_of "/reports/r1/index.html"; partial_endpoints] ["v1"; "v2"])
      with (df := partial_endpoints)
           (row := [CStr "Total"; CNaN; CNaN; CNaN; CFloat 20; CNaN; CNaN; CNaN; CNaN; CNaN;
                    CNaN; CNaN; CNaN; CNaN]).
    + discriminate.
    + reflexivity.
    + repeat constructor; simpl; intuition discriminate.
    + repeat constructor; eexists; split; vm_compute; reflexivity.
    + right. now left.
    + vm_compute. reflexivity.
    + reflexivity.
Defined.


(** ** Column groups of the comparison sheets *)

Lemma metric_group_loop_spec : forall fuel n_columns n_reports i groups,
  (0 < n_reports)%nat ->
  (n_columns - i < fuel)%nat ->
  exists more,
    app.metric_group_loop fuel n_columns n_reports i groups = Some (groups ++ more) /\
    concat more = seq i (n_columns - i) /\
    forall k g, nth_error more k = Some g ->
      (i + k * n_reports < n_columns)%nat /\
      g = seq (i + k * n_reports) (Nat.min n_reports (n_columns - (i + k * n_reports))).
Proof.
  induction fuel as [|fuel IH]; intros n_columns n_reports i groups Hn Hfuel; [lia|].
  cbn [app.metric_group_loop].
  destruct (Nat.ltb_spec i n_columns) as [Hlt | Hge].
  - destruct (IH n_columns n_reports (i + n_reports)%nat
                (groups ++ [seq i (Nat.min (i + n_reports) n_columns - i)]) Hn)
      as (more & Hloop & Hconcat & Hnth); [lia|].
    exists (seq i (Nat.min (i + n_reports) n_columns - i) :: more).
    split; [|split].
    + rewrite Hloop, <- app_assoc. reflexivity.
    + cbn [concat]. rewrite Hconcat.
      replace (n_columns - i)%nat
        with ((Nat.min (i + n_reports) n_columns - i)
              + (n_columns - (i + n_reports)))%nat by lia.
      rewrite seq_app. f_equal.
      destruct (Nat.le_gt_cases (i + n_reports) n_columns) as [Hfit | Hover].
      * f_equal. lia.
      * replace (n_columns - (i + n_reports))%nat with 0%nat by lia. reflexivity.
    + intros [|k] g Hg.
      * cbn [nth_error] in Hg. inversion Hg. cbn [Nat.mul].
        split; [lia|]. f_equal; lia.
      * cbn [nth_error] in Hg. destruct (Hnth k g Hg) as [Hk ->]. cbn [Nat.mul].
        split; [lia|]. f_equal; lia.
  - exists []. split; [now rewrite app_nil_r|]. split.
    + replace (n_columns - i)%nat with 0%nat by lia. reflexivity.
    + intros [|k] g Hg; discriminate Hg.
Qed.

(** X18: with at least one report name, the loop that groups the columns
    of a comparison sheet ends, and the groups are the column indices from
    1 on, cut into runs of [n_reports]: group [k] starts at column
    [1 + k * n_reports], only the last group can be shorter, no group is
    empty, and column 0 is in no group. *)
Theorem metric_groups_partition_the_columns :
  forall fuel n_columns n_reports : nat,
    (0 < n_reports)%nat ->
    (n_columns < fuel)%nat ->
    exists groups,
      app.metric_group_indices fuel n_columns n_reports = Some groups /\
      concat groups = seq 1 (n_columns - 1) /\
      (forall k g, nth_error groups k = Some g ->
         g = seq (1 + k * n_reports)
                 (Nat.min n_reports (n_columns - (1 + k * n_reports))) /\
         g <> []) /\
      (forall k g col, nth_error groups k = Some g -> In col g ->
         k = ((col - 1) / n_reports)%nat).
Proof.
  intros fuel n_columns n_reports Hn Hfuel.
  destruct (metric_group_loop_spec fuel n_columns n_reports 1 [] Hn)
    as (groups & Hloop & Hconcat & Hnth); [lia|].
  exists groups. split; [exact Hloop|]. split; [exact Hconcat|]. split.
  - intros k g Hg. destruct (Hnth k g Hg) as [Hk ->]. split; [reflexivity|].
    destruct (Nat.min n_reports (n_columns - (1 + k * n_reports))) eqn:Hm; [lia|].
    discriminate.
  - intros k g col Hg Hcol. destruct (Hnth k g Hg) as [Hk ->].
    apply in_seq in Hcol.
    apply (Nat.div_unique (col - 1) n_reports k (col - 1 - k * n_reports)); lia.
Qed.

Lemma metric_groups_partition_witness :
  exists groups,
    app.metric_group_indices 10 6 2 = Some groups /\
    concat groups = seq 1 (6 - 1) /\
    (forall k g, nth_error groups k = Some g ->
       g = seq (1 + k * 2) (Nat.min 2 (6 - (1 + k * 2))) /\ g <> []) /\
    (forall k g col, nth_error groups k = Some g -> In col g ->
       k = ((col - 1) / 2)%nat).
Proof.
  apply (metric_groups_partition_the_columns 10 6 2); lia.
Defined.

Lemma metric_group_loop_stuck : forall fuel n_columns i groups,
  (i < n_columns)%nat ->
  app.metric_group_loop fuel n_columns 0 i groups = None.
Proof.
  induction fuel as [|fuel IH]; intros n_columns i groups Hi; [reflexivity|].
  cbn [app.metric_group_loop].
  destruct (Nat.ltb_spec i n_columns) as [_ | Hge]; [|lia].
  rewrite Nat.add_0_r. now apply IH.
Qed.

(** X19: without any report name the loop that groups the columns never
    ends on a frame of two columns or more: the index stays at 1, and
    whatever the fuel the loop is still running when it is spent. *)
Theorem metric_groups_loop_forever_without_names :
  forall fuel n_columns : nat,
    (1 < n_columns)%nat ->
    app.metric_group_indices fuel n_columns 0 = None.
Proof.
  intros fuel n_columns H. unfold app.metric_group_indices.
  now apply metric_group_loop_stuck.
Qed.

Lemma metric_groups_loop_forever_witness :
  app.metric_group_indices 1000 8 0 = None.
Proof.
  apply (metric_groups_loop_forever_without_names 1000 8). lia.
Defined.


Lemma metric_group_loop_result : forall fuel n_columns n_reports i groups result,
  (0 < n_reports)%nat ->
  app.metric_group_loop fuel n_columns n_reports i groups = Some result ->
  exists more,
    result = groups ++ more /\
    concat more = seq i (n_columns - i) /\
    forall k g, nth_error more k = Some g ->
      (i + k * n_reports < n_columns)%nat /\
      g = seq (i + k * n_reports) (Nat.min n_reports (n_columns - (i + k * n_reports))).
Proof.
  induction fuel as [|fuel IH]; intros n_columns n_reports i groups result Hn H;
    [discriminate H|].
  cbn [app.metric_group_loop] in H.
  destruct (Nat.ltb_spec i n_columns) as [Hlt | Hge].
  - destruct (IH _ _ _ _ _ Hn H) as (more & -> & Hconcat & Hnth).
    exists (seq i (Nat.min (i + n_reports) n_columns - i) :: more).
    split; [|split].
    + now rewrite <- app_assoc.
    + cbn [concat]. rewrite Hconcat.
      replace (n_columns - i)%nat
        with ((Nat.min (i + n_reports) n_columns - i)
              + (n_columns - (i + n_reports)))%nat by lia.
      rewrite seq_app. f_equal.
      destruct (Nat.le_gt_cases (i + n_reports) n_columns) as [Hfit | Hover].
      * f_equal. lia.
      * replace (n_columns - (i + n_reports))%nat with 0%nat by lia. reflexivity.
    + intros [|k] g Hg.
      * cbn [nth_error] in Hg. inversion Hg. cbn [Nat.mul].
        split; [lia|]. f_equal; lia.
      * cbn [nth_error] in Hg. destruct (Hnth k g Hg) as [Hk ->]. cbn [Nat.mul].
        split; [lia|]. f_equal; lia.
  - inversion H; subst result. exists []. split; [now rewrite app_nil_r|]. split.
    + replace (n_columns - i)%nat with 0%nat by lia. reflexivity.
    + intros [|k] g Hg; discriminate Hg.
Qed.

Lemma in_enumerate {A : Type} : forall (l : list A) s k x,
  In (k, x) (combine (seq s (length l)) l) <->
  (s <= k)%nat /\ nth_error l (k - s) = Some x.
Proof.
  induction l as [|y l IH]; intros s k x; cbn [length seq combine In].
  - split; [intros [] | intros [_ H]]. now destruct (k - s)%nat.
  - rewrite IH. split.
    + intros [H | [Hs H]].
      * inversion H; subst. split; [lia|]. now rewrite Nat.sub_diag.
      * split; [lia|]. replace (k - s)%nat with (S (k - S s)) by lia. exact H.
    + intros [Hs H]. destruct (k - s)%nat as [|d] eqn:Hd.
      * left. cbn [nth_error] in H. inversion H. f_equal. lia.
      * right. split; [lia|]. cbn [nth_error] in H.
        now replace (k - S s)%nat with d by lia.
Qed.

Lemma group_fills_In : forall n_colours groups col c,
  In (col, c) (app.group_fills n_colours groups) <->
  exists k g, nth_error groups k = Some g /\ In col g /\ c = (k mod n_colours)%nat.
Proof.
  intros n_colours groups col c. unfold app.group_fills. rewrite in_flat_map. split.
  - intros ([k g] & Hkg & Hin). apply in_enumerate in Hkg as [_ Hg].
    rewrite Nat.sub_0_r in Hg. cbn [fst snd] in Hin.
    apply in_map_iff in Hin as (col' & Heq & Hcol). inversion Heq; subst.
    now exists k, g.
  - intros (k & g & Hg & Hcol & ->). exists (k, g). split.
    + apply in_enumerate. split; [lia|]. now rewrite Nat.sub_0_r.
    + cbn [fst snd]. apply in_map_iff. now exists col.
Qed.

(** X20: when the grouping loop ends, the colour loop fills exactly the
    columns from 1 to the last one, and column [col] gets the colour
    numbered [((col - 1) // n_reports) % n_colours]: the columns of one run
    of [n_reports] share a colour, and column 0 is left unfilled. *)
Theorem comparison_columns_are_coloured_by_run :
  forall (fuel n_columns n_reports n_colours : nat) (groups : list (list nat)),
    (0 < n_reports)%nat ->
    app.metric_group_indices fuel n_columns n_reports = Some groups ->
    forall col c,
      In (col, c) (app.group_fills n_colours groups) <->
      (1 <= col < n_columns)%nat /\ c = (((col - 1) / n_reports) mod n_colours)%nat.
Proof.
  intros fuel n_columns n_reports n_colours groups Hn Hgroups col c.
  unfold app.metric_group_indices in Hgroups.
  destruct (metric_group_loop_result _ _ _ _ _ _ Hn Hgroups) as (more & -> & Hconcat & Hnth).
  cbn [app]. rewrite group_fills_In. split.
  - intros (k & g & Hg & Hcol & ->).
    destruct (Hnth k g Hg) as [Hk ->]. apply in_seq in Hcol.
    assert (Hdiv : k = ((col - 1) / n_reports)%nat)
      by (apply (Nat.div_unique (col - 1) n_reports k (col - 1 - k * n_reports)); lia).
    split; [lia | now rewrite Hdiv].
  - intros [Hcol ->].
    assert (Hin : In col (concat more)) by (rewrite Hconcat; apply in_seq; lia).
    apply in_concat in Hin as (g & Hg & Hcolg).
    apply In_nth_error in Hg as [k Hk].
    exists k, g. split; [exact Hk|]. split; [exact Hcolg|].
    destruct (Hnth k g Hk) as [Hlt ->]. apply in_seq in Hcolg.
    f_equal. symmetry.
    apply (Nat.div_unique (col - 1) n_reports k (col - 1 - k * n_reports)); lia.
Qed.

Lemma comparison_columns_coloured_witness :
  In (3, 1)%nat (app.group_fills 2 [[1; 2]%nat; [3; 4]%nat; [5]%nat]) <->
  (1 <= 3 < 6)%nat /\ 1%nat = (((3 - 1) / 2) mod 2)%nat.
Proof.
  apply (comparison_columns_are_coloured_by_run 10 6 2 2 [[1; 2]%nat; [3; 4]%nat; [5]%nat]).
  - lia.
  - reflexivity.
Defined.


(** ** The groups of an endpoint comparison sheet *)

Lemma metric_group_loop_exact : forall m fuel n_reports i groups,
  (0 < n_reports)%nat ->
  (m < fuel)%nat ->
  app.metric_group_loop fuel (i + m * n_reports) n_reports i groups
  = Some (groups ++ map (fun k => seq (i + k * n_reports) n_reports) (seq 0 m)).
Proof.
  induction m as [|m IH]; intros fuel n_reports i groups Hn Hfuel;
    (destruct fuel as [|fuel]; [lia|]); cbn [app.metric_group_loop].
  - cbn [Nat.mul]. rewrite Nat.add_0_r, Nat.ltb_irrefl. cbn [seq map].
    now rewrite app_nil_r.
  - destruct (Nat.ltb_spec i (i + S m * n_reports)) as [_ | Hge];
      [|cbn [Nat.mul] in Hge; lia].
    replace (Nat.min (i + n_reports) (i + S m * n_reports) - i)%nat with n_reports
      by (cbn [Nat.mul]; lia).
    replace (i + S m * n_reports)%nat with (i + n_reports + m * n_reports)%nat
      by (cbn [Nat.mul]; lia).
    rewrite IH by lia. rewrite <- app_assoc. do 2 f_equal.
    cbn [seq map app]. cbn [Nat.mul]. rewrite Nat.add_0_r. f_equal.
    rewrite <- seq_shift, map_map. apply map_ext. intros k. f_equal.
    cbn [Nat.mul]. lia.
Qed.

Lemma Forall2_enumerate {A B : Type} : forall (R : A -> B -> Prop) (l : list A) (h : nat -> B),
  (forall k x, nth_error l k = Some x -> R x (h k)) ->
  Forall2 R l (map h (seq 0 (length l))).
Proof.
  intros R l. induction l as [|x l IH]; intros h H; cbn [length seq map]; constructor.
  - now apply (H 0%nat).
  - rewrite <- seq_shift, map_map. apply IH. intros k y Hy. now apply (H (S k)).
Qed.

Lemma map_nth_error_prefix {A : Type} : forall (a b : list A),
  map (nth_error (a ++ b)) (seq 0 (length a)) = map Some a.
Proof.
  induction a as [|x a IH]; intros b; cbn [length seq map app]; [reflexivity|].
  cbn [nth_error]. f_equal. rewrite <- seq_shift, map_map. cbn [nth_error]. apply IH.
Qed.

Lemma seq_offset : forall len s d, seq (d + s) len = map (Nat.add d) (seq s len).
Proof.
  induction len as [|len IH]; intros s d; cbn [seq map]; [reflexivity|].
  f_equal. rewrite <- IH. f_equal. lia.
Qed.

Lemma flat_map_run {A B : Type} : forall (f : A -> list B) (n : nat) l k x,
  (forall y, length (f y) = n) ->
  nth_error l k = Some x ->
  map (nth_error (flat_map f l)) (seq (k * n) n) = map Some (f x).
Proof.
  intros f n l. induction l as [|y l IH]; intros k x Hlen Hk.
  - now destruct k.
  - destruct k as [|k]; cbn [nth_error] in Hk; cbn [flat_map].
    + inversion Hk; subst y. cbn [Nat.mul]. rewrite <- (Hlen x) at 1.
      apply map_nth_error_prefix.
    + rewrite <- (IH k x Hlen Hk). cbn [Nat.mul].
      rewrite seq_offset, map_map. apply map_ext. intros c.
      rewrite nth_error_app2 by (rewrite Hlen; lia). f_equal. rewrite Hlen. lia.
Qed.

(** X21: on the sheet of an endpoint comparison the colour groups are the
    metrics: the grouping loop ends with eight groups, and the columns of
    group [k] are the columns of the [k]-th metric, one per report. *)
Theorem endpoint_comparison_groups_are_the_metrics :
  forall (report_names : list string) (fuel : nat),
    report_names <> [] ->
    (8 < fuel)%nat ->
    let columns := "Endpoint" :: comparison_columns report_names in
    exists groups,
      app.metric_group_indices fuel (length columns) (length report_names) = Some groups /\
      Forall2 (fun metric group =>
                 map (nth_error columns) group
                 = map (fun name => Some (comparison_column (snd metric) name))
                       report_names)
              metrics groups.
Proof.
  intros report_names fuel Hne Hfuel columns.
  set (n := length report_names).
  assert (Hn : (0 < n)%nat) by (subst n; destruct report_names; [contradiction | cbn; lia]).
  assert (Hlen : length columns = (1 + 8 * n)%nat).
  { subst columns. cbn [length]. unfold comparison_columns.
    rewrite (flat_map_length_uniform _ n); [reflexivity|]. intros m. apply length_map. }
  rewrite Hlen. unfold app.metric_group_indices.
  rewrite (metric_group_loop_exact 8 fuel n 1 [] Hn Hfuel). cbn [app].
  eexists. split; [reflexivity|].
  change 8%nat with (length metrics).
  apply Forall2_enumerate. intros k metric Hk.
  subst columns. cbn [Nat.add]. rewrite <- seq_shift, map_map. cbn [nth_error].
  unfold comparison_columns.
  rewrite (flat_map_run _ n metrics k metric); [now rewrite map_map | | exact Hk].
  intros m. apply length_map.
Qed.

Lemma endpoint_comparison_groups_witness :
  let columns := "Endpoint" :: comparison_columns ["v1"; "v2"] in
  exists groups,
    app.metric_group_indices 20 (length columns) (length ["v1"; "v2"]) = Some groups /\
    Forall2 (fun metric group =>
               map (nth_error columns) group
               = map (fun name => Some (comparison_column (snd metric) name)) ["v1"; "v2"])
            metrics groups.
Proof.
  apply (endpoint_comparison_groups_are_the_metrics ["v1"; "v2"] 20).
  - discriminate.
  - lia.
Defined.


(** ** The report without data *)

(** X22: for a report that parses, the application finds no valid table,
    and warns that the report holds no data, exactly when the statistics
    payload is missing or is the empty object; otherwise the endpoint table
    is there to be shown. *)
Theorem no_data_warning_means_no_payload :
  forall (w : World) (report_path : string) (t : ReportTableSet),
    parse_jmeter_tables w report_path = Ok t ->
    (app.has_valid_tables t = false <->
     statistics_json w (statistics_path report_path) = None \/
     statistics_json w (statistics_path report_path) = Some (Some [])) /\
    (app.has_valid_tables t = true <->
     exists df, endpoint_stats t = Some df /\ df_empty df = false).
Proof.
  intros w report_path t Hparse. unfold parse_jmeter_tables in Hparse.
  destruct (statistics_json w (statistics_path report_path)) as [[loaded|]|];
    [| discriminate Hparse | ].
  2:{ inversion Hparse; subst t. split.
      - split; [now left | reflexivity].
      - split; [discriminate | intros (df & H & _); discriminate H]. }
  destruct (tables_of_returns w loaded t Hparse) as (stats_data & Hwith & Hcases).
  pose proof (with_total_empty loaded stats_data Hwith) as Hempty.
  destruct Hcases as [[Hnil ->] | (Hne & _ & ->)].
  - apply Hempty in Hnil. subst loaded. split.
    + split; [now right | reflexivity].
    + split; [discriminate | intros (df & H & _); discriminate H].
  - assert (Hfilled : df_empty (mkDataFrame COLUMN_ORDER
                                  (sort_rows (map fst stats_data)
                                             (map expected_endpoint_row stats_data)))
                      = false).
    { unfold df_empty. cbn [df_columns df_rows COLUMN_ORDER].
      destruct (sort_rows _ _) eqn:Hs; [|reflexivity].
      exfalso. apply Hne. pose proof (sorted_rows_length stats_data) as Hlen.
      rewrite Hs in Hlen. now destruct stats_data. }
    assert (Hvalid : app.has_valid_tables
                       (mkTables
                          (Some (mkDataFrame COLUMN_ORDER
                                   (sort_rows (map fst stats_data)
                                              (map expected_endpoint_row stats_data))))
                          (aggregate_of_payload stats_data)
                          (expected_errors (load_error_info w) stats_data)) = true).
    { unfold app.has_valid_tables. cbn [existsb endpoint_stats none_or_empty].
      now rewrite Hfilled. }
    rewrite Hvalid. split.
    + split; [discriminate|]. intros [H | H]; [discriminate H|].
      inversion H; subst loaded. exfalso. apply Hne. now apply Hempty.
    + split; [|reflexivity]. intros _. eexists. split; [reflexivity | exact Hfilled].
Qed.

Lemma no_data_warning_witness :
  app.has_valid_tables (tables_at "/reports/r4/index.html") = false <->
  statistics_json sample_world (statistics_path "/reports/r4/index.html") = None \/
  statistics_json sample_world (statistics_path "/reports/r4/index.html") = Some (Some []).
Proof.
  apply (no_data_warning_means_no_payload sample_world "/reports/r4/index.html").
  vm_compute. reflexivity.
Defined.


(** ** Exceptions of the error comparison *)

Lemma comparison_row_keys : forall errors1 errors2 endpoint error row,
  comparison_row errors1 errors2 endpoint error = Ok row ->
  dict_keys row = ERROR_COMPARISON_COLUMNS /\
  dict_get "Endpoint" row = Some (CStr endpoint).
Proof.
  intros errors1 errors2 endpoint error row H. unfold comparison_row in H.
  destruct (count_of errors1 error); cbn [bind] in H; [|discriminate H].
  destruct (count_of errors2 error); cbn [bind] in H; [|discriminate H].
  destruct (total_of errors1); cbn [bind] in H; [|discriminate H].
  destruct (total_of errors2); cbn [bind] in H; [|discriminate H].
  destruct (percentage _ _); cbn [bind] in H; [|discriminate H].
  destruct (percentage _ _); cbn [bind] in H; [|discriminate H].
  inversion H. split; reflexivity.
Qed.

Lemma endpoint_rows_keys : forall df1 df2 endpoint row,
  In row (endpoint_rows df1 df2 endpoint) ->
  dict_keys row = ERROR_COMPARISON_COLUMNS /\
  dict_get "Endpoint" row = Some (CStr endpoint).
Proof.
  intros df1 df2 endpoint row H. unfold endpoint_rows in H.
  destruct (errors_for endpoint df1) as [errors1|]; cbn [bind] in H; [|contradiction].
  destruct (errors_for endpoint df2) as [errors2|]; cbn [bind] in H; [|contradiction].
  destruct (column "Error" errors1); cbn [bind] in H; [|contradiction].
  destruct (column "Error" errors2); cbn [bind] in H; [|contradiction].
  destruct (strings_of TypeError _) as [descriptions|]; cbn [bind] in H; [|contradiction].
  apply in_flat_map in H as (error & _ & Hrow).
  destruct (comparison_row errors1 errors2 endpoint error) as [r|] eqn:Hr; [|contradiction].
  destruct Hrow as [<- | []]. exact (comparison_row_keys _ _ _ _ _ Hr).
Qed.

Lemma apply_column_columns : forall c f df,
  df_columns (apply_column c f df) = df_columns df.
Proof.
  intros c f df. unfold apply_column. now destruct (index_of c (df_columns df)).
Qed.

Lemma apply_column_length : forall c f df,
  length (df_rows (apply_column c f df)) = length (df_rows df).
Proof.
  intros c f df. unfold apply_column.
  destruct (index_of c (df_columns df)); [apply length_map | reflexivity].
Qed.

(** X23: once the endpoint columns of two non-empty error tables can be
    read, [compare_errors] raises nothing: an exception on an endpoint or on
    an error of an endpoint only drops that endpoint or that error.  The
    result is the empty frame or a frame with the eight comparison columns
    and at least one row. *)
Theorem compare_errors_raises_nothing_past_the_endpoints :
  forall (df1 df2 : DataFrame) (endpoints1 endpoints2 : list string),
    column "Endpoint" df1 = Ok (map CStr endpoints1) ->
    column "Endpoint" df2 = Ok (map CStr endpoints2) ->
    exists out,
      compare_errors (Some df1) (Some df2) = Ok out /\
      (out = empty_frame \/
       (df_columns out = ERROR_COMPARISON_COLUMNS /\ df_rows out <> [])).
Proof.
  intros df1 df2 endpoints1 endpoints2 H1 H2. unfold compare_errors.
  destruct (df_empty df1 || df_empty df2); [exists empty_frame; now split; [|left]|].
  rewrite H1, H2. cbn [bind]. rewrite <- map_app, strings_of_strings. cbn [bind].
  destruct (flat_map (endpoint_rows df1 df2) (sorted_set (endpoints1 ++ endpoints2)))
    as [|r rows] eqn:Hrows; [exists empty_frame; now split; [|left]|].
  eexists. split; [reflexivity|]. right.
  assert (Hkeys : forall r', In r' (r :: rows) -> dict_keys r' = ERROR_COMPARISON_COLUMNS).
  { intros r' Hin. rewrite <- Hrows in Hin.
    apply in_flat_map in Hin as (endpoint & _ & Hin).
    exact (proj1 (endpoint_rows_keys _ _ _ _ Hin)). }
  cbn [fold_left]. split.
  - rewrite !apply_column_columns.
    rewrite (from_records_uniform ERROR_COMPARISON_COLUMNS r rows); [reflexivity | | exact Hkeys].
    repeat constructor; simpl; intuition discriminate.
  - intros Hnil. apply (f_equal (@length _)) in Hnil.
    rewrite !apply_column_length in Hnil.
    rewrite (from_records_uniform ERROR_COMPARISON_COLUMNS r rows) in Hnil;
      [discriminate Hnil | | exact Hkeys].
    repeat constructor; simpl; intuition discriminate.
Qed.

Lemma compare_errors_raises_nothing_witness :
  exists out,
    compare_errors (Some (counted_table "GET /a" "Timeout" 5 100))
                   (Some (mkDataFrame ["Endpoint"; "Error"] [[CStr "GET /a"; CInt 7]]))
    = Ok out /\
    (out = empty_frame \/
     (df_columns out = ERROR_COMPARISON_COLUMNS /\ df_rows out <> [])).
Proof.
  apply (compare_errors_raises_nothing_past_the_endpoints
           (counted_table "GET /a" "Timeout" 5 100)
           (mkDataFrame ["Endpoint"; "Error"] [[CStr "GET /a"; CInt 7]])
           ["GET /a"] ["GET /a"]); reflexivity.
Defined.

